(** * fastd: record-layer nonce window and the ec25519-fhmqvc session protocol

    A shallow embedding of
    - [src/methods/common.c]: the nonce discipline and reorder window shared
      by all methods ([Module Common]);
    - the ec25519-fhmqvc protocol handler: handshake dispatch, [establish],
      and the data send / receive path ([Module Protocol]);
    - the keys of the configuration: [read_key], [protocol_init],
      [protocol_peer_configure], [protocol_generate_key] ([Module Keys]);
    - the cipher registry ([Module Cipher]).

    C integers are modelled as [Z] with the conversions written out.  Where
    the C standard leaves the value of an expression undefined (a shift whose
    count is negative or not smaller than the width of the promoted left
    operand, signed overflow) the value is supplied by a [target] record, so
    that every statement proved for an arbitrary target holds for whatever the
    compiled code computes there; [x86_64] is the usual instance. *)

From Stdlib Require Import ZArith List Bool Lia.
From Stdlib Require Ascii String.
Import ListNotations.
Local Open Scope Z_scope.

(** ** Integer types of the C code *)

Definition INT_MIN : Z := - 2 ^ 31.
Definition INT_MAX : Z := 2 ^ 31 - 1.

(** Conversion to [uint64_t]: reduction modulo 2^64. *)
Definition to_u64 (x : Z) : Z := x mod 2 ^ 64.

(** Conversion to [unsigned] (32 bits): reduction modulo 2^32. *)
Definition to_u32 (x : Z) : Z := x mod 2 ^ 32.

(** Conversion to [int] (two's complement, 32 bits). *)
Definition to_int (x : Z) : Z := (x + 2 ^ 31) mod 2 ^ 32 - 2 ^ 31.

(** What the compiled code yields where C leaves the result undefined. *)
Record target : Type := {
  shr_u64_undef : Z -> Z -> Z;  (* uint64_t >> count, count outside 0..63 *)
  shr_int_undef : Z -> Z -> Z;  (* int >> count, count outside 0..31 *)
  shl_int_undef : Z -> Z -> Z;  (* int << count, count outside 0..31 or overflow *)
  mul_int_undef : Z -> Z -> Z   (* int * int, overflow *)
}.

(** x86-64 (AArch64 behaves alike): [shr]/[sar]/[shl] take the count modulo
    the operand width, [imul] wraps. *)
Definition x86_64 : target := {|
  shr_u64_undef := fun x n => Z.shiftr x (n mod 64);
  shr_int_undef := fun x n => Z.shiftr x (n mod 32);
  shl_int_undef := fun x n => Z.shiftl x (n mod 32);
  mul_int_undef := fun x y => x * y
|}.

Section COperators.
Variable T : target.

(** [x >> n] for [x : uint64_t]. *)
Definition shr_u64 (x n : Z) : Z :=
  if (0 <=? n) && (n <? 64) then Z.shiftr x n
  else to_u64 (shr_u64_undef T x n).

(** [x >> n] for [x : int], [x >= 0]. *)
Definition shr_int (x n : Z) : Z :=
  if (0 <=? n) && (n <? 32) then Z.shiftr x n
  else to_int (shr_int_undef T x n).

(** [x << n] for [x : int]: defined when the count is in range and
    [x * 2^n] is representable. *)
Definition shl_int (x n : Z) : Z :=
  if (0 <=? n) && (n <? 32) && (0 <=? x) && (x * 2 ^ n <=? INT_MAX)
  then x * 2 ^ n
  else to_int (shl_int_undef T x n).

(** [x * y] for [x y : int]. *)
Definition mul_int (x y : Z) : Z :=
  if (INT_MIN <=? x * y) && (x * y <=? INT_MAX) then x * y
  else to_int (mul_int_undef T x y).

End COperators.

(** ** The record layer shared by all methods ([src/methods/common.c]) *)

Module Common.

Record timespec : Type := { tv_sec : Z; tv_nsec : Z }.

(** The configuration options read by [common.c]; the declaring header is not
    part of the sources, the fields are [unsigned] there. *)
Record fastd_config_t : Type := {
  key_valid : Z;
  key_refresh : Z;
  key_refresh_splay : Z;
  reorder_time : Z;
  reorder_count : Z
}.

Record fastd_context_t : Type := {
  now : timespec;
  conf : fastd_config_t
}.

Definition COMMON_NONCEBYTES : nat := 6.

(** [fastd_method_common_t]: nonces are arrays of [COMMON_NONCEBYTES] bytes,
    least significant byte first; [receive_reorder_seen] is a [uint64_t]. *)
Record fastd_method_common_t : Type := {
  valid_till : timespec;
  refresh_after : timespec;
  send_nonce : list Z;
  receive_nonce : list Z;
  receive_last : timespec;
  receive_reorder_seen : Z
}.

Definition set_tv_sec (t : timespec) (s : Z) : timespec :=
  {| tv_sec := s; tv_nsec := tv_nsec t |}.

Definition zero_nonce : list Z := repeat 0 COMMON_NONCEBYTES.

(** [a[0] = v] on a byte array. *)
Definition set_byte0 (a : list Z) (v : Z) : list Z :=
  match a with
  | [] => []
  | _ :: t => v :: t
  end.

(** The value of a little-endian byte array. *)
Fixpoint le_value (l : list Z) : Z :=
  match l with
  | [] => 0
  | b :: t => b + 256 * le_value t
  end.

Definition is_byte (b : Z) : Prop := 0 <= b < 256.

(** A well-formed nonce: [COMMON_NONCEBYTES] bytes. *)
Definition nonce_wf (n : list Z) : Prop :=
  length n = COMMON_NONCEBYTES /\ Forall is_byte n.

(** The loop of [fastd_method_is_nonce_valid]:
    [for (i = k-1; i >= 0; i--) { age *= 256; age += recv[i] - nonce[i]; }] *)
Fixpoint age_loop (k : nat) (recv nonce : list Z) (age : Z) : Z :=
  match k with
  | O => age
  | S i => age_loop i recv nonce (age * 256 + (nth i recv 0 - nth i nonce 0))
  end.

(** The same loop, recording every value [*age] takes. *)
Fixpoint age_loop_values (k : nat) (recv nonce : list Z) (age : Z) : list Z :=
  match k with
  | O => []
  | S i =>
      let a1 := age * 256 in
      let a2 := a1 + (nth i recv 0 - nth i nonce 0) in
      a1 :: a2 :: age_loop_values i recv nonce a2
  end.

Definition fits_int64 (x : Z) : Prop := - 2 ^ 63 <= x < 2 ^ 63.

Section Methods.
Variable T : target.

(** [timespec_diff] and [fastd_rand] are declared in [fastd.h], which is not
    part of the sources. *)
Variable timespec_diff : timespec -> timespec -> Z.
Variable fastd_rand : Z -> Z -> Z.

(** [fastd_method_common_init].  [key_refresh] is [unsigned], so
    [key_refresh - fastd_rand(...)] is computed modulo 2^32 before it is added
    to [tv_sec]: a draw larger than [key_refresh] wraps around. *)
Definition fastd_method_common_init (ctx : fastd_context_t) (initiator : bool)
  : fastd_method_common_t :=
  let zero_time := {| tv_sec := 0; tv_nsec := 0 |} in
  let vt := set_tv_sec (now ctx) (tv_sec (now ctx) + key_valid (conf ctx)) in
  let ra := set_tv_sec (now ctx)
              (tv_sec (now ctx)
               + to_u32 (key_refresh (conf ctx)
                         - fastd_rand 0 (key_refresh_splay (conf ctx)))) in
  if initiator then
    {| valid_till := vt; refresh_after := ra;
       send_nonce := set_byte0 zero_nonce 3;
       receive_nonce := zero_nonce;
       receive_last := zero_time;
       receive_reorder_seen := 0 |}
  else
    {| valid_till := vt; refresh_after := ra;
       send_nonce := set_byte0 zero_nonce 2;
       receive_nonce := set_byte0 zero_nonce 1;
       receive_last := zero_time;
       receive_reorder_seen := 0 |}.

(** [fastd_method_is_nonce_valid]; [age0] is the content of [*age] on entry,
    the second component of the result its content on return. *)
Definition fastd_method_is_nonce_valid (ctx : fastd_context_t)
    (session : fastd_method_common_t) (nonce : list Z) (age0 : Z) : bool * Z :=
  if negb (Z.land (nth 0%nat nonce 0) 1
           =? Z.land (nth 0%nat (receive_nonce session) 0) 1)
  then (false, age0)
  else
    let age :=
      Z.quot (age_loop COMMON_NONCEBYTES (receive_nonce session) nonce 0) 2 in
    if 0 <=? age then
      if timespec_diff (now ctx) (receive_last session)
         >? mul_int T (to_int (reorder_time (conf ctx))) 1000
      then (false, age)
      else if age >? reorder_count (conf ctx) then (false, age)
      else (true, age)
    else (true, age).

Definition set_reorder_seen (s : fastd_method_common_t) (seen : Z)
  : fastd_method_common_t :=
  {| valid_till := valid_till s; refresh_after := refresh_after s;
     send_nonce := send_nonce s; receive_nonce := receive_nonce s;
     receive_last := receive_last s; receive_reorder_seen := seen |}.

(** [fastd_method_reorder_check]; the [peer] argument only feeds the debug
    messages and is left out.  The literal [1] has type [int], so both
    [1 >> (age+1)] and [1 << (age-1)] are [int] shifts whose result is then
    converted to [uint64_t]. *)
Definition fastd_method_reorder_check (ctx : fastd_context_t)
    (session : fastd_method_common_t) (nonce : list Z) (age : Z)
  : bool * fastd_method_common_t :=
  if age <? 0 then
    let seen1 := shr_u64 T (receive_reorder_seen session) age in
    let seen2 := Z.lor seen1 (to_u64 (shr_int T 1 (age + 1))) in
    (true,
     {| valid_till := valid_till session;
        refresh_after := refresh_after session;
        send_nonce := send_nonce session;
        receive_nonce := firstn COMMON_NONCEBYTES nonce;
        receive_last := now ctx;
        receive_reorder_seen := seen2 |})
  else if (age =? 0)
          || negb (Z.land (receive_reorder_seen session)
                          (to_u64 (shl_int T 1 (age - 1))) =? 0)
  then (false, session)
  else
    (true,
     set_reorder_seen session
       (Z.lor (receive_reorder_seen session) (to_u64 (shl_int T 1 (age - 1))))).

(** The two checks in the order a method's [decrypt] applies them to the
    nonce of a received packet: the packet is accepted when both accept. *)
Definition nonce_check (ctx : fastd_context_t) (session : fastd_method_common_t)
    (nonce : list Z) : bool * fastd_method_common_t :=
  let '(ok, age) := fastd_method_is_nonce_valid ctx session nonce 0 in
  if ok then fastd_method_reorder_check ctx session nonce age
  else (false, session).

(** A sequence of received packets, each with the clock at its arrival;
    returns the verdicts in order and the final session. *)
Fixpoint nonce_checks (conf0 : fastd_config_t) (session : fastd_method_common_t)
    (pkts : list (timespec * list Z)) : list bool * fastd_method_common_t :=
  match pkts with
  | [] => ([], session)
  | (t, nonce) :: rest =>
      let '(ok, s1) := nonce_check {| now := t; conf := conf0 |} session nonce in
      let '(oks, s2) := nonce_checks conf0 s1 rest in
      (ok :: oks, s2)
  end.

End Methods.

(** *** The two checks as the specification words them *)

(** Nonce validity as specified: matching parity, and either a newer packet
    with the last accepted one within [reorder_time] milliseconds, or a packet
    older by at most [reorder_count] positions. *)
Definition is_nonce_valid_spec (elapsed_ms : Z) (c : fastd_config_t)
    (recv nonce : list Z) : bool :=
  let age := Z.quot (le_value recv - le_value nonce) 2 in
  (Z.land (nth 0%nat nonce 0) 1 =? Z.land (nth 0%nat recv 0) 1)
  && (((age <? 0) && (elapsed_ms <=? reorder_time c))
      || ((0 <=? age) && (age <=? reorder_count c))).

(** The reorder check as specified. *)
Definition reorder_check_spec (ctx : fastd_context_t)
    (session : fastd_method_common_t) (nonce : list Z) (age : Z)
  : bool * fastd_method_common_t :=
  if age <? 0 then
    (true,
     {| valid_till := valid_till session;
        refresh_after := refresh_after session;
        send_nonce := send_nonce session;
        receive_nonce := firstn COMMON_NONCEBYTES nonce;
        receive_last := now ctx;
        receive_reorder_seen :=
          Z.lor (Z.shiftr (receive_reorder_seen session) (- age)) 1 |})
  else if (age =? 0) || Z.testbit (receive_reorder_seen session) (age - 1)
  then (false, session)
  else
    (true,
     set_reorder_seen session
       (Z.setbit (receive_reorder_seen session) (age - 1))).

(** *** Concrete instances used to evaluate the code *)

(** Milliseconds between two instants, the unit the configuration table
    gives for [reorder_time]. *)
Definition timespec_diff_ms (a b : timespec) : Z :=
  (tv_sec a - tv_sec b) * 1000 + Z.quot (tv_nsec a - tv_nsec b) 1000000.

Definition at_sec (s : Z) : timespec := {| tv_sec := s; tv_nsec := 0 |}.

(** fastd's defaults: sessions valid for an hour, reorder window of 64
    packets and 10 seconds. *)
Definition default_conf : fastd_config_t :=
  {| key_valid := 3600; key_refresh := 3300; key_refresh_splay := 300;
     reorder_time := 10; reorder_count := 64 |}.

(** The nonce whose little-endian value is [v]. *)
Definition nonce_of (v : Z) : list Z :=
  [v mod 256; (v / 256) mod 256; (v / 256 ^ 2) mod 256;
   (v / 256 ^ 3) mod 256; (v / 256 ^ 4) mod 256; (v / 256 ^ 5) mod 256].

(** A responder's session that last accepted the nonce of value [recv] at
    [last], with the window [seen]. *)
Definition session_at (recv : Z) (last : timespec) (seen : Z)
  : fastd_method_common_t :=
  {| valid_till := at_sec 3700; refresh_after := at_sec 3400;
     send_nonce := nonce_of 2; receive_nonce := nonce_of recv;
     receive_last := last; receive_reorder_seen := seen |}.

Definition ctx_at (t : timespec) : fastd_context_t :=
  {| now := t; conf := default_conf |}.

End Common.

(** ** The ec25519-fhmqvc protocol handler *)

Module Protocol.

Definition PUBLICKEYBYTES : nat := 32.
Definition SECRETKEYBYTES : nat := 32.
(** [crypto_hash_sha256_BYTES]; the source checks at compile time that it
    equals [SECRETKEYBYTES]. *)
Definition HASHBYTES : nat := 32.
(** Modelled from the spec: [crypto_auth_hmacsha256_BYTES] comes from the
    NaCl headers, which are not part of the sources; the authenticator tag T
    has length 32. *)
Definition HMACBYTES : nat := 32.

Record timespec : Type := { tv_sec : Z; tv_nsec : Z }.

(** A peer address is only compared and passed on. *)
Definition fastd_peer_address : Type := Z.

(** [fastd_buffer]: [base] identifies the allocation, [len] is the length of
    [data]. *)
Record fastd_buffer : Type := { base : nat; data : list Z }.

Definition len (b : fastd_buffer) : Z := Z.of_nat (length (data b)).

Definition buffer_eqb (a b : fastd_buffer) : bool :=
  Nat.eqb (base a) (base b)
  && if list_eq_dec Z.eq_dec (data a) (data b) then true else false.

(** The record types of a handshake packet; the protocol binds its five
    slots as the source does. *)
Inductive fastd_handshake_record_type : Type :=
| RECORD_HANDSHAKE_TYPE
| RECORD_REPLY_CODE
| RECORD_ERROR_DETAIL
| RECORD_FLAGS
| RECORD_MODE
| RECORD_PROTOCOL_NAME
| RECORD_PROTOCOL1
| RECORD_PROTOCOL2
| RECORD_PROTOCOL3
| RECORD_PROTOCOL4
| RECORD_PROTOCOL5.

Definition RECORD_SENDER_KEY := RECORD_PROTOCOL1.
Definition RECORD_RECEIPIENT_KEY := RECORD_PROTOCOL2.
Definition RECORD_SENDER_HANDSHAKE_KEY := RECORD_PROTOCOL3.
Definition RECORD_RECEIPIENT_HANDSHAKE_KEY := RECORD_PROTOCOL4.
Definition RECORD_T := RECORD_PROTOCOL5.

(** One parsed record: its length field and the bytes [data] points to. *)
Record fastd_handshake_record : Type := {
  rec_length : Z;
  rec_data : list Z
}.

(** A parsed handshake: [hs_type] is the [type] field. *)
Record fastd_handshake : Type := {
  req_id : Z;
  hs_type : Z;
  records : fastd_handshake_record_type -> fastd_handshake_record
}.

Inductive session_slot : Type := OldSession | CurrentSession.

(** Calls into libuecc, NaCl and the random source. *)
Inductive crypto_call : Type :=
| RandomBytes
| SecretSanitize
| ScalarmultBase
| Scalarmult
| PointAdd
| PointLoad
| PointStore
| IsIdentity
| SecretMult
| SecretAdd
| HashSha256
| AuthHmacSha256
| AuthHmacSha256Verify.

(** The handshake packets handed to [fastd_send_handshake]. *)
Inductive handshake_packet : Type :=
| HandshakeInit (recs : list (fastd_handshake_record_type * list Z))
| HandshakeReply (to : fastd_handshake)
                 (recs : list (fastd_handshake_record_type * list Z)).

(** The calls the handler makes into the rest of the daemon, in order. *)
Inductive event : Type :=
| EvBufferAlloc (b : fastd_buffer)
| EvBufferFree (b : fastd_buffer)
| EvHandleReceive (b : fastd_buffer)
| EvSend (a : fastd_peer_address) (b : fastd_buffer)
| EvSendHandshake (a : fastd_peer_address) (p : handshake_packet)
| EvDecrypt (s : session_slot) (b : fastd_buffer) (out : option fastd_buffer)
| EvEncrypt (s : session_slot) (b : fastd_buffer) (out : option fastd_buffer)
| EvSessionInit (secret : list Z) (initiator : bool)
| EvSessionFree (s : session_slot) (nonnull : bool)
| EvScheduleHandshake (delay : Z)
| EvDeletePeerHandshakes
| EvDeletePeerKeepalives
| EvScheduleKeepalive (ms : Z)
| EvPeerSeen
| EvClaimAddress (a : fastd_peer_address) (ok : bool)
| EvPeerReset
| EvSetEstablished
| EvResolvePeer (conf_id : nat)
| EvCrypto (c : crypto_call).

Record fastd_protocol_config : Type := {
  secret_key : list Z;
  public_key : list Z
}.

Record handshake_key : Type := {
  preferred_till : timespec;
  valid_till : timespec;
  hk_secret_key : list Z;
  hk_public_key : list Z
}.

Record fastd_protocol_state : Type := {
  prev_handshake_key : handshake_key;
  cur_handshake_key : handshake_key
}.

(** A peer's configuration: [conf_id] stands for the address of the
    structure (configurations are compared by pointer), [peer_public_key] for
    [protocol_config->public_key]. *)
Record fastd_peer_config : Type := {
  conf_id : nat;
  peer_public_key : list Z
}.

Record fastd_config : Type := {
  protocol_config : fastd_protocol_config;
  keepalive_interval : Z;
  conf_peers : list fastd_peer_config
}.

(** [fastd_context]: besides the fields of the source, the calls made so far
    and the counters that name fresh buffers and random draws. *)
Record fastd_context : Type := {
  now : timespec;
  conf : fastd_config;
  protocol_state : option fastd_protocol_state;
  trace : list event;
  buffers_allocated : nat;
  random_draws : nat
}.

Definition emit (e : event) (ctx : fastd_context) : fastd_context :=
  {| now := now ctx; conf := conf ctx; protocol_state := protocol_state ctx;
     trace := trace ctx ++ [e];
     buffers_allocated := buffers_allocated ctx;
     random_draws := random_draws ctx |}.

Definition emits (es : list event) (ctx : fastd_context) : fastd_context :=
  {| now := now ctx; conf := conf ctx; protocol_state := protocol_state ctx;
     trace := trace ctx ++ es;
     buffers_allocated := buffers_allocated ctx;
     random_draws := random_draws ctx |}.

Definition set_protocol_state (ctx : fastd_context)
    (st : fastd_protocol_state) : fastd_context :=
  {| now := now ctx; conf := conf ctx; protocol_state := Some st;
     trace := trace ctx;
     buffers_allocated := buffers_allocated ctx;
     random_draws := random_draws ctx |}.

(** [fastd_buffer_alloc(0, head_space, 0)]: a fresh buffer of length 0. *)
Definition fastd_buffer_alloc (ctx : fastd_context)
  : fastd_context * fastd_buffer :=
  let b := {| base := buffers_allocated ctx; data := [] |} in
  ({| now := now ctx; conf := conf ctx; protocol_state := protocol_state ctx;
      trace := trace ctx ++ [EvBufferAlloc b];
      buffers_allocated := S (buffers_allocated ctx);
      random_draws := random_draws ctx |}, b).

(** [memcmp(a, b, n) == 0]. *)
Definition memcmp_eq (a b : list Z) (n : nat) : bool :=
  if list_eq_dec Z.eq_dec (firstn n a) (firstn n b) then true else false.

(** [memcpy] of one key into the hash input. *)
Definition key_bytes (k : list Z) : list Z := firstn PUBLICKEYBYTES k.

(** *** What the handler calls but does not define *)

(** The method in use ([ctx->conf->method], a table of function pointers).
    [M] is the method's session state; a pointer to it may be [NULL], hence
    [option M].  Modelled from the spec: the methods are not part of the
    sources; [encrypt] and [decrypt] return the output buffer or fail, on
    success the input buffer has passed to the method (which has freed it or
    returned it as the output), on failure it stays with the caller. *)
Record fastd_method (M : Type) : Type := {
  min_encrypt_head_space : Z;
  session_init : timespec -> list Z -> bool -> option M;
  session_is_valid : timespec -> option M -> bool;
  session_is_initiator : timespec -> option M -> bool;
  session_want_refresh : timespec -> option M -> bool;
  encrypt : timespec -> option M -> fastd_buffer -> option M * option fastd_buffer;
  decrypt : timespec -> option M -> fastd_buffer -> option M * option fastd_buffer
}.

Arguments min_encrypt_head_space {M}.
Arguments session_init {M}.
Arguments session_is_valid {M}.
Arguments session_is_initiator {M}.
Arguments session_want_refresh {M}.
Arguments encrypt {M}.
Arguments decrypt {M}.

(** An unpacked curve point ([ecc_25519_work]), as the words it holds. *)
Definition ecc_25519_work : Type := list Z.

(** libuecc, NaCl's SHA-256 and HMAC-SHA-256, and the random source. *)
Record crypto_lib : Type := {
  fastd_random_bytes : nat -> list Z;
  ecc_25519_secret_sanitize : list Z -> list Z;
  ecc_25519_secret_mult : list Z -> list Z -> list Z;
  ecc_25519_secret_add : list Z -> list Z -> list Z;
  ecc_25519_scalarmult_base : list Z -> ecc_25519_work;
  ecc_25519_scalarmult : list Z -> ecc_25519_work -> ecc_25519_work;
  ecc_25519_add : ecc_25519_work -> ecc_25519_work -> ecc_25519_work;
  ecc_25519_load : list Z -> ecc_25519_work;
  ecc_25519_store : ecc_25519_work -> list Z;
  ecc_25519_is_identity : ecc_25519_work -> bool;
  crypto_hash_sha256 : list Z -> list Z;
  crypto_auth_hmacsha256 : list Z -> list Z -> list Z;
  crypto_auth_hmacsha256_verify : list Z -> list Z -> list Z -> Z
}.

Section PeerState.
Context {M : Type}.

Record protocol_session : Type := {
  handshakes_cleaned : bool;
  refreshing : bool;
  method_state : option M
}.

Record fastd_protocol_peer_state : Type := {
  old_session : protocol_session;
  session : protocol_session
}.

(** [fastd_peer]: the fields the handler reads.  Modelled from the spec:
    [peer.h] is not part of the sources; [established] is the
    established / not-established mark kept by the peer glue. *)
Record fastd_peer : Type := {
  config : fastd_peer_config;
  address : fastd_peer_address;
  established : bool;
  peer_protocol_state : option fastd_protocol_peer_state
}.

End PeerState.

Arguments protocol_session : clear implicits.
Arguments fastd_protocol_peer_state : clear implicits.
Arguments fastd_peer : clear implicits.

(** Everything else the handler relies on: [timespec_after] from [fastd.h],
    the peer glue of [peer.c], and the configuration predicates.
    [fastd_peer_claim_address] is given the peers of the context and the peer
    to bind, and returns its verdict and that peer; [fastd_peer_reset] acts
    on the peer it is given.  What the glue does to any other peer (one that
    held the claimed address before) is not represented: the statements
    about [establish] describe the peer it was called for. *)
Record environment (M : Type) : Type := {
  method : fastd_method M;
  crypto : crypto_lib;
  timespec_after : timespec -> timespec -> bool;
  fastd_peer_claim_address :
    list (fastd_peer M) -> fastd_peer M -> fastd_peer_address
    -> bool * fastd_peer M;
  fastd_peer_reset : fastd_peer M -> fastd_peer M;
  fastd_peer_config_is_floating : fastd_peer_config -> bool;
  fastd_peer_config_is_dynamic : fastd_peer_config -> bool;
  fastd_peer_config_matches_dynamic :
    fastd_peer_config -> fastd_peer_address -> bool
}.

Arguments method {M}.
Arguments crypto {M}.
Arguments timespec_after {M}.
Arguments fastd_peer_claim_address {M}.
Arguments fastd_peer_reset {M}.
Arguments fastd_peer_config_is_floating {M}.
Arguments fastd_peer_config_is_dynamic {M}.
Arguments fastd_peer_config_matches_dynamic {M}.

Section Handler.
Context {M : Type}.
Variable E : environment M.

(** A pointer is not [NULL]. *)
Definition is_set (m : option M) : bool :=
  match m with
  | Some _ => true
  | None => false
  end.

Definition zero_session : protocol_session M :=
  {| handshakes_cleaned := false; refreshing := false; method_state := None |}.

Definition set_established (p : fastd_peer M) (b : bool) : fastd_peer M :=
  {| config := config p; address := address p; established := b;
     peer_protocol_state := peer_protocol_state p |}.

Definition set_peer_state (p : fastd_peer M)
    (ps : fastd_protocol_peer_state M) : fastd_peer M :=
  {| config := config p; address := address p; established := established p;
     peer_protocol_state := Some ps |}.

Definition set_method_state (s : protocol_session M) (m : option M)
  : protocol_session M :=
  {| handshakes_cleaned := handshakes_cleaned s; refreshing := refreshing s;
     method_state := m |}.

Definition set_refreshing (s : protocol_session M) (b : bool)
  : protocol_session M :=
  {| handshakes_cleaned := handshakes_cleaned s; refreshing := b;
     method_state := method_state s |}.

Definition set_handshakes_cleaned (s : protocol_session M) (b : bool)
  : protocol_session M :=
  {| handshakes_cleaned := b; refreshing := refreshing s;
     method_state := method_state s |}.

Definition get_slot (ps : fastd_protocol_peer_state M) (s : session_slot)
  : protocol_session M :=
  match s with
  | OldSession => old_session ps
  | CurrentSession => session ps
  end.

Definition set_slot (ps : fastd_protocol_peer_state M) (s : session_slot)
    (v : protocol_session M) : fastd_protocol_peer_state M :=
  match s with
  | OldSession => {| old_session := v; session := session ps |}
  | CurrentSession => {| old_session := old_session ps; session := v |}
  end.

Definition fastd_peer_is_established (peer : fastd_peer M) : bool :=
  established peer.

Definition is_handshake_key_valid (ctx : fastd_context) (k : handshake_key)
  : bool :=
  timespec_after E (valid_till k) (now ctx).

Definition is_handshake_key_preferred (ctx : fastd_context) (k : handshake_key)
  : bool :=
  timespec_after E (preferred_till k) (now ctx).

Definition is_session_valid (ctx : fastd_context) (s : protocol_session M)
  : bool :=
  session_is_valid (method E) (now ctx) (method_state s).

Definition check_session_refresh (ctx : fastd_context)
    (ps : fastd_protocol_peer_state M)
  : fastd_context * fastd_protocol_peer_state M :=
  if negb (refreshing (session ps))
     && session_is_initiator (method E) (now ctx) (method_state (session ps))
     && session_want_refresh (method E) (now ctx) (method_state (session ps))
  then (emit (EvScheduleHandshake 0) ctx,
        set_slot ps CurrentSession (set_refreshing (session ps) true))
  else (ctx, ps).

(** [init_peer_state]: allocate the zeroed protocol state if there is none. *)
Definition init_peer_state (peer : fastd_peer M) : fastd_protocol_peer_state M :=
  match peer_protocol_state peer with
  | Some ps => ps
  | None => {| old_session := zero_session; session := zero_session |}
  end.

Definition zero_time : timespec := {| tv_sec := 0; tv_nsec := 0 |}.

Definition zero_handshake_key : handshake_key :=
  {| preferred_till := zero_time; valid_till := zero_time;
     hk_secret_key := repeat 0 SECRETKEYBYTES;
     hk_public_key := repeat 0 PUBLICKEYBYTES |}.

Definition add_sec (t : timespec) (s : Z) : timespec :=
  {| tv_sec := tv_sec t + s; tv_nsec := tv_nsec t |}.

(** [maintenance]: create the handshake-key pool if needed and rotate it
    when the current key is no longer preferred. *)
Definition maintenance (ctx : fastd_context) : fastd_context :=
  let st :=
    match protocol_state ctx with
    | Some st => st
    | None => {| prev_handshake_key := zero_handshake_key;
                 cur_handshake_key := zero_handshake_key |}
    end in
  if negb (is_handshake_key_preferred ctx (cur_handshake_key st)) then
    let random := fastd_random_bytes (crypto E) (random_draws ctx) in
    let secret := ecc_25519_secret_sanitize (crypto E) random in
    let work := ecc_25519_scalarmult_base (crypto E) secret in
    let public := ecc_25519_store (crypto E) work in
    {| now := now ctx; conf := conf ctx;
       protocol_state :=
         Some {| prev_handshake_key := cur_handshake_key st;
                 cur_handshake_key :=
                   {| preferred_till := add_sec (now ctx) 15;
                      valid_till := add_sec (now ctx) 30;
                      hk_secret_key := secret;
                      hk_public_key := public |} |};
       trace := trace ctx ++ [EvCrypto RandomBytes; EvCrypto SecretSanitize;
                              EvCrypto ScalarmultBase; EvCrypto PointStore];
       buffers_allocated := buffers_allocated ctx;
       random_draws := S (random_draws ctx) |}
  else set_protocol_state ctx st.

(** [protocol_send].  [keepalive_interval] is [unsigned]: the product
    [keepalive_interval*1000] is taken modulo 2^32 and then converted to the
    [int] parameter of [fastd_task_schedule_keepalive]. *)
Definition protocol_send (ctx : fastd_context) (peer : fastd_peer M)
    (buffer : fastd_buffer) : fastd_context * fastd_peer M :=
  match peer_protocol_state peer with
  | None => (emit (EvBufferFree buffer) ctx, peer)
  | Some ps =>
      if negb (is_session_valid ctx (session ps))
      then (emit (EvBufferFree buffer) ctx, peer)
      else
        let '(ctx1, ps1) := check_session_refresh ctx ps in
        let slot :=
          if session_is_initiator (method E) (now ctx1)
               (method_state (session ps1))
             && is_session_valid ctx1 (old_session ps1)
          then OldSession else CurrentSession in
        let '(m, out) :=
          encrypt (method E) (now ctx1) (method_state (get_slot ps1 slot))
                  buffer in
        let ps2 := set_slot ps1 slot (set_method_state (get_slot ps1 slot) m) in
        let ctx2 := emit (EvEncrypt slot buffer out) ctx1 in
        match out with
        | None => (emit (EvBufferFree buffer) ctx2, set_peer_state peer ps2)
        | Some send_buffer =>
            (emits [EvSend (address peer) send_buffer;
                    EvDeletePeerKeepalives;
                    EvScheduleKeepalive
                      (to_int (to_u32 (keepalive_interval (conf ctx2) * 1000)))]
                   ctx2,
             set_peer_state peer ps2)
        end
  end.

(** The part of [protocol_handle_recv] that follows a successful decrypt
    with the current session (the body of the inner [if]). *)
Definition current_session_confirmed (ctx : fastd_context)
    (peer : fastd_peer M) (ps : fastd_protocol_peer_state M)
  : fastd_context * fastd_peer M :=
  let '(ctx1, peer1) :=
    if negb (handshakes_cleaned (session ps)) then
      let ctx' := emit EvDeletePeerHandshakes ctx in
      let ps' :=
        set_slot ps CurrentSession (set_handshakes_cleaned (session ps) true) in
      let peer' := set_peer_state peer ps' in
      if session_is_initiator (method E) (now ctx')
           (method_state (session ps'))
      then
        let '(ctx'', b) := fastd_buffer_alloc ctx' in
        protocol_send ctx'' peer' b
      else (ctx', peer')
    else (ctx, set_peer_state peer ps) in
  match peer_protocol_state peer1 with
  | None => (ctx1, peer1)
  | Some ps1 =>
      let '(ctx2, ps2) :=
        match method_state (old_session ps1) with
        | Some _ =>
            (emit (EvSessionFree OldSession true) ctx1,
             set_slot ps1 OldSession (set_method_state (old_session ps1) None))
        | None => (ctx1, ps1)
        end in
      let '(ctx3, ps3) := check_session_refresh ctx2 ps2 in
      (ctx3, set_peer_state peer1 ps3)
  end.

(** [protocol_handle_recv] *)
Definition protocol_handle_recv (ctx : fastd_context) (peer : fastd_peer M)
    (buffer : fastd_buffer) : fastd_context * fastd_peer M :=
  if negb (fastd_peer_is_established peer) then
    (emits [EvScheduleHandshake 0; EvBufferFree buffer] ctx, peer)
  else
    match peer_protocol_state peer with
    | None => (emit (EvBufferFree buffer) ctx, peer)
    | Some ps =>
        if negb (is_session_valid ctx (session ps))
        then (emit (EvBufferFree buffer) ctx, peer)
        else
          (* try the old session *)
          let '(ctx1, ps1, recv1) :=
            if is_session_valid ctx (old_session ps) then
              let '(m, out) :=
                decrypt (method E) (now ctx) (method_state (old_session ps))
                        buffer in
              (emit (EvDecrypt OldSession buffer out) ctx,
               set_slot ps OldSession (set_method_state (old_session ps) m),
               out)
            else (ctx, ps, None) in
          (* then the current one *)
          let '(ctx2, peer2, recv2) :=
            match recv1 with
            | Some _ => (ctx1, set_peer_state peer ps1, recv1)
            | None =>
                let '(m, out) :=
                  decrypt (method E) (now ctx1) (method_state (session ps1))
                          buffer in
                let ctx' := emit (EvDecrypt CurrentSession buffer out) ctx1 in
                let ps' :=
                  set_slot ps1 CurrentSession
                           (set_method_state (session ps1) m) in
                match out with
                | Some _ =>
                    let '(c, p) :=
                      current_session_confirmed ctx' (set_peer_state peer ps')
                                                ps' in
                    (c, p, out)
                | None => (ctx', set_peer_state peer ps', None)
                end
            end in
          match recv2 with
          | None => (emit (EvBufferFree buffer) ctx2, peer2)
          | Some recv_buffer =>
              let ctx3 := emit EvPeerSeen ctx2 in
              if negb (len recv_buffer =? 0)
              then (emit (EvHandleReceive recv_buffer) ctx3, peer2)
              else (emit (EvBufferFree recv_buffer) ctx3, peer2)
          end
    end.

(** The loop at the head of [establish]: the first peer whose [config] is
    [peer_conf], with the peers before and after it. *)
Fixpoint find_peer (peers : list (fastd_peer M)) (peer_conf : fastd_peer_config)
  : option (list (fastd_peer M) * fastd_peer M * list (fastd_peer M)) :=
  match peers with
  | [] => None
  | peer :: rest =>
      if Nat.eqb (conf_id (config peer)) (conf_id peer_conf)
      then Some ([], peer, rest)
      else
        match find_peer rest peer_conf with
        | Some (before, p, after) => Some (peer :: before, p, after)
        | None => None
        end
  end.

(** The 5*32 bytes [establish] hashes, in the order of its [memcpy]s. *)
Definition establish_hashinput (A B X Y sigma : list Z) : list Z :=
  key_bytes X ++ key_bytes Y ++ key_bytes A ++ key_bytes B ++ key_bytes sigma.

(** [establish]; the parameters keep the names and the order of the source:
    [A], [B], [X], [Y], [sigma].  [None] is [exit_bug]. *)
Definition establish (ctx : fastd_context) (peers : list (fastd_peer M))
    (peer_conf : fastd_peer_config) (addr : fastd_peer_address)
    (initiator : bool) (A B X Y sigma : list Z)
  : option (fastd_context * list (fastd_peer M)) :=
  match find_peer peers peer_conf with
  | None => None
  | Some (before, peer, after) =>
      let ps := init_peer_state peer in
      let '(ctx1, ps1) :=
        if is_session_valid ctx (session ps)
           && negb (is_session_valid ctx (old_session ps))
        then
          (emit (EvSessionFree OldSession
                   (is_set (method_state (old_session ps)))) ctx,
           {| old_session := session ps; session := session ps |})
        else
          (emit (EvSessionFree CurrentSession
                   (is_set (method_state (session ps)))) ctx,
           ps) in
      let hash :=
        crypto_hash_sha256 (crypto E) (establish_hashinput A B X Y sigma) in
      let ctx2 := emit (EvCrypto HashSha256) ctx1 in
      let ps2 :=
        {| old_session := old_session ps1;
           session :=
             {| handshakes_cleaned := false; refreshing := false;
                method_state :=
                  session_init (method E) (now ctx2) hash initiator |} |} in
      let ctx3 := emits [EvSessionInit hash initiator; EvPeerSeen] ctx2 in
      let peer3 := set_peer_state peer ps2 in
      let '(claimed, peer4) :=
        fastd_peer_claim_address E (before ++ peer3 :: after) peer3 addr in
      let ctx4 := emit (EvClaimAddress addr claimed) ctx3 in
      if negb claimed then
        Some (emit EvPeerReset ctx4,
              before ++ fastd_peer_reset E peer4 :: after)
      else
        let peer5 := set_established peer4 true in
        let ctx5 :=
          emits [EvSetEstablished;
                 EvScheduleKeepalive
                   (to_int (to_u32 (keepalive_interval (conf ctx4) * 1000)))]
                ctx4 in
        if negb initiator then
          let '(ctx6, b) := fastd_buffer_alloc ctx5 in
          let '(ctx7, peer7) := protocol_send ctx6 peer5 b in
          Some (ctx7, before ++ peer7 :: after)
        else Some (ctx5, before ++ peer5 :: after)
  end.

(** [d.s] and [e.s]: one half of the hash, the top bit of byte 15 set, the
    upper 16 bytes zero. *)
Definition half_scalar (h : list Z) : list Z :=
  firstn 15 h ++ [Z.lor (nth 15%nat h 0) 128] ++ repeat 0 16.

Definition hash_low (h : list Z) : list Z := firstn 16 h.
Definition hash_high (h : list Z) : list Z := firstn 16 (skipn 16 h).

(** [ctx->conf->protocol_config->public_key.p] and [secret_key]. *)
Definition local_pub (ctx : fastd_context) : list Z :=
  public_key (protocol_config (conf ctx)).

Definition local_secret (ctx : fastd_context) : list Z :=
  secret_key (protocol_config (conf ctx)).

(** The point [work] after the three curve operations of [respond_handshake]
    and [handle_finish_handshake] (the responder's side): [s (d A + X)] with
    [s = e b + y], from [hashbuf], the hash of the first four keys of
    [hashinput]. *)
Definition responder_point (ctx : fastd_context) (peer_conf : fastd_peer_config)
    (hkey : handshake_key) (peer_handshake_key : list Z) (hashbuf : list Z)
  : ecc_25519_work :=
  let C := crypto E in
  let d := half_scalar (hash_low hashbuf) in
  let e := half_scalar (hash_high hashbuf) in
  let eb := ecc_25519_secret_mult C e (local_secret ctx) in
  let s := ecc_25519_secret_add C eb (hk_secret_key hkey) in
  let work := ecc_25519_load C (peer_public_key peer_conf) in
  let workX := ecc_25519_load C peer_handshake_key in
  let work := ecc_25519_scalarmult C d work in
  let work := ecc_25519_add C workX work in
  ecc_25519_scalarmult C s work.

(** The same for [finish_handshake] (the initiator's side): [s (e B + Y)]
    with [s = d a + x]. *)
Definition initiator_point (ctx : fastd_context) (peer_conf : fastd_peer_config)
    (hkey : handshake_key) (peer_handshake_key : list Z) (hashbuf : list Z)
  : ecc_25519_work :=
  let C := crypto E in
  let d := half_scalar (hash_low hashbuf) in
  let e := half_scalar (hash_high hashbuf) in
  let da := ecc_25519_secret_mult C d (local_secret ctx) in
  let s := ecc_25519_secret_add C da (hk_secret_key hkey) in
  let work := ecc_25519_load C (peer_public_key peer_conf) in
  let workY := ecc_25519_load C peer_handshake_key in
  let work := ecc_25519_scalarmult C e work in
  let work := ecc_25519_add C workY work in
  ecc_25519_scalarmult C s work.

(** The first four keys of [hashinput] on the responder's side (own
    handshake key first) and on the initiator's (peer's handshake key
    first). *)
Definition responder_hashinput (ctx : fastd_context)
    (peer_conf : fastd_peer_config) (hkey : handshake_key)
    (peer_handshake_key : list Z) : list Z :=
  key_bytes (hk_public_key hkey) ++ key_bytes peer_handshake_key
  ++ key_bytes (local_pub ctx) ++ key_bytes (peer_public_key peer_conf).

Definition initiator_hashinput (ctx : fastd_context)
    (peer_conf : fastd_peer_config) (hkey : handshake_key)
    (peer_handshake_key : list Z) : list Z :=
  key_bytes peer_handshake_key ++ key_bytes (hk_public_key hkey)
  ++ key_bytes (peer_public_key peer_conf) ++ key_bytes (local_pub ctx).

(** [respond_handshake] *)
Definition respond_handshake (ctx : fastd_context) (addr : fastd_peer_address)
    (peer_conf : fastd_peer_config) (hkey : handshake_key)
    (peer_handshake_key : list Z) (handshake : fastd_handshake)
  : fastd_context :=
  let C := crypto E in
  let hashinput := responder_hashinput ctx peer_conf hkey peer_handshake_key in
  let hashbuf := crypto_hash_sha256 C hashinput in
  let work := responder_point ctx peer_conf hkey peer_handshake_key hashbuf in
  let ctx1 :=
    emits (map EvCrypto [HashSha256; SecretMult; SecretAdd; PointLoad;
                         PointLoad; Scalarmult; PointAdd; Scalarmult;
                         IsIdentity]) ctx in
  if ecc_25519_is_identity C work then ctx1
  else
    let sigma := ecc_25519_store C work in
    let shared_handshake_key :=
      crypto_hash_sha256 C (hashinput ++ key_bytes sigma) in
    let hmacbuf :=
      crypto_auth_hmacsha256 C
        (key_bytes (local_pub ctx) ++ key_bytes (hk_public_key hkey))
        shared_handshake_key in
    emits (map EvCrypto [PointStore; HashSha256; AuthHmacSha256]
           ++ [EvSendHandshake addr
                 (HandshakeReply handshake
                    [(RECORD_SENDER_KEY, key_bytes (local_pub ctx));
                     (RECORD_RECEIPIENT_KEY, key_bytes (peer_public_key peer_conf));
                     (RECORD_SENDER_HANDSHAKE_KEY, key_bytes (hk_public_key hkey));
                     (RECORD_RECEIPIENT_HANDSHAKE_KEY,
                      key_bytes peer_handshake_key);
                     (RECORD_T, hmacbuf)])])
          ctx1.

(** [finish_handshake] *)
Definition finish_handshake (ctx : fastd_context) (peers : list (fastd_peer M))
    (addr : fastd_peer_address) (peer_conf : fastd_peer_config)
    (hkey : handshake_key) (peer_handshake_key : list Z)
    (handshake : fastd_handshake)
  : option (fastd_context * list (fastd_peer M)) :=
  let C := crypto E in
  let hashinput := initiator_hashinput ctx peer_conf hkey peer_handshake_key in
  let hashbuf := crypto_hash_sha256 C hashinput in
  let work := initiator_point ctx peer_conf hkey peer_handshake_key hashbuf in
  let ctx1 :=
    emits (map EvCrypto [HashSha256; SecretMult; SecretAdd; PointLoad;
                         PointLoad; Scalarmult; PointAdd; Scalarmult;
                         IsIdentity]) ctx in
  if ecc_25519_is_identity C work then Some (ctx1, peers)
  else
    let sigma := ecc_25519_store C work in
    let shared_handshake_key :=
      crypto_hash_sha256 C (hashinput ++ key_bytes sigma) in
    let ctx2 :=
      emits (map EvCrypto [PointStore; HashSha256; AuthHmacSha256Verify])
            ctx1 in
    if negb (crypto_auth_hmacsha256_verify C
               (rec_data (records handshake RECORD_T))
               (key_bytes (peer_public_key peer_conf)
                ++ key_bytes peer_handshake_key)
               shared_handshake_key =? 0)
    then Some (ctx2, peers)
    else
      let hmacbuf :=
        crypto_auth_hmacsha256 C
          (key_bytes (local_pub ctx) ++ key_bytes (hk_public_key hkey))
          shared_handshake_key in
      let ctx3 :=
        emits [EvCrypto AuthHmacSha256;
               EvSendHandshake addr
                 (HandshakeReply handshake
                    [(RECORD_SENDER_KEY, key_bytes (local_pub ctx));
                     (RECORD_RECEIPIENT_KEY, key_bytes (peer_public_key peer_conf));
                     (RECORD_SENDER_HANDSHAKE_KEY, key_bytes (hk_public_key hkey));
                     (RECORD_RECEIPIENT_HANDSHAKE_KEY,
                      key_bytes peer_handshake_key);
                     (RECORD_T, hmacbuf)])]
              ctx2 in
      establish ctx3 peers peer_conf addr true
                (hk_public_key hkey) peer_handshake_key
                (local_pub ctx) (peer_public_key peer_conf) sigma.

(** [handle_finish_handshake] *)
Definition handle_finish_handshake (ctx : fastd_context)
    (peers : list (fastd_peer M)) (addr : fastd_peer_address)
    (peer_conf : fastd_peer_config) (hkey : handshake_key)
    (peer_handshake_key : list Z) (handshake : fastd_handshake)
  : option (fastd_context * list (fastd_peer M)) :=
  let C := crypto E in
  let hashinput := responder_hashinput ctx peer_conf hkey peer_handshake_key in
  let hashbuf := crypto_hash_sha256 C hashinput in
  let work := responder_point ctx peer_conf hkey peer_handshake_key hashbuf in
  let ctx1 :=
    emits (map EvCrypto [HashSha256; SecretMult; SecretAdd; PointLoad;
                         PointLoad; Scalarmult; PointAdd; Scalarmult;
                         IsIdentity]) ctx in
  if ecc_25519_is_identity C work then Some (ctx1, peers)
  else
    let sigma := ecc_25519_store C work in
    let shared_handshake_key :=
      crypto_hash_sha256 C (hashinput ++ key_bytes sigma) in
    let ctx2 :=
      emits (map EvCrypto [PointStore; HashSha256; AuthHmacSha256Verify])
            ctx1 in
    if negb (crypto_auth_hmacsha256_verify C
               (rec_data (records handshake RECORD_T))
               (key_bytes (peer_public_key peer_conf)
                ++ key_bytes peer_handshake_key)
               shared_handshake_key =? 0)
    then Some (ctx2, peers)
    else
      establish ctx2 peers peer_conf addr false
                peer_handshake_key (hk_public_key hkey)
                (peer_public_key peer_conf) (local_pub ctx) sigma.

(** The loop of [match_sender_key] over [ctx->conf->peers]. *)
Fixpoint match_sender_key_loop (ctx : fastd_context) (addr : fastd_peer_address)
    (configs : list fastd_peer_config) (key : list Z)
  : fastd_context * option fastd_peer_config :=
  match configs with
  | [] => (ctx, None)
  | config :: rest =>
      if negb (fastd_peer_config_is_floating E config)
         && negb (fastd_peer_config_matches_dynamic E config addr)
      then match_sender_key_loop ctx addr rest key
      else if memcmp_eq (peer_public_key config) key PUBLICKEYBYTES then
        if fastd_peer_config_is_floating E config then (ctx, Some config)
        else (emit (EvResolvePeer (conf_id config)) ctx, None)
      else match_sender_key_loop ctx addr rest key
  end.

(** [match_sender_key] *)
Definition match_sender_key (ctx : fastd_context) (addr : fastd_peer_address)
    (peer_conf : option fastd_peer_config) (key : list Z)
  : fastd_context * option fastd_peer_config :=
  let scan :=
    match peer_conf with
    | None => true
    | Some pc => fastd_peer_config_is_floating E pc
                 || fastd_peer_config_is_dynamic E pc
    end in
  match peer_conf with
  | Some pc =>
      if memcmp_eq (peer_public_key pc) key PUBLICKEYBYTES then (ctx, Some pc)
      else if scan
           then match_sender_key_loop ctx addr (conf_peers (conf ctx)) key
           else (ctx, None)
  | None => match_sender_key_loop ctx addr (conf_peers (conf ctx)) key
  end.

Definition has_field (handshake : fastd_handshake)
    (type : fastd_handshake_record_type) (length : nat) : bool :=
  rec_length (records handshake type) =? Z.of_nat length.


(** The choice of the local handshake key in cases 2 and 3 of
    [protocol_handshake_handle]: the current key if it is valid and its public
    half is the received recipient handshake key, else the previous one under
    the same test. *)
Definition select_handshake_key (ctx : fastd_context)
    (st : fastd_protocol_state) (handshake : fastd_handshake)
  : option handshake_key :=
  let received :=
    rec_data (records handshake RECORD_RECEIPIENT_HANDSHAKE_KEY) in
  if is_handshake_key_valid ctx (cur_handshake_key st)
     && memcmp_eq (hk_public_key (cur_handshake_key st)) received PUBLICKEYBYTES
  then Some (cur_handshake_key st)
  else if is_handshake_key_valid ctx (prev_handshake_key st)
          && memcmp_eq (hk_public_key (prev_handshake_key st)) received
                       PUBLICKEYBYTES
  then Some (prev_handshake_key st)
  else None.

(** [protocol_handshake_handle]; [None] is the [exit_bug] of [establish]. *)
Definition protocol_handshake_handle (ctx : fastd_context)
    (peers : list (fastd_peer M)) (addr : fastd_peer_address)
    (peer_conf : option fastd_peer_config) (handshake : fastd_handshake)
  : option (fastd_context * list (fastd_peer M)) :=
  let ctx1 := maintenance ctx in
  if negb (has_field handshake RECORD_SENDER_KEY PUBLICKEYBYTES)
  then Some (ctx1, peers)
  else
    let '(ctx2, matched) :=
      match_sender_key ctx1 addr peer_conf
                       (rec_data (records handshake RECORD_SENDER_KEY)) in
    match matched with
    | None => Some (ctx2, peers)
    | Some pc =>
        if (1 <? hs_type handshake)
           && negb (has_field handshake RECORD_RECEIPIENT_KEY PUBLICKEYBYTES)
        then Some (ctx2, peers)
        else if has_field handshake RECORD_RECEIPIENT_KEY PUBLICKEYBYTES
                && negb (memcmp_eq (local_pub ctx2)
                           (rec_data (records handshake RECORD_RECEIPIENT_KEY))
                           PUBLICKEYBYTES)
        then Some (ctx2, peers)
        else if negb (has_field handshake RECORD_SENDER_HANDSHAKE_KEY
                                PUBLICKEYBYTES)
        then Some (ctx2, peers)
        else if (1 <? hs_type handshake)
                && negb (has_field handshake RECORD_RECEIPIENT_HANDSHAKE_KEY
                                   PUBLICKEYBYTES)
        then Some (ctx2, peers)
        else if (1 <? hs_type handshake)
                && negb (has_field handshake RECORD_T HMACBYTES)
        then Some (ctx2, peers)
        else
          match protocol_state ctx2 with
          | None => Some (ctx2, peers)
          | Some st =>
              let sender_hk :=
                rec_data (records handshake RECORD_SENDER_HANDSHAKE_KEY) in
              if hs_type handshake =? 1 then
                Some (respond_handshake ctx2 addr pc (cur_handshake_key st)
                                        sender_hk handshake, peers)
              else if hs_type handshake =? 2 then
                match select_handshake_key ctx2 st handshake with
                | Some hkey =>
                    finish_handshake ctx2 peers addr pc hkey sender_hk handshake
                | None => Some (ctx2, peers)
                end
              else if hs_type handshake =? 3 then
                match select_handshake_key ctx2 st handshake with
                | Some hkey =>
                    handle_finish_handshake ctx2 peers addr pc hkey sender_hk
                                            handshake
                | None => Some (ctx2, peers)
                end
              else Some (ctx2, peers)
          end
    end.

End Handler.

(** *** Buffer accounting *)

(** Remove one occurrence of [b] from the buffers held; [None] if it is not
    held. *)
Fixpoint take_buffer (b : fastd_buffer) (held : list fastd_buffer)
  : option (list fastd_buffer) :=
  match held with
  | [] => None
  | h :: t =>
      if buffer_eqb b h then Some t
      else match take_buffer b t with
           | Some t' => Some (h :: t')
           | None => None
           end
  end.

(** Replay a trace against the buffers the handler holds.  Allocation adds a
    buffer; freeing it, delivering it upward ([fastd_handle_receive]) or
    transmitting it ([fastd_send]) gives it up; a successful [encrypt] or
    [decrypt] exchanges the input for the output, a failed one needs the input
    held and leaves it so.  [None]: a buffer was given up or used while not
    held (double free, use after free). *)
Fixpoint ledger (held : list fastd_buffer) (tr : list event)
  : option (list fastd_buffer) :=
  match tr with
  | [] => Some held
  | e :: tr' =>
      match e with
      | EvBufferAlloc b => ledger (b :: held) tr'
      | EvBufferFree b | EvHandleReceive b | EvSend _ b =>
          match take_buffer b held with
          | Some held' => ledger held' tr'
          | None => None
          end
      | EvDecrypt _ b out | EvEncrypt _ b out =>
          match take_buffer b held with
          | Some held' =>
              match out with
              | Some o => ledger (o :: held') tr'
              | None => ledger held tr'
              end
          | None => None
          end
      | _ => ledger held tr'
      end
  end.

(** The events that end a buffer's life. *)
Definition is_disposal (e : event) : bool :=
  match e with
  | EvBufferFree _ | EvHandleReceive _ | EvSend _ _ => true
  | _ => false
  end.

Definition is_alloc (e : event) : bool :=
  match e with
  | EvBufferAlloc _ => true
  | _ => false
  end.

Definition is_crypto (e : event) : bool :=
  match e with
  | EvCrypto _ => true
  | _ => false
  end.

(** The events a call added to the trace. *)
Definition new_events (before after : fastd_context) : list event :=
  skipn (length (trace before)) (trace after).


Fixpoint decrypt_slots (tr : list event) : list session_slot :=
  match tr with
  | [] => []
  | EvDecrypt s _ _ :: tr' => s :: decrypt_slots tr'
  | _ :: tr' => decrypt_slots tr'
  end.

Fixpoint session_inits (tr : list event) : list (list Z * bool) :=
  match tr with
  | [] => []
  | EvSessionInit secret initiator :: tr' =>
      (secret, initiator) :: session_inits tr'
  | _ :: tr' => session_inits tr'
  end.

(** The events [protocol_send] can add. *)
Definition is_send_event (e : event) : bool :=
  match e with
  | EvScheduleHandshake _ | EvEncrypt _ _ _ | EvBufferFree _ | EvSend _ _
  | EvDeletePeerKeepalives | EvScheduleKeepalive _ => true
  | _ => false
  end.

Definition is_resolve (e : event) : bool :=
  match e with
  | EvResolvePeer _ => true
  | _ => false
  end.

(** The events that end the handling of a confirmed session. *)
Definition is_cleanup_event (e : event) : bool :=
  match e with
  | EvSessionFree OldSession true | EvScheduleHandshake _ => true
  | _ => false
  end.

(** What ends the call: after a successful decrypt the peer is marked seen
    and the plaintext is delivered upward, or freed if it is empty; after a
    failure the packet is freed. *)
Definition recv_final (buffer : fastd_buffer) (plain : option fastd_buffer)
  : list event :=
  match plain with
  | None => [EvBufferFree buffer]
  | Some out =>
      [EvPeerSeen;
       if len out =? 0 then EvBufferFree out else EvHandleReceive out]
  end.

(** A trace gives up buffer [b] exactly once: replayed with [b] held (and
    whatever else), everything it allocates and [b] are given up and nothing
    else is touched; and it has one more free, delivery or transmission than
    it has allocations. *)
Definition disposed_once (b : fastd_buffer) (evs : list event) : Prop :=
  (forall held, ledger (b :: held) evs = Some held)
  /\ length (filter is_disposal evs) = S (length (filter is_alloc evs)).

(** A trace gives up exactly the buffers it allocates. *)
Definition buffer_neutral (evs : list event) : Prop :=
  (forall held, ledger held evs = Some held)
  /\ length (filter is_disposal evs) = length (filter is_alloc evs).

Definition is_deliver (e : event) : bool :=
  match e with
  | EvHandleReceive _ => true
  | _ => false
  end.

(** Events that neither decrypt nor deliver. *)
Definition is_quiet (e : event) : bool :=
  match e with
  | EvDecrypt _ _ _ | EvHandleReceive _ => false
  | _ => true
  end.

(** The methods get the pointer to their session state by value: a call
    cannot turn a pointer that is set into [NULL]. *)
Definition keeps_pointers {M : Type} (m : fastd_method M) : Prop :=
  forall (t : timespec) (s : M) (b : fastd_buffer),
    is_set (fst (encrypt m t (Some s) b)) = true
    /\ is_set (fst (decrypt m t (Some s) b)) = true.

(** *** Statements of the specification *)

Section Specified.
Context {M : Type}.
Variable E : environment M.


(** The sessions a packet for an established peer is decrypted with, as
    specified: the previous one first when it is valid, then the current one
    (unless the previous one has decrypted the packet). *)
Definition decrypt_order_spec (ctx : fastd_context)
    (ps : fastd_protocol_peer_state M) (buffer : fastd_buffer)
  : list session_slot :=
  (if is_session_valid E ctx (old_session ps) then [OldSession] else [])
  ++ (if is_session_valid E ctx (old_session ps)
         && is_set (snd (decrypt (method E) (now ctx)
                           (method_state (old_session ps)) buffer))
      then [] else [CurrentSession]).

(** The session secret as specified: SHA256 over X, Y, A, B, sigma with X the
    initiator's handshake key, Y the responder's handshake key, A the
    initiator's long-term key and B the responder's. *)
Definition session_secret_spec (initiator_handshake_key responder_handshake_key
    initiator_key responder_key sigma : list Z) : list Z :=
  crypto_hash_sha256 (crypto E)
    (key_bytes initiator_handshake_key ++ key_bytes responder_handshake_key
     ++ key_bytes initiator_key ++ key_bytes responder_key ++ key_bytes sigma).

(** The records a handshake must carry before any of it is processed: sender
    key and sender handshake key, and for types 2 and 3 the recipient key
    (equal to the local public key), the recipient handshake key and T. *)
Definition records_complete (ctx : fastd_context) (handshake : fastd_handshake)
  : bool :=
  has_field handshake RECORD_SENDER_KEY 32
  && has_field handshake RECORD_SENDER_HANDSHAKE_KEY 32
  && (if (hs_type handshake =? 2) || (hs_type handshake =? 3)
      then has_field handshake RECORD_RECEIPIENT_KEY 32
           && memcmp_eq (local_pub ctx)
                (rec_data (records handshake RECORD_RECEIPIENT_KEY)) 32
           && has_field handshake RECORD_RECEIPIENT_HANDSHAKE_KEY 32
           && has_field handshake RECORD_T 32
      else true).

(** A handshake is dropped: beyond the key-pool maintenance nothing of the
    cryptographic libraries is called and no handshake packet is sent; the
    peers and the key pool stay as they are. *)
Definition dropped (ctx : fastd_context) (peers : list (fastd_peer M))
    (r : option (fastd_context * list (fastd_peer M))) : Prop :=
  exists ctx',
    r = Some (ctx', peers)
    /\ protocol_state ctx' = protocol_state (maintenance E ctx)
    /\ exists evs,
         trace ctx' = trace (maintenance E ctx) ++ evs
         /\ forallb is_resolve evs = true.

(** The address claim comes first in the calls [establish] adds. *)
Definition claim_first (evs : list event) : bool :=
  match evs with
  | EvClaimAddress _ _ :: _ => true
  | _ => false
  end.

End Specified.

End Protocol.

(** ** A small concrete environment on which the handler is evaluated *)

Module Sample.
Import Protocol.

(** A method in the manner of fastd's [null] method: the session state holds
    the role and the secret, a packet is the payload behind one byte that
    names the session (the first byte of its secret). *)
Record sample_state : Type := {
  s_initiator : bool;
  s_valid : bool;
  s_secret : list Z
}.

Definition sample_tag (s : sample_state) : Z := nth 0%nat (s_secret s) 0.

Definition sample_method : fastd_method sample_state := {|
  min_encrypt_head_space := 0;
  session_init := fun _ secret initiator =>
    Some {| s_initiator := initiator; s_valid := true; s_secret := secret |};
  session_is_valid := fun _ m =>
    match m with Some s => s_valid s | None => false end;
  session_is_initiator := fun _ m =>
    match m with Some s => s_initiator s | None => false end;
  session_want_refresh := fun _ _ => false;
  encrypt := fun _ m b =>
    match m with
    | Some s => (m, Some {| base := base b; data := sample_tag s :: data b |})
    | None => (m, None)
    end;
  decrypt := fun _ m b =>
    match m, data b with
    | Some s, t :: payload =>
        if t =? sample_tag s
        then (m, Some {| base := base b; data := payload |})
        else (m, None)
    | _, _ => (m, None)
    end
|}.

(** A stand-in for the primitives that keeps every input visible: the hash
    returns its input, points are their encodings. *)
Definition sample_crypto : crypto_lib := {|
  fastd_random_bytes := fun n => repeat (Z.of_nat n + 100) 32;
  ecc_25519_secret_sanitize := fun s => s;
  ecc_25519_secret_mult := fun a b => a;
  ecc_25519_secret_add := fun a b => b;
  ecc_25519_scalarmult_base := fun s => s;
  ecc_25519_scalarmult := fun s w => w;
  ecc_25519_add := fun a b => a;
  ecc_25519_load := fun k => k;
  ecc_25519_store := fun w => w;
  ecc_25519_is_identity := fun w => false;
  crypto_hash_sha256 := fun l => l;
  crypto_auth_hmacsha256 := fun msg key => firstn 32 msg;
  crypto_auth_hmacsha256_verify := fun tag msg key => 0
|}.

(** Peer glue: [claim_ok] says whether the address can be claimed; a reset
    drops the protocol state and the established mark. *)
Definition sample_env (claim_ok : bool) : environment sample_state := {|
  method := sample_method;
  crypto := sample_crypto;
  timespec_after := fun a b => tv_sec b <? tv_sec a;
  fastd_peer_claim_address := fun _ p a =>
    (claim_ok,
     if claim_ok
     then {| config := config p; address := a; established := established p;
             peer_protocol_state := peer_protocol_state p |}
     else p);
  fastd_peer_reset := fun p =>
    {| config := config p; address := address p; established := false;
       peer_protocol_state := None |};
  fastd_peer_config_is_floating := fun _ => true;
  fastd_peer_config_is_dynamic := fun _ => false;
  fastd_peer_config_matches_dynamic := fun _ _ => false
|}.

Definition key_of (b : Z) : list Z := repeat b 32.

Definition sample_peer_conf : fastd_peer_config :=
  {| conf_id := 1; peer_public_key := key_of 2 |}.

Definition sample_conf : fastd_config :=
  {| protocol_config := {| secret_key := key_of 9; public_key := key_of 1 |};
     keepalive_interval := 20;
     conf_peers := [sample_peer_conf] |}.

Definition sample_handshake_key : handshake_key :=
  {| preferred_till := {| tv_sec := 115; tv_nsec := 0 |};
     valid_till := {| tv_sec := 130; tv_nsec := 0 |};
     hk_secret_key := key_of 8;
     hk_public_key := key_of 3 |}.

Definition sample_prev_handshake_key : handshake_key :=
  {| preferred_till := {| tv_sec := 101; tv_nsec := 0 |};
     valid_till := {| tv_sec := 116; tv_nsec := 0 |};
     hk_secret_key := key_of 7;
     hk_public_key := key_of 5 |}.

Definition sample_ctx : fastd_context :=
  {| now := {| tv_sec := 110; tv_nsec := 0 |};
     conf := sample_conf;
     protocol_state :=
       Some {| prev_handshake_key := sample_prev_handshake_key;
               cur_handshake_key := sample_handshake_key |};
     trace := [];
     buffers_allocated := 0;
     random_draws := 0 |}.

Definition sample_session (initiator cleaned : bool) (tag : Z)
  : protocol_session sample_state :=
  {| handshakes_cleaned := cleaned; refreshing := false;
     method_state :=
       Some {| s_initiator := initiator; s_valid := true;
               s_secret := key_of tag |} |}.

Definition no_session : protocol_session sample_state :=
  {| handshakes_cleaned := false; refreshing := false; method_state := None |}.

Definition sample_peer (old cur : protocol_session sample_state)
  : fastd_peer sample_state :=
  {| config := sample_peer_conf; address := 77; established := true;
     peer_protocol_state := Some {| old_session := old; session := cur |} |}.

(** A handshake with the given type and records of 32 bytes each. *)
Definition sample_handshake (type : Z)
    (recs : list (fastd_handshake_record_type * Z)) : fastd_handshake :=
  {| req_id := 0; hs_type := type;
     records := fun t =>
       match find (fun r =>
                match fst r, t with
                | RECORD_PROTOCOL1, RECORD_PROTOCOL1
                | RECORD_PROTOCOL2, RECORD_PROTOCOL2
                | RECORD_PROTOCOL3, RECORD_PROTOCOL3
                | RECORD_PROTOCOL4, RECORD_PROTOCOL4
                | RECORD_PROTOCOL5, RECORD_PROTOCOL5 => true
                | _, _ => false
                end) recs with
       | Some r => {| rec_length := 32; rec_data := key_of (snd r) |}
       | None => {| rec_length := 0; rec_data := [] |}
       end |}.

Definition packet (id : nat) (bytes : list Z) : fastd_buffer :=
  {| base := id; data := bytes |}.

(** A configured peer without any session yet. *)
Definition fresh_peer : fastd_peer sample_state :=
  {| config := sample_peer_conf; address := 77; established := false;
     peer_protocol_state := None |}.

(** The result of a handshake step or of [establish]. *)
Definition run_ctx (r : option (fastd_context * list (fastd_peer sample_state)))
  : fastd_context :=
  match r with
  | Some (c, _) => c
  | None => sample_ctx
  end.

Definition run_peers (r : option (fastd_context * list (fastd_peer sample_state)))
  : list (fastd_peer sample_state) :=
  match r with
  | Some (_, ps) => ps
  | None => []
  end.

(** A type-2 handshake from the peer (long-term key 2, handshake key 4) in
    answer to the current local handshake key (3), and the local side
    finishing it as initiator. *)
Definition response : fastd_handshake :=
  sample_handshake 2
    [(RECORD_PROTOCOL1, 2); (RECORD_PROTOCOL2, 1); (RECORD_PROTOCOL3, 4);
     (RECORD_PROTOCOL4, 3); (RECORD_PROTOCOL5, 0)].

Definition finish_run
  : option (fastd_context * list (fastd_peer sample_state)) :=
  finish_handshake (sample_env true) sample_ctx [fresh_peer] 88
    sample_peer_conf sample_handshake_key (key_of 4) response.

(** A type-3 handshake from the peer, handled as responder. *)
Definition finish_message : fastd_handshake :=
  sample_handshake 3
    [(RECORD_PROTOCOL1, 2); (RECORD_PROTOCOL2, 1); (RECORD_PROTOCOL3, 4);
     (RECORD_PROTOCOL4, 3); (RECORD_PROTOCOL5, 0)].

Definition handle_finish_run
  : option (fastd_context * list (fastd_peer sample_state)) :=
  handle_finish_handshake (sample_env true) sample_ctx [fresh_peer] 88
    sample_peer_conf sample_handshake_key (key_of 4) finish_message.

(** The same context 10 seconds later, when the current handshake key is
    no longer preferred. *)
Definition later_ctx : fastd_context :=
  {| now := {| tv_sec := 120; tv_nsec := 0 |};
     conf := sample_conf;
     protocol_state := protocol_state sample_ctx;
     trace := [];
     buffers_allocated := 0;
     random_draws := 0 |}.

(** Handshakes that lack a record, have an unknown type, or name another
    recipient. *)
Definition no_sender_key : fastd_handshake :=
  sample_handshake 1 [(RECORD_PROTOCOL3, 4)].

Definition unknown_type : fastd_handshake :=
  sample_handshake 7
    [(RECORD_PROTOCOL1, 2); (RECORD_PROTOCOL2, 1); (RECORD_PROTOCOL3, 4);
     (RECORD_PROTOCOL4, 3); (RECORD_PROTOCOL5, 0)].

Definition wrong_recipient : fastd_handshake :=
  sample_handshake 1
    [(RECORD_PROTOCOL1, 2); (RECORD_PROTOCOL2, 9); (RECORD_PROTOCOL3, 4)].

Definition init_without_recipient : fastd_handshake :=
  sample_handshake 1 [(RECORD_PROTOCOL1, 2); (RECORD_PROTOCOL3, 4)].

(** A peer in the overlap after a rekey: the old session (5) still valid,
    the new one (6) not yet confirmed, the local side its initiator. *)
Definition rekeyed_peer : fastd_peer sample_state :=
  sample_peer (sample_session true true 5) (sample_session true false 6).

(** A session whose method state is no longer valid, and established peers
    whose current session is such a session: one that still has a valid
    previous session, and one without a previous session. *)
Definition expired_session : protocol_session sample_state :=
  {| handshakes_cleaned := true; refreshing := false;
     method_state :=
       Some {| s_initiator := true; s_valid := false;
               s_secret := key_of 6 |} |}.

Definition expired_peer : fastd_peer sample_state :=
  sample_peer (sample_session true true 5) expired_session.

Definition lapsed_peer : fastd_peer sample_state :=
  sample_peer no_session expired_session.

(** [establish] for a peer that has an established, valid session, from an
    address that cannot be claimed. *)
Definition established_peer : fastd_peer sample_state :=
  sample_peer no_session (sample_session false true 6).

Definition conflict_run
  : option (fastd_context * list (fastd_peer sample_state)) :=
  establish (sample_env false) sample_ctx [established_peer] sample_peer_conf
    88 false (key_of 4) (key_of 3) (key_of 2) (key_of 1) (key_of 7).

End Sample.

(** ** Series of packets on the record layer *)

Module Traffic.
Import Common.

(** The direction bit of a nonce: bit 0 of its first byte. *)
Definition parity (n : list Z) : Z := Z.land (nth 0%nat n 0) 1.

(** Packets that arrive in the order they were sent: every nonce is
    well-formed, of the direction of [recv] and newer than the one before it
    ([recv] for the first). *)
Fixpoint in_order (recv : list Z) (pkts : list (timespec * list Z)) : Prop :=
  match pkts with
  | [] => True
  | (_, n) :: rest =>
      nonce_wf n /\ parity n = parity recv /\ le_value recv < le_value n
      /\ in_order n rest
  end.

(** Packets none of which is newer than [recv], each at most 31 positions
    behind it (a position is a step of 2 in the nonce). *)
Definition behind (recv : list Z) (pkts : list (timespec * list Z)) : Prop :=
  Forall (fun p => nonce_wf (snd p)
                   /\ 0 <= le_value recv - le_value (snd p) < 64) pkts.

End Traffic.

(** ** Keys in the configuration: [read_key], [protocol_init],
    [protocol_peer_configure], [protocol_generate_key] *)

Module Keys.
Import Ascii String.

(** A C string is given by the characters of its array; it ends before the
    first NUL. *)
Fixpoint strlen (s : list ascii) : nat :=
  match s with
  | [] => 0
  | c :: t => if Ascii.eqb c zero then 0 else S (strlen t)
  end.

(** [strspn(s, accept)]: the length of the longest prefix of [s] made of
    characters of [accept]. *)
Fixpoint strspn (s accept : list ascii) : nat :=
  match s with
  | [] => 0
  | c :: t =>
      if negb (Ascii.eqb c zero) && existsb (Ascii.eqb c) accept
      then S (strspn t accept) else 0
  end.

(** ["0123456789abcdefABCDEF"] *)
Definition hex_digits : list ascii :=
  list_ascii_of_string "0123456789abcdefABCDEF"%string.

(** The value of a hexadecimal digit as [scanf]'s [%x] reads it. *)
Definition hex_digit_value (c : ascii) : option Z :=
  let n := Z.of_nat (nat_of_ascii c) in
  if (48 <=? n) && (n <=? 57) then Some (n - 48)
  else if (97 <=? n) && (n <=? 102) then Some (n - 87)
  else if (65 <=? n) && (n <=? 70) then Some (n - 55)
  else None.

(** [sscanf(s, "%02hhx", &b)] on a string that starts with a hexadecimal
    digit: at most two digits are read and the value is stored as an
    [unsigned char].  [None]: nothing is read and [b] is left as it is. *)
Definition sscanf_02hhx (s : list ascii) : option Z :=
  match s with
  | [] => None
  | c1 :: rest =>
      match hex_digit_value c1 with
      | None => None
      | Some v1 =>
          match rest with
          | [] => Some v1
          | c2 :: _ =>
              match hex_digit_value c2 with
              | Some v2 => Some ((16 * v1 + v2) mod 256)
              | None => Some v1
              end
          end
      end
  end.

(** [read_key]: the result and the content of [key] on return. *)
Definition read_key (key : list Z) (hexkey : list ascii) : bool * list Z :=
  if negb (Nat.eqb (strlen hexkey) 64)
     || negb (Nat.eqb (strspn hexkey hex_digits) 64)
  then (false, key)
  else
    (true,
     map (fun i =>
            match sscanf_02hhx (skipn (2 * i) hexkey) with
            | Some b => b
            | None => nth i key 0
            end)
         (seq 0 32)).

(** [printf("%02x", b)] for an [unsigned char]. *)
Definition hex_digit (v : Z) : ascii :=
  nth (Z.to_nat v) (list_ascii_of_string "0123456789abcdef"%string) zero.

Definition printf_02x (b : Z) : list ascii :=
  [hex_digit (b / 16); hex_digit (b mod 16)].

(** The 64 digits [hexdump] prints for the array [d] of 32 bytes. *)
Definition hex_of (d : list Z) : list ascii :=
  flat_map (fun i => printf_02x (nth i d 0)) (seq 0 32).

(** The newline character. *)
Definition newline : ascii := ascii_of_nat 10.

(** [hexdump]: what goes to the standard output. *)
Definition hexdump (desc : list ascii) (d : list Z) : list ascii :=
  desc ++ hex_of d ++ [newline].

(** The two descriptions [protocol_generate_key] prints. *)
Definition desc_secret : list ascii := list_ascii_of_string "Secret: "%string.
Definition desc_public : list ascii := list_ascii_of_string "Public: "%string.

(** [exit_error] with its message. *)
Inductive exit_error : Type :=
| NoSecretKeyConfigured
| InvalidSecretKey.

(** [protocol_init]; [secret] is [ctx->conf->secret] and [fresh] the content
    of the structure as [malloc] returns it. *)
Definition protocol_init (C : Protocol.crypto_lib) (fresh : list Z)
    (secret : option (list ascii))
  : exit_error + Protocol.fastd_protocol_config :=
  match secret with
  | None => inl NoSecretKeyConfigured
  | Some hexkey =>
      let '(ok, secret_key) := read_key fresh hexkey in
      if negb ok then inl InvalidSecretKey
      else
        let work := Protocol.ecc_25519_scalarmult_base C secret_key in
        inr {| Protocol.secret_key := secret_key;
               Protocol.public_key := Protocol.ecc_25519_store C work |}
  end.

(** The peer's configuration as [protocol_peer_configure] sees it: the key
    as written in the configuration file, the [enabled] mark and the
    protocol's own part, which is [NULL] until the peer is configured. *)
Record fastd_protocol_peer_config : Type := {
  public_key : list Z
}.

Record fastd_peer_config : Type := {
  name : list ascii;
  key : option (list ascii);
  enabled : bool;
  protocol_config : option fastd_protocol_peer_config
}.

Definition disable (peer_conf : fastd_peer_config) : fastd_peer_config :=
  {| name := name peer_conf; key := key peer_conf; enabled := false;
     protocol_config := protocol_config peer_conf |}.

(** [protocol_peer_configure]; [own] is
    [ctx->conf->protocol_config->public_key.p], [fresh] the content of the
    local variable [key] before it is read. *)
Definition protocol_peer_configure (own : list Z) (fresh : list Z)
    (peer_conf : fastd_peer_config) : fastd_peer_config :=
  match key peer_conf with
  | None => disable peer_conf
  | Some hexkey =>
      let '(ok, k) := read_key fresh hexkey in
      if negb ok then disable peer_conf
      else if Protocol.memcmp_eq k own 32 then disable peer_conf
      else
        {| name := name peer_conf; key := key peer_conf;
           enabled := enabled peer_conf;
           protocol_config := Some {| public_key := k |} |}
  end.

(** [protocol_generate_key]: the context after the random draw and what is
    printed. *)
Definition protocol_generate_key (C : Protocol.crypto_lib)
    (ctx : Protocol.fastd_context) : Protocol.fastd_context * list ascii :=
  let random := Protocol.fastd_random_bytes C (Protocol.random_draws ctx) in
  let secret_key := Protocol.ecc_25519_secret_sanitize C random in
  let work := Protocol.ecc_25519_scalarmult_base C secret_key in
  let public_key := Protocol.ecc_25519_store C work in
  ({| Protocol.now := Protocol.now ctx; Protocol.conf := Protocol.conf ctx;
      Protocol.protocol_state := Protocol.protocol_state ctx;
      Protocol.trace :=
        Protocol.trace ctx
        ++ map Protocol.EvCrypto
             [Protocol.RandomBytes; Protocol.SecretSanitize;
              Protocol.ScalarmultBase; Protocol.PointStore];
      Protocol.buffers_allocated := Protocol.buffers_allocated ctx;
      Protocol.random_draws := S (Protocol.random_draws ctx) |},
   hexdump desc_secret secret_key ++ hexdump desc_public public_key).

End Keys.

(** ** Handshake exchanges and packet series *)

Module Exchange.
Import Protocol.

Definition is_send_handshake (e : event) : bool :=
  match e with
  | EvSendHandshake _ _ => true
  | _ => false
  end.

Definition is_schedule_handshake (e : event) : bool :=
  match e with
  | EvScheduleHandshake _ => true
  | _ => false
  end.

(** The calls a handshake makes before any session is touched: into the
    cryptographic libraries, the resolver, and [fastd_send_handshake]. *)
Definition is_handshake_step (e : event) : bool :=
  is_crypto e || is_resolve e || is_send_handshake e.

(** From [ctx] to [ctx'] nothing but such calls has been made. *)
Definition only_handshake_steps (ctx ctx' : fastd_context) : Prop :=
  exists evs,
    trace ctx' = trace ctx ++ evs /\ forallb is_handshake_step evs = true.

(** The context when the main loop has set the clock to [t]. *)
Definition at_time (ctx : fastd_context) (t : timespec) : fastd_context :=
  {| now := t; conf := conf ctx; protocol_state := protocol_state ctx;
     trace := trace ctx; buffers_allocated := buffers_allocated ctx;
     random_draws := random_draws ctx |}.

Section Calls.
Context {M : Type}.
Variable E : environment M.

(** A series of packets handed to [protocol_send], each at its time. *)
Fixpoint protocol_sends (ctx : fastd_context) (peer : fastd_peer M)
    (pkts : list (timespec * fastd_buffer)) : fastd_context * fastd_peer M :=
  match pkts with
  | [] => (ctx, peer)
  | (t, buffer) :: rest =>
      let '(ctx1, peer1) := protocol_send E (at_time ctx t) peer buffer in
      protocol_sends ctx1 peer1 rest
  end.

(** The [refreshing] mark of the peer's current session. *)
Definition peer_refreshing (peer : fastd_peer M) : bool :=
  match peer_protocol_state peer with
  | Some ps => refreshing (session ps)
  | None => false
  end.

(** What [finish_handshake] ([initiator = true]) and [respond_handshake] and
    [handle_finish_handshake] ([initiator = false]) compute from the four
    public keys: the first 128 bytes of [hashinput], the point [work], and
    [shared_handshake_key]. *)
Definition handshake_hashinput (initiator : bool) (ctx : fastd_context)
    (peer_conf : fastd_peer_config) (hkey : handshake_key)
    (peer_handshake_key : list Z) : list Z :=
  if initiator
  then initiator_hashinput ctx peer_conf hkey peer_handshake_key
  else responder_hashinput ctx peer_conf hkey peer_handshake_key.

Definition handshake_point (initiator : bool) (ctx : fastd_context)
    (peer_conf : fastd_peer_config) (hkey : handshake_key)
    (peer_handshake_key : list Z) : ecc_25519_work :=
  let hashbuf :=
    crypto_hash_sha256 (crypto E)
      (handshake_hashinput initiator ctx peer_conf hkey peer_handshake_key) in
  if initiator
  then initiator_point E ctx peer_conf hkey peer_handshake_key hashbuf
  else responder_point E ctx peer_conf hkey peer_handshake_key hashbuf.

Definition shared_handshake_key (initiator : bool) (ctx : fastd_context)
    (peer_conf : fastd_peer_config) (hkey : handshake_key)
    (peer_handshake_key : list Z) : list Z :=
  crypto_hash_sha256 (crypto E)
    (handshake_hashinput initiator ctx peer_conf hkey peer_handshake_key
     ++ key_bytes
          (ecc_25519_store (crypto E)
             (handshake_point initiator ctx peer_conf hkey
                peer_handshake_key))).

(** The two tests [finish_handshake] and [handle_finish_handshake] make
    before they call [establish]: the point is not the identity, and the tag
    in record T verifies under the shared handshake key over the peer's
    long-term key and handshake key. *)
Definition tag_verified (initiator : bool) (ctx : fastd_context)
    (peer_conf : fastd_peer_config) (hkey : handshake_key)
    (peer_handshake_key : list Z) (handshake : fastd_handshake) : bool :=
  negb (ecc_25519_is_identity (crypto E)
          (handshake_point initiator ctx peer_conf hkey peer_handshake_key))
  && (crypto_auth_hmacsha256_verify (crypto E)
        (rec_data (records handshake RECORD_T))
        (key_bytes (peer_public_key peer_conf) ++ key_bytes peer_handshake_key)
        (shared_handshake_key initiator ctx peer_conf hkey peer_handshake_key)
      =? 0).

(** The tag [respond_handshake] and [finish_handshake] put into record T:
    over the local long-term key and handshake key. *)
Definition own_tag (initiator : bool) (ctx : fastd_context)
    (peer_conf : fastd_peer_config) (hkey : handshake_key)
    (peer_handshake_key : list Z) : list Z :=
  crypto_auth_hmacsha256 (crypto E)
    (key_bytes (local_pub ctx) ++ key_bytes (hk_public_key hkey))
    (shared_handshake_key initiator ctx peer_conf hkey peer_handshake_key).

End Calls.

End Exchange.

(** ** A toy group in place of the curve

    Points and scalars are residues modulo 251, kept in the first byte of a
    key, the generator is 1; the hash adds up its input, the authenticator is
    the hash of key and message.  The algebra the handshake relies on holds in
    it, so that a whole exchange can be run. *)

Module Toy.
Import Protocol.

Definition residue (k : list Z) : Z := nth 0%nat k 0 mod 251.

Definition encode (n : Z) : list Z := (n mod 251) :: repeat 0 31.

Definition toy_hash (l : list Z) : list Z :=
  let n := fold_right Z.add 0 l in
  ((n mod 251) :: repeat 0 15) ++ (((n + 1) mod 251) :: repeat 0 15).

Definition toy_crypto : crypto_lib := {|
  fastd_random_bytes := fun n => encode (Z.of_nat n + 100);
  ecc_25519_secret_sanitize := fun s => s;
  ecc_25519_secret_mult := fun a b => encode (residue a * residue b);
  ecc_25519_secret_add := fun a b => encode (residue a + residue b);
  ecc_25519_scalarmult_base := fun s => encode (residue s);
  ecc_25519_scalarmult := fun s w => encode (residue s * residue w);
  ecc_25519_add := fun a b => encode (residue a + residue b);
  ecc_25519_load := fun k => k;
  ecc_25519_store := fun w => w;
  ecc_25519_is_identity := fun w => residue w =? 0;
  crypto_hash_sha256 := toy_hash;
  crypto_auth_hmacsha256 := fun msg key => toy_hash (key ++ msg);
  crypto_auth_hmacsha256_verify := fun tag msg key =>
    if list_eq_dec Z.eq_dec tag (toy_hash (key ++ msg)) then 0 else -1
|}.

Definition toy_env : environment Sample.sample_state := {|
  method := Sample.sample_method;
  crypto := toy_crypto;
  timespec_after := fun a b => tv_sec b <? tv_sec a;
  fastd_peer_claim_address := fun _ p a =>
    (true,
     {| config := config p; address := a; established := established p;
        peer_protocol_state := peer_protocol_state p |});
  fastd_peer_reset := fun p =>
    {| config := config p; address := address p; established := false;
       peer_protocol_state := None |};
  fastd_peer_config_is_floating := fun _ => true;
  fastd_peer_config_is_dynamic := fun _ => false;
  fastd_peer_config_matches_dynamic := fun _ _ => false
|}.

(** Two hosts: the initiator with the long-term secret 5 and the handshake
    secret 7, the responder with 11 and 13; each knows the other's public
    key. *)
Definition toy_handshake_key (secret : Z) : handshake_key :=
  {| preferred_till := {| tv_sec := 115; tv_nsec := 0 |};
     valid_till := {| tv_sec := 130; tv_nsec := 0 |};
     hk_secret_key := encode secret;
     hk_public_key := encode secret |}.

Definition toy_peer (id : nat) (secret : Z) : fastd_peer_config :=
  {| conf_id := id; peer_public_key := encode secret |}.

Definition toy_ctx (secret handshake_secret : Z) (peer : fastd_peer_config)
    (t : Z) : fastd_context :=
  {| now := {| tv_sec := t; tv_nsec := 0 |};
     conf := {| protocol_config :=
                  {| secret_key := encode secret;
                     public_key := encode secret |};
                keepalive_interval := 20;
                conf_peers := [peer] |};
     protocol_state :=
       Some {| prev_handshake_key := zero_handshake_key;
               cur_handshake_key := toy_handshake_key handshake_secret |};
     trace := [];
     buffers_allocated := 0;
     random_draws := 0 |}.

Definition initiator_ctx : fastd_context := toy_ctx 5 7 (toy_peer 1 11) 110.
Definition responder_ctx (t : Z) : fastd_context :=
  toy_ctx 11 13 (toy_peer 1 5) t.

Definition toy_peer_of (peer : fastd_peer_config)
  : fastd_peer Sample.sample_state :=
  {| config := peer; address := 0; established := false;
     peer_protocol_state := None |}.

(** The three messages of the exchange: the request, the reply with the
    responder's tag and the finish with the initiator's. *)
Definition toy_message (type : Z) (tag : list Z) : fastd_handshake :=
  {| req_id := 0; hs_type := type;
     records := fun t =>
       match t with
       | RECORD_PROTOCOL5 => {| rec_length := 32; rec_data := tag |}
       | _ => {| rec_length := 0; rec_data := [] |}
       end |}.

End Toy.

(** ** The cipher registry ([fastd_cipher_init], [fastd_cipher_config],
    [fastd_cipher_info_get_by_name], [fastd_cipher_get]) *)

Module Cipher.

(** A cipher implementation ([fastd_cipher_t]).  [cipher_id] stands for the
    address of the structure; [available] is the function pointer of that
    name, [None] when it is [NULL], else the answer the function gives on the
    running platform. *)
Record fastd_cipher_t : Type := {
  cipher_id : nat;
  available : option bool
}.

(** [fastd_cipher_impl_t]: one entry of a cipher's array of implementations.
    The array ends with an entry whose [impl] is [NULL]; [impls] below lists
    the entries before it. *)
Record fastd_cipher_impl_t : Type := {
  impl_name : String.string;
  impl : fastd_cipher_t
}.

(** [cipher_entry_t]; [info] stands for the address of the cipher's
    [fastd_cipher_info_t]. *)
Record cipher_entry_t : Type := {
  name : String.string;
  info : nat;
  impls : list fastd_cipher_impl_t
}.

(** [cipher_available] *)
Definition cipher_available (cipher : fastd_cipher_t) : bool :=
  match available cipher with
  | None => true
  | Some answer => answer
  end.

(** [array[i] = v] within the bounds of the array. *)
Fixpoint store {A : Type} (array : list A) (i : nat) (v : A) : list A :=
  match array, i with
  | [], _ => []
  | _ :: rest, O => v :: rest
  | x :: rest, S j => x :: store rest j v
  end.

(** The inner loop of [fastd_cipher_init]: it stops at the first available
    implementation or at the terminating entry, whose [impl] is [NULL]. *)
Fixpoint first_available (entries : list fastd_cipher_impl_t)
  : option fastd_cipher_t :=
  match entries with
  | [] => None
  | e :: rest =>
      if cipher_available (impl e) then Some (impl e)
      else first_available rest
  end.

(** The inner loop of [fastd_cipher_config]: the first implementation of the
    given name. *)
Fixpoint find_impl (entries : list fastd_cipher_impl_t)
    (impl_name0 : String.string) : option fastd_cipher_t :=
  match entries with
  | [] => None
  | e :: rest =>
      if String.eqb (impl_name e) impl_name0 then Some (impl e)
      else find_impl rest impl_name0
  end.

(** The outer loops: the first cipher of the given name, or with the given
    information structure, and its index ([i] is the index of the head of
    [entries]). *)
Fixpoint find_cipher (entries : list cipher_entry_t) (name0 : String.string)
    (i : nat) : option (nat * cipher_entry_t) :=
  match entries with
  | [] => None
  | c :: rest =>
      if String.eqb (name c) name0 then Some (i, c)
      else find_cipher rest name0 (S i)
  end.

Fixpoint find_info (entries : list cipher_entry_t) (info0 : nat) (i : nat)
  : option nat :=
  match entries with
  | [] => None
  | c :: rest =>
      if Nat.eqb (info c) info0 then Some i else find_info rest info0 (S i)
  end.

Section Registry.

(** The generated list of supported ciphers. *)
Variable ciphers : list cipher_entry_t.

(** [cipher_conf]: an array of one pointer per cipher. *)
Definition cipher_conf_t : Type := list (option fastd_cipher_t).

(** [fastd_cipher_init]: every entry of [cipher_conf] is assigned. *)
Definition fastd_cipher_init : cipher_conf_t :=
  map (fun c => first_available (impls c)) ciphers.

(** [fastd_cipher_config]: the result and [cipher_conf] afterwards. *)
Definition fastd_cipher_config (cipher_conf : cipher_conf_t)
    (name0 impl0 : String.string) : bool * cipher_conf_t :=
  match find_cipher ciphers name0 0 with
  | None => (false, cipher_conf)
  | Some (i, c) =>
      match find_impl (impls c) impl0 with
      | None => (false, cipher_conf)
      | Some chosen =>
          if negb (cipher_available chosen) then (false, cipher_conf)
          else (true, store cipher_conf i (Some chosen))
      end
  end.

(** [fastd_cipher_info_get_by_name] *)
Definition fastd_cipher_info_get_by_name (cipher_conf : cipher_conf_t)
    (name0 : String.string) : option nat :=
  match find_cipher ciphers name0 0 with
  | None => None
  | Some (i, c) =>
      match nth i cipher_conf None with
      | Some _ => Some (info c)
      | None => None
      end
  end.

(** [fastd_cipher_get] *)
Definition fastd_cipher_get (cipher_conf : cipher_conf_t) (info0 : nat)
  : option fastd_cipher_t :=
  match find_info ciphers info0 0 with
  | None => None
  | Some i => nth i cipher_conf None
  end.

(** A series of [fastd_cipher_config] calls, as the configuration file makes
    them. *)
Fixpoint fastd_cipher_configs (cipher_conf : cipher_conf_t)
    (calls : list (String.string * String.string)) : cipher_conf_t :=
  match calls with
  | [] => cipher_conf
  | (name0, impl0) :: rest =>
      fastd_cipher_configs (snd (fastd_cipher_config cipher_conf name0 impl0))
                           rest
  end.

(** Every chosen implementation is one of its cipher's and is available. *)
Definition chosen_ok (cipher_conf : cipher_conf_t) : Prop :=
  length cipher_conf = length ciphers
  /\ forall i c chosen,
       nth_error ciphers i = Some c ->
       nth i cipher_conf None = Some chosen ->
       In chosen (map impl (impls c)) /\ cipher_available chosen = true.

End Registry.

(** A registry as the build generates it for a machine without SSE2: the
    [xmm] implementation of Salsa20/12 answers that it is not available, the
    [nacl] one has no [available] function. *)
Import String.

Definition null_name : string := "null".
Definition memcpy_name : string := "memcpy".
Definition salsa2012_name : string := "salsa2012".
Definition xmm_name : string := "xmm".
Definition nacl_name : string := "nacl".

Definition sample_ciphers : list cipher_entry_t :=
  [ {| name := null_name; info := 10;
       impls := [ {| impl_name := memcpy_name;
                     impl := {| cipher_id := 1; available := None |} |} ] |};
    {| name := salsa2012_name; info := 20;
       impls := [ {| impl_name := xmm_name;
                     impl := {| cipher_id := 2; available := Some false |} |};
                  {| impl_name := nacl_name;
                     impl := {| cipher_id := 3; available := None |} |} ] |} ].

End Cipher.

(** * Properties *)

(** ** Integer conversions *)

Lemma to_u64_range x : 0 <= to_u64 x < 2 ^ 64.
Proof. unfold to_u64. apply Z.mod_pos_bound. lia. Qed.

Lemma to_u64_small x : 0 <= x < 2 ^ 64 -> to_u64 x = x.
Proof. intros H. unfold to_u64. now apply Z.mod_small. Qed.

Lemma to_int_range x : INT_MIN <= to_int x <= INT_MAX.
Proof.
  unfold to_int, INT_MIN, INT_MAX.
  pose proof (Z.mod_pos_bound (x + 2 ^ 31) (2 ^ 32) ltac:(lia)). lia.
Qed.

Lemma to_int_id x : INT_MIN <= x <= INT_MAX -> to_int x = x.
Proof.
  unfold to_int, INT_MIN, INT_MAX. intros H.
  rewrite Z.mod_small by lia. lia.
Qed.

Lemma shl_int_range T x n : INT_MIN <= shl_int T x n <= INT_MAX.
Proof.
  unfold shl_int.
  destruct ((0 <=? n) && (n <? 32) && (0 <=? x) && (x * 2 ^ n <=? INT_MAX)) eqn:E.
  - apply andb_prop in E as [E E4]. apply andb_prop in E as [E E3].
    apply andb_prop in E as [E1 E2].
    apply Z.leb_le in E1, E3, E4. apply Z.ltb_lt in E2.
    split; [|exact E4]. unfold INT_MIN.
    assert (0 <= x * 2 ^ n) by (apply Z.mul_nonneg_nonneg; [lia|apply Z.pow_nonneg; lia]).
    lia.
  - apply to_int_range.
Qed.

(** In range, [1 << n] is the single bit [n]. *)
Lemma shl_int_one T n : 0 <= n <= 30 -> shl_int T 1 n = 2 ^ n.
Proof.
  intros H. unfold shl_int.
  assert (P : 2 ^ n <= 2 ^ 30) by (apply Z.pow_le_mono_r; lia).
  replace ((0 <=? n) && (n <? 32) && (0 <=? 1) && (1 * 2 ^ n <=? INT_MAX))
    with true; [lia|].
  symmetry. repeat (apply andb_true_intro; split).
  - apply Z.leb_le; lia.
  - apply Z.ltb_lt; lia.
  - reflexivity.
  - apply Z.leb_le. unfold INT_MAX. lia.
Qed.

(** An [int] converted to [uint64_t] is below 2^31 or has bits 31..63 all
    set: it is never a single bit above bit 30. *)
Lemma int_as_u64 v :
  INT_MIN <= v <= INT_MAX ->
  0 <= to_u64 v < 2 ^ 31 \/ 2 ^ 64 - 2 ^ 31 <= to_u64 v < 2 ^ 64.
Proof.
  unfold INT_MIN, INT_MAX, to_u64. intros H.
  destruct (Z_lt_le_dec v 0) as [Hn|Hp].
  - right. replace (v mod 2 ^ 64) with (v + 2 ^ 64); [lia|].
    apply Z.mod_unique with (q := -1); lia.
  - left. rewrite Z.mod_small; lia.
Qed.

Lemma mul_int_exact T x y :
  INT_MIN <= x * y <= INT_MAX -> mul_int T x y = x * y.
Proof.
  intros [H1 H2]. unfold mul_int.
  apply Z.leb_le in H1, H2. now rewrite H1, H2.
Qed.

(** ** The record layer *)

Module CommonFacts.
Import Common.

Lemma le_value_firstn_S (l : list Z) (k : nat) :
  le_value (firstn (S k) l) = le_value (firstn k l) + 256 ^ Z.of_nat k * nth k l 0.
Proof.
  revert l. induction k as [|k IH]; intros l.
  - destruct l as [|b t]; cbn [firstn le_value nth Z.of_nat]; lia.
  - destruct l as [|b t].
    + cbn [firstn le_value nth]. lia.
    + change (firstn (S (S k)) (b :: t)) with (b :: firstn (S k) t).
      change (firstn (S k) (b :: t)) with (b :: firstn k t).
      change (nth (S k) (b :: t) 0) with (nth k t 0).
      cbn [le_value]. rewrite IH.
      rewrite (Nat2Z.inj_succ k), Z.pow_succ_r by lia. ring.
Qed.

(** The loop computes the difference of the two little-endian values. *)
Lemma age_loop_le_value (k : nat) (recv nonce : list Z) (age : Z) :
  age_loop k recv nonce age
  = age * 256 ^ Z.of_nat k
    + (le_value (firstn k recv) - le_value (firstn k nonce)).
Proof.
  revert age. induction k as [|k IH]; intros age.
  - simpl. lia.
  - cbn [age_loop]. rewrite IH, !le_value_firstn_S.
    rewrite (Nat2Z.inj_succ k), Z.pow_succ_r by lia. ring.
Qed.

Lemma nth_is_byte (l : list Z) (i : nat) : Forall is_byte l -> is_byte (nth i l 0).
Proof.
  intros H. destruct (Nat.lt_ge_cases i (length l)) as [Hi|Hi].
  - rewrite Forall_forall in H. apply H, nth_In, Hi.
  - rewrite nth_overflow by exact Hi. unfold is_byte. lia.
Qed.

(** No value [*age] takes in the loop leaves the range of [int64_t]. *)
Lemma age_loop_values_bound (k : nat) (recv nonce : list Z) (age B : Z) :
  Forall is_byte recv -> Forall is_byte nonce ->
  1 <= B -> Z.abs age <= B - 1 ->
  Forall (fun v => Z.abs v <= B * 256 ^ Z.of_nat k - 1)
         (age_loop_values k recv nonce age).
Proof.
  intros Hr Hn. revert age B.
  induction k as [|k IH]; intros age B HB Hage; [constructor|].
  cbn [age_loop_values]. cbv zeta.
  pose proof (nth_is_byte recv k Hr) as Br.
  pose proof (nth_is_byte nonce k Hn) as Bn.
  unfold is_byte in Br, Bn.
  assert (P : 0 < 256 ^ Z.of_nat k) by (apply Z.pow_pos_nonneg; lia).
  rewrite (Nat2Z.inj_succ k), Z.pow_succ_r by lia.
  assert (A2 : Z.abs (age * 256 + (nth k recv 0 - nth k nonce 0)) <= B * 256 - 1) by lia.
  constructor; [nia|]. constructor; [nia|].
  specialize (IH _ (B * 256) ltac:(lia) A2).
  eapply Forall_impl; [|exact IH]. cbv beta. intros v Hv. nia.
Qed.

Lemma age_loop_no_overflow (recv nonce : list Z) :
  Forall is_byte recv -> Forall is_byte nonce ->
  Forall fits_int64 (age_loop_values COMMON_NONCEBYTES recv nonce 0).
Proof.
  intros Hr Hn.
  pose proof (age_loop_values_bound COMMON_NONCEBYTES recv nonce 0 1 Hr Hn
                ltac:(lia) ltac:(simpl; lia)) as H.
  eapply Forall_impl; [|exact H]. cbv beta. intros v Hv.
  unfold fits_int64. change (256 ^ Z.of_nat COMMON_NONCEBYTES) with (2 ^ 48) in Hv.
  lia.
Qed.

Lemma firstn_nonce (n : list Z) : nonce_wf n -> firstn COMMON_NONCEBYTES n = n.
Proof. intros [H _]. rewrite <- H. apply firstn_all. Qed.

Lemma land_1_mod (x : Z) : Z.land x 1 = x mod 2.
Proof. change 1 with (Z.ones 1). rewrite Z.land_ones by lia. reflexivity. Qed.

Lemma le_value_parity (l : list Z) : le_value l mod 2 = nth 0%nat l 0 mod 2.
Proof.
  destruct l as [|b t]; [reflexivity|].
  cbn [le_value nth].
  replace (b + 256 * le_value t) with (b + (128 * le_value t) * 2) by ring.
  apply Z.mod_add. lia.
Qed.

(** With equal parity the difference of the two nonces is even, so the
    division by 2 is exact. *)
Lemma age_exact (recv nonce : list Z) :
  Z.land (nth 0%nat nonce 0) 1 = Z.land (nth 0%nat recv 0) 1 ->
  2 * Z.quot (le_value recv - le_value nonce) 2 = le_value recv - le_value nonce.
Proof.
  rewrite !land_1_mod, <- !le_value_parity. intros H.
  assert (E : (le_value recv - le_value nonce) mod 2 = 0).
  { rewrite Zminus_mod, H, Z.sub_diag. reflexivity. }
  apply Z.mod_divide in E; [|lia]. destruct E as [q ->].
  rewrite Z.quot_mul by lia. ring.
Qed.

(** C3 (as amended): with [reorder_time * 1000] in the range of [int], so
    that the product [(int)reorder_time*1000] of the code is that number,
    [fastd_method_is_nonce_valid] accepts a candidate nonce
    if and only if its low-bit parity matches that of [receive_nonce] and
    either it is newer than the last accepted nonce ([age < 0]), or it is
    older by at most [reorder_count] positions and the last accepted packet
    is no more than [reorder_time * 1000] units of [timespec_diff] old.  Here
    [age] is the little-endian value of [receive_nonce] minus that of the
    candidate, divided by 2 (exactly, when the parities match); it is what
    [*age] holds on acceptance, and the loop never leaves [int64_t]. *)
Theorem C3_nonce_valid_window (T : target)
    (timespec_diff : timespec -> timespec -> Z)
    (ctx : fastd_context_t) (session : fastd_method_common_t)
    (nonce : list Z) (age0 : Z) :
  nonce_wf nonce ->
  nonce_wf (receive_nonce session) ->
  0 <= reorder_time (conf ctx) * 1000 <= INT_MAX ->
  let age := Z.quot (le_value (receive_nonce session) - le_value nonce) 2 in
  let elapsed := timespec_diff (now ctx) (receive_last session) in
  let r := fastd_method_is_nonce_valid T timespec_diff ctx session nonce age0 in
  (fst r = true <->
   Z.land (nth 0%nat nonce 0) 1 = Z.land (nth 0%nat (receive_nonce session) 0) 1
   /\ (age < 0
       \/ (0 <= age <= reorder_count (conf ctx)
           /\ elapsed <= reorder_time (conf ctx) * 1000)))
  /\ (fst r = true ->
      snd r = age /\ 2 * age = le_value (receive_nonce session) - le_value nonce)
  /\ Forall fits_int64
        (age_loop_values COMMON_NONCEBYTES (receive_nonce session) nonce 0).
Proof.
  intros Hn Hr Hrt age elapsed r.
  assert (Hloop : age_loop COMMON_NONCEBYTES (receive_nonce session) nonce 0
                  = le_value (receive_nonce session) - le_value nonce).
  { rewrite age_loop_le_value, !firstn_nonce by assumption. ring. }
  assert (Hmul : mul_int T (to_int (reorder_time (conf ctx))) 1000
                 = reorder_time (conf ctx) * 1000).
  { rewrite to_int_id by (unfold INT_MIN, INT_MAX in *; lia).
    apply mul_int_exact. unfold INT_MIN, INT_MAX in *. lia. }
  assert (R : r = fastd_method_is_nonce_valid T timespec_diff ctx session nonce age0)
    by reflexivity.
  unfold fastd_method_is_nonce_valid in R. rewrite Hloop, Hmul in R.
  fold age elapsed in R.
  split; [|split].
  - destruct (Z.land (nth 0%nat nonce 0) 1
              =? Z.land (nth 0%nat (receive_nonce session) 0) 1) eqn:P;
      cbn [negb] in R.
    + apply Z.eqb_eq in P.
      destruct (0 <=? age) eqn:A0.
      * apply Z.leb_le in A0.
        destruct (elapsed >? reorder_time (conf ctx) * 1000) eqn:El.
        -- rewrite R. cbn [fst]. apply Z.gtb_lt in El.
           split; [discriminate|]. intros [_ [H|[_ H]]]; lia.
        -- rewrite Z.gtb_ltb in El. apply Z.ltb_ge in El.
           destruct (age >? reorder_count (conf ctx)) eqn:Rc.
           ++ rewrite R. cbn [fst]. apply Z.gtb_lt in Rc.
              split; [discriminate|]. intros [_ [H|[H _]]]; lia.
           ++ rewrite Z.gtb_ltb in Rc. apply Z.ltb_ge in Rc.
              rewrite R. cbn [fst]. split; [|reflexivity].
              intros _. split; [exact P|]. right. lia.
      * apply Z.leb_gt in A0. rewrite R. cbn [fst].
        split; [|reflexivity]. intros _. split; [exact P|]. left. exact A0.
    + apply Z.eqb_neq in P. rewrite R. cbn [fst].
      split; [discriminate|]. intros [H _]. contradiction.
  - intros Hacc.
    destruct (Z.land (nth 0%nat nonce 0) 1
              =? Z.land (nth 0%nat (receive_nonce session) 0) 1) eqn:P;
      cbn [negb] in R.
    + apply Z.eqb_eq in P. split; [|apply age_exact, P].
      destruct (0 <=? age); [|rewrite R; reflexivity].
      destruct (elapsed >? reorder_time (conf ctx) * 1000);
        [rewrite R; reflexivity|].
      destruct (age >? reorder_count (conf ctx)); rewrite R; reflexivity.
    + rewrite R in Hacc. discriminate.
  - apply age_loop_no_overflow; [apply Hr | apply Hn].
Qed.

Ltac nonce_wf_tac :=
  split;
  [ reflexivity
  | repeat (apply Forall_cons; [unfold is_byte; cbn; lia|]); apply Forall_nil ].

Lemma C3_nonce_valid_window_witness :
  nonce_wf (nonce_of 9)
  /\ nonce_wf (receive_nonce (session_at 11 (at_sec 100) 0))
  /\ 0 <= reorder_time (conf (ctx_at (at_sec 105))) * 1000 <= INT_MAX
  /\ fst (fastd_method_is_nonce_valid x86_64 timespec_diff_ms
            (ctx_at (at_sec 105)) (session_at 11 (at_sec 100) 0)
            (nonce_of 9) 0) = true.
Proof.
  assert (W9 : nonce_wf (nonce_of 9))
    by nonce_wf_tac.
  assert (W11 : nonce_wf (receive_nonce (session_at 11 (at_sec 100) 0)))
    by nonce_wf_tac.
  assert (R : 0 <= reorder_time (conf (ctx_at (at_sec 105))) * 1000 <= INT_MAX)
    by (unfold INT_MAX; simpl; lia).
  split; [exact W9|]. split; [exact W11|]. split; [exact R|].
  apply (proj1 (C3_nonce_valid_window x86_64 timespec_diff_ms
                  (ctx_at (at_sec 105)) (session_at 11 (at_sec 100) 0)
                  (nonce_of 9) 0 W9 W11 R)).
  split; [reflexivity|]. right. vm_compute. repeat split; discriminate.
Defined.

(** C3 as stated fails in both directions.  A newer nonce is accepted however
    long ago the last packet was accepted (here 100 s, with [reorder_time]
    10), while the statement rejects it; and a nonce one position older is
    rejected once the last accepted packet is too old, while the statement
    accepts every nonce within [reorder_count] positions. *)
Lemma C3_counterexample :
  (fst (fastd_method_is_nonce_valid x86_64 timespec_diff_ms
          (ctx_at (at_sec 200)) (session_at 11 (at_sec 100) 0)
          (nonce_of 13) 0) = true
   /\ is_nonce_valid_spec
        (timespec_diff_ms (at_sec 200) (at_sec 100)) default_conf
        (nonce_of 11) (nonce_of 13) = false)
  /\ (fst (fastd_method_is_nonce_valid x86_64 timespec_diff_ms
             (ctx_at (at_sec 200)) (session_at 11 (at_sec 100) 0)
             (nonce_of 9) 0) = false
      /\ is_nonce_valid_spec
           (timespec_diff_ms (at_sec 200) (at_sec 100)) default_conf
           (nonce_of 11) (nonce_of 9) = true).
Proof. repeat split; vm_compute; reflexivity. Qed.

(** Testing and setting a single bit with [&] and [|]. *)
Lemma land_pow2_testbit (a n : Z) :
  0 <= n -> (Z.land a (2 ^ n) =? 0) = negb (Z.testbit a n).
Proof.
  intros Hn. destruct (Z.testbit a n) eqn:B; cbn [negb].
  - apply Z.eqb_neq. intros E.
    assert (F : Z.testbit (Z.land a (2 ^ n)) n = true)
      by (rewrite Z.land_spec, B, Z.pow2_bits_true by lia; reflexivity).
    rewrite E, Z.bits_0 in F. discriminate.
  - apply Z.eqb_eq. apply Z.bits_inj'. intros m Hm.
    rewrite Z.land_spec, Z.bits_0.
    destruct (Z.eq_dec m n) as [->|Ne].
    + rewrite B. reflexivity.
    + rewrite Z.pow2_bits_false by lia. apply andb_false_r.
Qed.

Lemma lor_pow2_setbit (a n : Z) : Z.lor a (2 ^ n) = Z.setbit a n.
Proof. rewrite Z.setbit_spec'. reflexivity. Qed.

Lemma single_bit_as_u64 T (age : Z) :
  1 <= age <= 31 -> to_u64 (shl_int T 1 (age - 1)) = 2 ^ (age - 1).
Proof.
  intros H. rewrite shl_int_one by lia.
  assert (0 < 2 ^ (age - 1) <= 2 ^ 30)
    by (split; [apply Z.pow_pos_nonneg; lia | apply Z.pow_le_mono_r; lia]).
  apply to_u64_small. lia.
Qed.

(** X28: the part of the reorder check the code carries out as specified,
    on every target.  For [0 <= age <= 31] [fastd_method_reorder_check] is the
    specified check: [age = 0] is rejected and the state left unchanged; for
    [1 <= age <= 31] the candidate is rejected and the state left unchanged
    if bit [age-1] is set, and otherwise bit [age-1] is set and the candidate
    accepted.  For a newer nonce ([age < 0]) the candidate is accepted,
    [receive_nonce] is replaced with it and [receive_last] set to the current
    time, the other fields but the bitmap are left alone, and for [age = -1]
    bit 0 of the bitmap is set. *)
Theorem reorder_check_window (T : target) (ctx : fastd_context_t)
    (session : fastd_method_common_t) (nonce : list Z) (age : Z) :
  age <= 31 ->
  let r := fastd_method_reorder_check T ctx session nonce age in
  (0 <= age -> r = reorder_check_spec ctx session nonce age)
  /\ (age < 0 ->
      fst r = true
      /\ receive_nonce (snd r) = firstn COMMON_NONCEBYTES nonce
      /\ receive_last (snd r) = now ctx
      /\ set_reorder_seen (snd r) 0
         = set_reorder_seen (snd (reorder_check_spec ctx session nonce age)) 0)
  /\ (age = -1 -> Z.testbit (receive_reorder_seen (snd r)) 0 = true).
Proof.
  intros Hage r. split; [|split].
  - intros H0. subst r. unfold fastd_method_reorder_check, reorder_check_spec.
    replace (age <? 0) with false by (symmetry; apply Z.ltb_ge; lia).
    destruct (age =? 0) eqn:A0; [reflexivity|]. apply Z.eqb_neq in A0.
    cbn [orb]. rewrite single_bit_as_u64 by lia.
    rewrite land_pow2_testbit by lia. rewrite negb_involutive.
    destruct (Z.testbit (receive_reorder_seen session) (age - 1)); [reflexivity|].
    rewrite lor_pow2_setbit. reflexivity.
  - intros Hneg. subst r. unfold fastd_method_reorder_check, reorder_check_spec.
    replace (age <? 0) with true by (symmetry; apply Z.ltb_lt; lia).
    cbn [fst snd receive_nonce receive_last]. repeat split; reflexivity.
  - intros ->. subst r. unfold fastd_method_reorder_check.
    cbn [Z.ltb Z.compare fst snd receive_reorder_seen].
    rewrite Z.lor_spec. apply orb_true_r.
Qed.

Lemma reorder_check_window_witness :
  3 <= 31
  /\ fastd_method_reorder_check x86_64 (ctx_at (at_sec 105))
       (session_at 11 (at_sec 100) 1) (nonce_of 5) 3
     = reorder_check_spec (ctx_at (at_sec 105))
         (session_at 11 (at_sec 100) 1) (nonce_of 5) 3.
Proof.
  split; [lia|].
  apply (proj1 (reorder_check_window x86_64 (ctx_at (at_sec 105))
                  (session_at 11 (at_sec 100) 1) (nonce_of 5) 3 ltac:(lia))).
  lia.
Defined.

(** Whatever the target computes for [1 << 32], it is an [int]: converted to
    [uint64_t] it cannot be bit 32 alone, so at [age = 33] an empty window
    never becomes the window the specified check yields. *)
Lemma reorder_check_age_33_any_target (T : target) (ctx : fastd_context_t)
    (session : fastd_method_common_t) (nonce : list Z) :
  receive_reorder_seen session = 0 ->
  fastd_method_reorder_check T ctx session nonce 33
  <> reorder_check_spec ctx session nonce 33.
Proof.
  intros Hs E. unfold fastd_method_reorder_check, reorder_check_spec in E.
  rewrite Hs in E. cbn [Z.ltb Z.eqb Z.compare orb Z.sub Z.add Z.opp Z.pos_sub
                        Z.succ_double Z.pred_double Z.double Pos.pred_double
                        Z.land Z.testbit negb] in E.
  change (33 - 1) with 32 in E.
  pose proof (int_as_u64 _ (shl_int_range T 1 32)) as B.
  apply (f_equal (fun p => receive_reorder_seen (snd p))) in E.
  cbn [snd set_reorder_seen receive_reorder_seen Z.lor] in E.
  change (Z.setbit 0 32) with (2 ^ 32) in E.
  assert (F : to_u64 (shl_int T 1 32) = 2 ^ 32) by (rewrite <- E; reflexivity).
  lia.
Qed.

(** C2 (failing inputs), on x86-64.  For a newer nonce the code shifts by the
    negative [age] itself, not by its magnitude: with bit 2 set and
    [age = -1] the window becomes 1, where the specified check gives 3.  For
    an older nonce the bit is computed in [int]: at [age = 33] with an empty
    window the code sets bit 0, where the specified check sets bit 32; a
    packet one position behind the newest, never seen before, is then
    rejected as a duplicate. *)
Theorem C2_reorder_check_slips :
  (receive_reorder_seen
     (snd (fastd_method_reorder_check x86_64 (ctx_at (at_sec 105))
             (session_at 11 (at_sec 100) 4) (nonce_of 13) (-1))) = 1
   /\ receive_reorder_seen
        (snd (reorder_check_spec (ctx_at (at_sec 105))
                (session_at 11 (at_sec 100) 4) (nonce_of 13) (-1))) = 3)
  /\ (receive_reorder_seen
        (snd (fastd_method_reorder_check x86_64 (ctx_at (at_sec 105))
                (session_at 111 (at_sec 100) 0) (nonce_of 45) 33)) = 1
      /\ receive_reorder_seen
           (snd (reorder_check_spec (ctx_at (at_sec 105))
                   (session_at 111 (at_sec 100) 0) (nonce_of 45) 33))
         = 2 ^ 32)
  /\ fst (nonce_checks x86_64 timespec_diff_ms default_conf
            (session_at 111 (at_sec 100) 0)
            [(at_sec 101, nonce_of 45); (at_sec 102, nonce_of 109)])
     = [true; false].
Proof. repeat split; vm_compute; reflexivity. Qed.

(** On acceptance [*age] holds half the difference of the nonces. *)
Lemma is_nonce_valid_age (T : target) (timespec_diff : timespec -> timespec -> Z)
    (ctx : fastd_context_t) (session : fastd_method_common_t)
    (nonce : list Z) (age0 age : Z) :
  nonce_wf nonce -> nonce_wf (receive_nonce session) ->
  fastd_method_is_nonce_valid T timespec_diff ctx session nonce age0 = (true, age) ->
  age = Z.quot (le_value (receive_nonce session) - le_value nonce) 2.
Proof.
  intros Hn Hr V. unfold fastd_method_is_nonce_valid in V.
  rewrite age_loop_le_value, !firstn_nonce in V by assumption.
  rewrite Z.mul_0_l, Z.add_0_l in V.
  destruct (negb _); [discriminate|].
  destruct (0 <=? _); [|now inversion V].
  destruct (_ >? _); [discriminate|].
  destruct (_ >? _); [discriminate|]. now inversion V.
Qed.

(** Whatever [fastd_method_is_nonce_valid] answers, a following reorder check
    that rejects makes the whole check reject. *)
Lemma nonce_check_rejects (T : target) (timespec_diff : timespec -> timespec -> Z)
    (ctx : fastd_context_t) (session : fastd_method_common_t) (nonce : list Z) :
  (forall age,
      fastd_method_is_nonce_valid T timespec_diff ctx session nonce 0 = (true, age) ->
      fst (fastd_method_reorder_check T ctx session nonce age) = false) ->
  fst (nonce_check T timespec_diff ctx session nonce) = false.
Proof.
  intros H. unfold nonce_check.
  destruct (fastd_method_is_nonce_valid T timespec_diff ctx session nonce 0)
    as [[|] age] eqn:V; [apply H; reflexivity | reflexivity].
Qed.

(** The part of at-most-once that holds on every target: a nonce accepted as
    the newest, or at most 31 positions behind it, is rejected when it is
    presented again right away. *)
Lemma accepted_nonce_rejected_next (T : target)
    (timespec_diff : timespec -> timespec -> Z)
    (ctx ctx' : fastd_context_t) (session session' : fastd_method_common_t)
    (nonce : list Z) :
  nonce_wf nonce -> nonce_wf (receive_nonce session) ->
  le_value (receive_nonce session) - le_value nonce < 64 ->
  nonce_check T timespec_diff ctx session nonce = (true, session') ->
  fst (nonce_check T timespec_diff ctx' session' nonce) = false.
Proof.
  intros Hn Hr Hnear H. unfold nonce_check in H.
  destruct (fastd_method_is_nonce_valid T timespec_diff ctx session nonce 0)
    as [ok age] eqn:V.
  destruct ok; [|discriminate].
  pose proof (is_nonce_valid_age _ _ _ _ _ _ _ Hn Hr V) as Q.
  assert (A31 : age <= 31).
  { rewrite Q.
    destruct (Z_lt_le_dec (le_value (receive_nonce session) - le_value nonce) 0).
    - apply Z.quot_le_upper_bound; lia.
    - apply Z.lt_succ_r. apply Z.quot_lt_upper_bound; lia. }
  unfold fastd_method_reorder_check in H.
  destruct (age <? 0) eqn:A.
  - (* accepted as the newest: it is now [receive_nonce] *)
    apply (f_equal snd) in H. cbn [snd] in H. subst session'.
    apply nonce_check_rejects. intros age' V'.
    assert (Hr' : nonce_wf (firstn COMMON_NONCEBYTES nonce))
      by (rewrite firstn_nonce; assumption).
    apply is_nonce_valid_age in V'; [|assumption|exact Hr'].
    cbn [receive_nonce] in V'. rewrite (firstn_nonce _ Hn), Z.sub_diag in V'.
    subst age'. reflexivity.
  - (* accepted inside the window: its bit is now set *)
    apply Z.ltb_ge in A.
    destruct (age =? 0) eqn:A0; [discriminate|]. apply Z.eqb_neq in A0.
    cbn [orb] in H. rewrite single_bit_as_u64 in H by lia.
    destruct (negb _); [discriminate|].
    apply (f_equal snd) in H. cbn [snd] in H. subst session'.
    apply nonce_check_rejects. intros age' V'.
    apply is_nonce_valid_age in V'; [|assumption|exact Hr].
    cbn [receive_nonce set_reorder_seen] in V'. rewrite <- Q in V'. subst age'.
    unfold fastd_method_reorder_check.
    replace (age <? 0) with false by (symmetry; apply Z.ltb_ge; lia).
    replace (age =? 0) with false by (symmetry; apply Z.eqb_neq; lia).
    cbn [orb set_reorder_seen receive_reorder_seen].
    rewrite single_bit_as_u64 by lia.
    rewrite land_pow2_testbit by lia.
    rewrite Z.lor_spec, Z.pow2_bits_true by lia.
    rewrite orb_true_r. reflexivity.
Qed.

Lemma accepted_nonce_rejected_next_witness :
  nonce_wf (nonce_of 3)
  /\ nonce_wf (receive_nonce (session_at 1 (at_sec 100) 0))
  /\ fst (nonce_check x86_64 timespec_diff_ms (ctx_at (at_sec 102))
            (snd (nonce_check x86_64 timespec_diff_ms (ctx_at (at_sec 101))
                    (session_at 1 (at_sec 100) 0) (nonce_of 3)))
            (nonce_of 3)) = false.
Proof.
  assert (W3 : nonce_wf (nonce_of 3)) by nonce_wf_tac.
  assert (W1 : nonce_wf (receive_nonce (session_at 1 (at_sec 100) 0)))
    by nonce_wf_tac.
  split; [exact W3|]. split; [exact W1|].
  apply (accepted_nonce_rejected_next x86_64 timespec_diff_ms
           (ctx_at (at_sec 101)) (ctx_at (at_sec 102))
           (session_at 1 (at_sec 100) 0) _ (nonce_of 3) W3 W1).
  - vm_compute. reflexivity.
  - vm_compute. reflexivity.
Defined.

(** C1 (failing input): on x86-64 a responder's fresh session accepts the
    nonces 3 and 7 and then accepts 3 a second time.  Accepting 7 shifts the
    window by the negative [age] (-2, taken as 62 by the shift instruction)
    and ores in [1 >> -1] (0), which wipes the record of nonce 3. *)
Theorem C1_replayed_nonce_accepted :
  fst (nonce_checks x86_64 timespec_diff_ms default_conf
         (fastd_method_common_init (fun _ _ => 0) (ctx_at (at_sec 100)) false)
         [(at_sec 101, nonce_of 3); (at_sec 102, nonce_of 7);
          (at_sec 103, nonce_of 3)])
  = [true; true; true].
Proof. vm_compute. reflexivity. Qed.

End CommonFacts.

(** ** The protocol handler *)

Module ProtocolFacts.
Import Protocol.

Lemma new_events_app (c c' : fastd_context) (evs : list event) :
  trace c' = trace c ++ evs -> new_events c c' = evs.
Proof.
  intros H. unfold new_events. rewrite H.
  rewrite skipn_app, skipn_all, Nat.sub_diag. reflexivity.
Qed.

Lemma buffer_eqb_refl (b : fastd_buffer) : buffer_eqb b b = true.
Proof.
  unfold buffer_eqb. rewrite Nat.eqb_refl.
  destruct (list_eq_dec Z.eq_dec (data b) (data b)); [reflexivity|contradiction].
Qed.

Lemma take_buffer_head (b : fastd_buffer) (held : list fastd_buffer) :
  take_buffer b (b :: held) = Some held.
Proof. cbn [take_buffer]. rewrite buffer_eqb_refl. reflexivity. Qed.

Lemma ledger_app (held : list fastd_buffer) (e1 e2 : list event) :
  ledger held (e1 ++ e2)
  = match ledger held e1 with
    | Some held' => ledger held' e2
    | None => None
    end.
Proof.
  revert held. induction e1 as [|e e1 IH]; intros held; [reflexivity|].
  cbn [app ledger].
  destruct e; try apply IH;
    try (destruct (take_buffer b held); [|reflexivity];
         try destruct out; apply IH).
Qed.

Ltac ledger_tac :=
  repeat (cbn [app ledger]; rewrite ?take_buffer_head); reflexivity.

(** The end of [protocol_handle_recv] once the decrypt results are known. *)
Ltac recv_end Ht Hc :=
  match goal with
  | |- context [snd ?res] =>
      destruct (snd res) as [?o|]; cbn [is_set negb orb recv_final] in *;
      [ match goal with
        | |- context [negb (len ?x =? 0)] =>
            let L := fresh "L" in
            destruct (negb (len x =? 0)) eqn:L;
            [apply negb_true_iff in L | apply negb_false_iff in L];
            rewrite L
        end
      | ];
      cbn [fst snd trace emit];
      (split;
       [ rewrite Ht; cbn [trace emit app]; rewrite <- ?app_assoc; reflexivity
       | exact Hc ])
  end.

Section HandlerFacts.
Context {M : Type}.
Variable E : environment M.

(** *** [check_session_refresh] *)

Lemma check_session_refresh_spec (ctx : fastd_context)
    (ps : fastd_protocol_peer_state M) :
  exists evs b,
    check_session_refresh E ctx ps
    = (emits evs ctx,
       set_slot ps CurrentSession (set_refreshing (session ps) b))
    /\ (evs = [] \/ evs = [EvScheduleHandshake 0]).
Proof.
  unfold check_session_refresh.
  destruct (negb (refreshing (session ps)) && _ && _).
  - exists [EvScheduleHandshake 0], true. split; [reflexivity|now right].
  - exists [], (refreshing (session ps)). split; [|now left].
    f_equal.
    + destruct ctx; unfold emits; cbn. now rewrite app_nil_r.
    + destruct ps as [o [c r m]]; reflexivity.
Qed.

(** *** [protocol_send] *)

(** [protocol_send] gives up its buffer exactly once, adds only events of
    sending, and leaves the peer with a protocol state if it had one, the
    [handshakes_cleaned] marks untouched. *)
Lemma protocol_send_spec (ctx : fastd_context) (peer : fastd_peer M)
    (buffer : fastd_buffer) :
  exists evs,
    trace (fst (protocol_send E ctx peer buffer)) = trace ctx ++ evs
    /\ disposed_once buffer evs
    /\ forallb is_send_event evs = true
    /\ now (fst (protocol_send E ctx peer buffer)) = now ctx
    /\ conf (fst (protocol_send E ctx peer buffer)) = conf ctx
    /\ buffers_allocated (fst (protocol_send E ctx peer buffer))
       = buffers_allocated ctx
    /\ (forall ps, peer_protocol_state peer = Some ps ->
        exists ps',
          peer_protocol_state (snd (protocol_send E ctx peer buffer)) = Some ps'
          /\ handshakes_cleaned (session ps') = handshakes_cleaned (session ps)).
Proof.
  unfold protocol_send.
  destruct (peer_protocol_state peer) as [ps|] eqn:PS.
  2:{ exists [EvBufferFree buffer]. cbn [fst snd emit trace now conf buffers_allocated].
      repeat split; try reflexivity.
      - intros held. ledger_tac.
      - intros ps H; discriminate. }
  destruct (negb (is_session_valid E ctx (session ps))).
  { exists [EvBufferFree buffer]. cbn [fst snd emit trace now conf buffers_allocated].
    repeat split; try reflexivity.
    - intros held. ledger_tac.
    - intros ps0 H. exists ps0. rewrite PS. injection H as ->. now split. }
  destruct (check_session_refresh_spec ctx ps) as (ev0 & b0 & -> & Hev0).
  set (ps1 := set_slot ps CurrentSession (set_refreshing (session ps) b0)).
  set (ctx1 := emits ev0 ctx).
  set (slot := if _ && _ then OldSession else CurrentSession).
  destruct (encrypt (method E) (now ctx1) (method_state (get_slot ps1 slot)) buffer)
    as [m out].
  subst ctx1.
  destruct out as [send_buffer|].
  - exists (ev0 ++ [EvEncrypt slot buffer (Some send_buffer);
                    EvSend (address peer) send_buffer; EvDeletePeerKeepalives;
                    EvScheduleKeepalive
                      (to_int (to_u32 (keepalive_interval (conf ctx) * 1000)))]).
    cbn [fst snd emit emits trace now conf buffers_allocated].
    split; [now rewrite <- !app_assoc|].
    split.
    { split; [intros held|]; destruct Hev0 as [->| ->];
        [ledger_tac|ledger_tac|reflexivity|reflexivity]. }
    split; [destruct Hev0 as [->| ->]; reflexivity|].
    repeat split; try reflexivity.
    intros ps0 H. injection H as <-. eexists. split; [reflexivity|].
    subst ps1. destruct slot; reflexivity.
  - exists (ev0 ++ [EvEncrypt slot buffer None; EvBufferFree buffer]).
    cbn [fst snd emit emits trace now conf buffers_allocated].
    split; [now rewrite <- !app_assoc|].
    split.
    { split; [intros held|]; destruct Hev0 as [->| ->];
        [ledger_tac|ledger_tac|reflexivity|reflexivity]. }
    split; [destruct Hev0 as [->| ->]; reflexivity|].
    repeat split; try reflexivity.
    intros ps0 H. injection H as <-. eexists. split; [reflexivity|].
    subst ps1. destruct slot; reflexivity.
Qed.

Lemma protocol_send_keeps_old (ctx : fastd_context) (peer : fastd_peer M)
    (buffer : fastd_buffer) (ps ps' : fastd_protocol_peer_state M) :
  keeps_pointers (method E) ->
  peer_protocol_state peer = Some ps ->
  is_set (method_state (old_session ps)) = true ->
  peer_protocol_state (snd (protocol_send E ctx peer buffer)) = Some ps' ->
  is_set (method_state (old_session ps')) = true.
Proof.
  intros KP Hp Hs. unfold protocol_send. rewrite Hp.
  destruct (negb (is_session_valid E ctx (session ps))).
  { cbn [snd]. rewrite Hp. intros H. injection H as <-. exact Hs. }
  destruct (check_session_refresh_spec ctx ps) as (ev0 & b0 & -> & _).
  set (ps1 := set_slot ps CurrentSession (set_refreshing (session ps) b0)).
  set (slot := if _ && _ then OldSession else CurrentSession).
  assert (Q : is_set (method_state
                        (old_session
                           (set_slot ps1 slot
                              (set_method_state (get_slot ps1 slot)
                                 (fst (encrypt (method E) (now (emits ev0 ctx))
                                         (method_state (get_slot ps1 slot))
                                         buffer)))))) = true).
  { destruct slot; cbn [set_slot old_session set_method_state method_state
                        get_slot]; [|exact Hs].
    subst ps1. cbn [set_slot old_session].
    destruct (method_state (old_session ps)) as [st|]; [|discriminate Hs].
    apply KP. }
  destruct (encrypt (method E) (now (emits ev0 ctx))
              (method_state (get_slot ps1 slot)) buffer) as [m out].
  cbn [fst] in Q.
  destruct out; cbn [snd set_peer_state peer_protocol_state];
    intros H; injection H as <-; exact Q.
Qed.

(** *** After a successful decrypt with the current session *)

(** The calls of [current_session_confirmed]: the pending handshakes are
    deleted if [handshakes_cleaned] was unset, then, if moreover the local
    side is the initiator, a buffer of length 0 is allocated and handed to
    [protocol_send]; the old session ends up freed and unset, the current one
    marked. *)
Lemma current_session_confirmed_spec (ctx : fastd_context) (peer : fastd_peer M)
    (ps : fastd_protocol_peer_state M) :
  let r := current_session_confirmed E ctx peer ps in
  let cleaned := handshakes_cleaned (session ps) in
  let ini :=
    session_is_initiator (method E) (now ctx) (method_state (session ps)) in
  exists sendevs tail ps',
    trace (fst r)
    = trace ctx ++ (if cleaned then [] else [EvDeletePeerHandshakes])
      ++ sendevs ++ tail
    /\ peer_protocol_state (snd r) = Some ps'
    /\ method_state (old_session ps') = None
    /\ handshakes_cleaned (session ps') = true
    /\ forallb is_cleanup_event tail = true
    /\ (keeps_pointers (method E) ->
        is_set (method_state (old_session ps)) = true ->
        In (EvSessionFree OldSession true) tail)
    /\ buffer_neutral sendevs
    /\ (if negb cleaned && ini
        then exists c p b,
            data b = []
            /\ sendevs
               = EvBufferAlloc b :: new_events c (fst (protocol_send E c p b))
            /\ forallb is_send_event
                 (new_events c (fst (protocol_send E c p b))) = true
        else sendevs = []).
Proof.
  intros r cleaned ini. subst r. unfold current_session_confirmed.
  fold cleaned.
  (* the cleanup that follows in every case *)
  assert (Tail : forall (c : fastd_context) (p : fastd_peer M)
                        (ps1 : fastd_protocol_peer_state M),
             peer_protocol_state p = Some ps1 ->
             handshakes_cleaned (session ps1) = true ->
             exists tail ps',
               trace (fst (let '(ctx2, ps2) :=
                             match method_state (old_session ps1) with
                             | Some _ =>
                                 (emit (EvSessionFree OldSession true) c,
                                  set_slot ps1 OldSession
                                    (set_method_state (old_session ps1) None))
                             | None => (c, ps1)
                             end in
                           let '(ctx3, ps3) := check_session_refresh E ctx2 ps2 in
                           (ctx3, set_peer_state p ps3)))
               = trace c ++ tail
               /\ peer_protocol_state
                    (snd (let '(ctx2, ps2) :=
                            match method_state (old_session ps1) with
                            | Some _ =>
                                (emit (EvSessionFree OldSession true) c,
                                 set_slot ps1 OldSession
                                   (set_method_state (old_session ps1) None))
                            | None => (c, ps1)
                            end in
                          let '(ctx3, ps3) := check_session_refresh E ctx2 ps2 in
                          (ctx3, set_peer_state p ps3))) = Some ps'
               /\ method_state (old_session ps') = None
               /\ handshakes_cleaned (session ps') = true
               /\ forallb is_cleanup_event tail = true
               /\ (is_set (method_state (old_session ps1)) = true ->
                   In (EvSessionFree OldSession true) tail)).
  { intros c p ps1 Hp Hc.
    destruct (method_state (old_session ps1)) as [m|] eqn:Old.
    - destruct (check_session_refresh_spec
                  (emit (EvSessionFree OldSession true) c)
                  (set_slot ps1 OldSession
                     (set_method_state (old_session ps1) None)))
        as (ev & b & -> & Hev).
      exists (EvSessionFree OldSession true :: ev). eexists.
      cbn [fst snd emit emits trace set_peer_state peer_protocol_state].
      split; [now rewrite <- app_assoc|]. split; [reflexivity|].
      cbn. split; [reflexivity|]. split; [exact Hc|].
      split; [destruct Hev as [->| ->]; reflexivity|].
      intros _. left. reflexivity.
    - destruct (check_session_refresh_spec c ps1) as (ev & b & -> & Hev).
      exists ev. eexists.
      cbn [fst snd emit emits trace set_peer_state peer_protocol_state].
      split; [reflexivity|]. split; [reflexivity|].
      cbn. split; [exact Old|]. split; [exact Hc|].
      split; [destruct Hev as [->| ->]; reflexivity|].
      intros H. discriminate H. }
  destruct cleaned eqn:Cl; cbn [negb andb].
  - (* already marked *)
    cbn [set_peer_state peer_protocol_state].
    destruct (Tail ctx (set_peer_state peer ps) ps eq_refl Cl)
      as (tail & ps' & Ht & Hp & Ho & Hc & Hf & Hfree).
    exists [], tail, ps'. cbn [app].
    split; [exact Ht|]. split; [exact Hp|]. split; [exact Ho|].
    split; [exact Hc|]. split; [exact Hf|].
    split; [intros _; exact Hfree|].
    split; [split; [intros held|]; reflexivity | reflexivity].
  - set (ps0 := set_slot ps CurrentSession
                  (set_handshakes_cleaned (session ps) true)).
    change (method_state (session ps0)) with (method_state (session ps)).
    change (now (emit EvDeletePeerHandshakes ctx)) with (now ctx).
    fold ini. destruct ini eqn:Ini.
    + (* initiator: the confirmation packet *)
      cbn [fastd_buffer_alloc].
      set (b := {| base := buffers_allocated (emit EvDeletePeerHandshakes ctx);
                   data := [] |}).
      match goal with
      | |- context [protocol_send E ?c ?p b] =>
          set (c0 := c); set (p0 := p)
      end.
      destruct (protocol_send_spec c0 p0 b)
        as (sev & Hst & Hsl & Hsa & _ & _ & _ & Hsp).
      destruct (Hsp ps0 eq_refl) as (ps1 & Hp1 & Hc1).
      assert (Hsend : exists c p b0,
                 data b0 = []
                 /\ EvBufferAlloc b :: sev
                    = EvBufferAlloc b0
                      :: new_events c (fst (protocol_send E c p b0))
                 /\ forallb is_send_event
                      (new_events c (fst (protocol_send E c p b0))) = true).
      { exists c0, p0, b. rewrite (new_events_app _ _ _ Hst).
        split; [reflexivity|]. split; [reflexivity|exact Hsa]. }
      assert (Hkeep : keeps_pointers (method E) ->
                      is_set (method_state (old_session ps)) = true ->
                      is_set (method_state (old_session ps1)) = true).
      { intros KP Hs.
        apply (protocol_send_keeps_old c0 p0 b ps0 ps1 KP eq_refl Hs Hp1). }
      destruct (protocol_send E c0 p0 b) as [ctx1 peer1].
      cbn [fst snd] in *. rewrite Hp1.
      destruct (Tail ctx1 peer1 ps1 Hp1 Hc1)
        as (tail & ps' & Ht & Hp & Ho & Hc & Hf & Hfree).
      exists (EvBufferAlloc b :: sev), tail, ps'.
      split.
      { rewrite Ht, Hst. subst c0. cbn [trace emit].
        rewrite <- !app_assoc. reflexivity. }
      split; [exact Hp|]. split; [exact Ho|]. split; [exact Hc|].
      split; [exact Hf|].
      split; [intros KP Hs; apply Hfree, (Hkeep KP Hs)|].
      split; [|exact Hsend].
      split.
      * intros held. cbn [ledger]. apply Hsl.
      * cbn [filter is_disposal is_alloc length]. apply Hsl.
    + cbn [set_peer_state peer_protocol_state].
      destruct (Tail (emit EvDeletePeerHandshakes ctx) (set_peer_state peer ps0)
                  ps0 eq_refl eq_refl)
        as (tail & ps' & Ht & Hp & Ho & Hc & Hf & Hfree).
      exists [], tail, ps'. cbn [app].
      split.
      { rewrite Ht. cbn [trace emit]. rewrite <- !app_assoc. reflexivity. }
      split; [exact Hp|]. split; [exact Ho|]. split; [exact Hc|].
      split; [exact Hf|].
      split; [intros _; exact Hfree|].
      split; [split; [intros held|]; reflexivity | reflexivity].
Qed.

(** *** [protocol_handle_recv] *)

(** The calls of [protocol_handle_recv] for an established peer whose
    current session is valid. *)
Lemma protocol_handle_recv_spec (ctx : fastd_context) (peer : fastd_peer M)
    (ps : fastd_protocol_peer_state M) (buffer : fastd_buffer) :
  fastd_peer_is_established peer = true ->
  peer_protocol_state peer = Some ps ->
  is_session_valid E ctx (session ps) = true ->
  let r := protocol_handle_recv E ctx peer buffer in
  let old_valid := is_session_valid E ctx (old_session ps) in
  let old_res :=
    decrypt (method E) (now ctx) (method_state (old_session ps)) buffer in
  let cur_res :=
    decrypt (method E) (now ctx) (method_state (session ps)) buffer in
  let via_old := old_valid && is_set (snd old_res) in
  let plain := if via_old then snd old_res else snd cur_res in
  let cleaned := handshakes_cleaned (session ps) in
  let ini := session_is_initiator (method E) (now ctx) (fst cur_res) in
  exists confirm,
    trace (fst r)
    = trace ctx
      ++ (if old_valid then [EvDecrypt OldSession buffer (snd old_res)] else [])
      ++ (if via_old then []
          else [EvDecrypt CurrentSession buffer (snd cur_res)])
      ++ confirm ++ recv_final buffer plain
    /\ if via_old || negb (is_set (snd cur_res)) then confirm = []
       else
         exists sendevs tail ps',
           confirm
           = (if cleaned then [] else [EvDeletePeerHandshakes])
             ++ sendevs ++ tail
           /\ peer_protocol_state (snd r) = Some ps'
           /\ method_state (old_session ps') = None
           /\ handshakes_cleaned (session ps') = true
           /\ forallb is_cleanup_event tail = true
           /\ (keeps_pointers (method E) ->
               is_set (method_state (old_session ps)) = true ->
               In (EvSessionFree OldSession true) tail)
           /\ buffer_neutral sendevs
           /\ (if negb cleaned && ini
               then exists c p b,
                   data b = []
                   /\ sendevs
                      = EvBufferAlloc b
                        :: new_events c (fst (protocol_send E c p b))
                   /\ forallb is_send_event
                        (new_events c (fst (protocol_send E c p b))) = true
               else sendevs = []).
Proof.
  intros He Hp Hv r old_valid old_res cur_res via_old plain cleaned ini.
  subst r. unfold protocol_handle_recv. rewrite He, Hp, Hv. cbn [negb].
  subst via_old plain. fold old_valid.
  (* the decrypt with the current session and what follows *)
  assert (Cur : forall (c : fastd_context) (ps1 : fastd_protocol_peer_state M),
             now c = now ctx -> session ps1 = session ps ->
             (keeps_pointers (method E) ->
              is_set (method_state (old_session ps)) = true ->
              is_set (method_state (old_session ps1)) = true) ->
             let x :=
               (let '(m, out) :=
                  decrypt (method E) (now c) (method_state (session ps1)) buffer in
                let ctx' := emit (EvDecrypt CurrentSession buffer out) c in
                let ps' :=
                  set_slot ps1 CurrentSession (set_method_state (session ps1) m) in
                match out with
                | Some _ =>
                    let '(c0, p) :=
                      current_session_confirmed E ctx' (set_peer_state peer ps')
                                                ps' in
                    (c0, p, out)
                | None => (ctx', set_peer_state peer ps', None)
                end) in
             snd x = snd cur_res
             /\ exists confirm,
                 trace (fst (fst x))
                 = trace c ++ [EvDecrypt CurrentSession buffer (snd cur_res)]
                   ++ confirm
                 /\ if negb (is_set (snd cur_res)) then confirm = []
                    else
                      exists sendevs tail ps',
                        confirm
                        = (if cleaned then [] else [EvDeletePeerHandshakes])
                          ++ sendevs ++ tail
                        /\ peer_protocol_state (snd (fst x)) = Some ps'
                        /\ method_state (old_session ps') = None
                        /\ handshakes_cleaned (session ps') = true
                        /\ forallb is_cleanup_event tail = true
                        /\ (keeps_pointers (method E) ->
                            is_set (method_state (old_session ps)) = true ->
                            In (EvSessionFree OldSession true) tail)
                        /\ buffer_neutral sendevs
                        /\ (if negb cleaned && ini
                            then exists c p b,
                                data b = []
                                /\ sendevs
                                   = EvBufferAlloc b
                                     :: new_events c
                                          (fst (protocol_send E c p b))
                                /\ forallb is_send_event
                                     (new_events c
                                        (fst (protocol_send E c p b))) = true
                            else sendevs = [])).
  { intros c ps1 Hn Hs Hk x. subst x. rewrite Hn, Hs. subst ini. fold cur_res.
    destruct cur_res as [m out]. cbn [fst snd].
    destruct out as [o|]; cbn [is_set negb].
    - pose proof (current_session_confirmed_spec
                    (emit (EvDecrypt CurrentSession buffer (Some o)) c)
                    (set_peer_state peer
                       (set_slot ps1 CurrentSession
                          (set_method_state (session ps) m)))
                    (set_slot ps1 CurrentSession
                       (set_method_state (session ps) m))) as S.
      cbv zeta in S.
      destruct S
        as (sendevs & tail & ps' & Ht & Hq & Ho & Hc & Hf & Hfree & Hl & Hi).
      destruct (current_session_confirmed E _ _ _) as [c0 p0].
      cbn [fst snd] in *. split; [reflexivity|].
      eexists. split.
      { rewrite Ht. cbn [trace emit]. rewrite <- !app_assoc. reflexivity. }
      exists sendevs, tail, ps'.
      cbn [set_slot session set_method_state handshakes_cleaned method_state
           now emit] in *.
      rewrite Hn in Hi. fold cleaned in Hi |- *.
      split; [reflexivity|]. split; [exact Hq|]. split; [exact Ho|].
      split; [exact Hc|]. split; [exact Hf|].
      split; [intros KP Ho0; apply (Hfree KP), (Hk KP Ho0)|].
      split; [exact Hl|exact Hi].
    - cbn [fst snd]. split; [reflexivity|]. exists [].
      cbn [trace emit]. split; reflexivity. }
  destruct old_valid eqn:OV; cbn [andb].
  - fold old_res. destruct old_res as [mo oo] eqn:Eold. cbn [fst snd].
    destruct oo as [o|]; cbn [is_set orb].
    + (* decrypted with the old session *)
      exists []. cbn [fst snd trace emit app recv_final].
      split; [|reflexivity].
      destruct (negb (len o =? 0)) eqn:L.
      * apply negb_true_iff in L. rewrite L. cbn [fst trace emit].
        rewrite <- !app_assoc. reflexivity.
      * apply negb_false_iff in L. rewrite L. cbn [fst trace emit].
        rewrite <- !app_assoc. reflexivity.
    + (* the old session fails, the current one is tried *)
      assert (Hk : keeps_pointers (method E) ->
                   is_set (method_state (old_session ps)) = true ->
                   is_set (method_state
                             (old_session
                                (set_slot ps OldSession
                                   (set_method_state (old_session ps) mo))))
                   = true).
      { intros KP Ho0. cbn [set_slot old_session set_method_state method_state].
        destruct (method_state (old_session ps)) as [st|] eqn:Eo;
          [|discriminate Ho0].
        pose proof (proj2 (KP (now ctx) st buffer)) as Q.
        fold old_res in Q. rewrite Eold in Q. exact Q. }
      destruct (Cur (emit (EvDecrypt OldSession buffer None) ctx)
                    (set_slot ps OldSession
                       (set_method_state (old_session ps) mo))
                    eq_refl eq_refl Hk) as (Hx & confirm & Ht & Hc).
      destruct (let '(m, out) := decrypt _ _ _ _ in _) as [[c2 p2] recv2].
      cbn [fst snd] in *. subst recv2. exists confirm. recv_end Ht Hc.
  - destruct (Cur ctx ps eq_refl eq_refl (fun _ H => H))
      as (Hx & confirm & Ht & Hc).
    destruct (let '(m, out) := decrypt _ _ _ _ in _) as [[c2 p2] recv2].
    cbn [fst snd orb] in *. subst recv2. exists confirm. recv_end Ht Hc.
Qed.

(** *** Buffer accounting *)

Lemma buffer_neutral_nil : buffer_neutral [].
Proof. split; [intros held|]; reflexivity. Qed.

Lemma buffer_neutral_app (e1 e2 : list event) :
  buffer_neutral e1 -> buffer_neutral e2 -> buffer_neutral (e1 ++ e2).
Proof.
  intros [L1 C1] [L2 C2]. split.
  - intros held. rewrite ledger_app, L1. apply L2.
  - rewrite !filter_app, !length_app. lia.
Qed.

Lemma disposed_once_after (b : fastd_buffer) (e1 e2 : list event) :
  buffer_neutral e1 -> disposed_once b e2 -> disposed_once b (e1 ++ e2).
Proof.
  intros [L1 C1] [L2 C2]. split.
  - intros held. rewrite ledger_app, L1. apply L2.
  - rewrite !filter_app, !length_app. lia.
Qed.

Lemma cleanup_neutral (evs : list event) :
  forallb is_cleanup_event evs = true -> buffer_neutral evs.
Proof.
  induction evs as [|e evs IH]; [intros _; apply buffer_neutral_nil|].
  cbn [forallb]. intros H. apply andb_prop in H as [He Hr].
  specialize (IH Hr). destruct IH as [L C].
  destruct e; try discriminate He.
  - destruct s; try discriminate He. destruct nonnull; try discriminate He.
    split; [intros held; cbn [ledger]; apply L | exact C].
  - split; [intros held; cbn [ledger]; apply L | exact C].
Qed.

(** A successful decrypt exchanges the packet for the plaintext, a failed one
    leaves it. *)
Lemma disposed_once_decrypt (s : session_slot) (b : fastd_buffer)
    (out : option fastd_buffer) (evs : list event) :
  disposed_once (match out with Some o => o | None => b end) evs ->
  disposed_once b (EvDecrypt s b out :: evs).
Proof.
  intros [L C]. split.
  - intros held. cbn [ledger]. rewrite take_buffer_head.
    destruct out; apply L.
  - exact C.
Qed.

Lemma disposed_once_final (b : fastd_buffer) (plain : option fastd_buffer) :
  disposed_once (match plain with Some o => o | None => b end)
                (recv_final b plain).
Proof.
  destruct plain as [o|]; cbn [recv_final].
  - destruct (len o =? 0); (split; [intros held; ledger_tac | reflexivity]).
  - split; [intros held; ledger_tac | reflexivity].
Qed.

(** C4: every path of [protocol_handle_recv] and of [protocol_send] gives up
    the packet buffer exactly once.  Replaying the calls either handler makes
    with only its buffer held, no buffer is freed, delivered, transmitted or
    passed to the method while not held, and none is held at the end; the
    frees, deliveries and transmissions number one more than the buffers the
    handler allocates itself (the confirmation packet). *)
Theorem C4_buffer_given_up_exactly_once (ctx : fastd_context)
    (peer : fastd_peer M) (buffer : fastd_buffer) :
  disposed_once buffer
    (new_events ctx (fst (protocol_handle_recv E ctx peer buffer)))
  /\ disposed_once buffer
       (new_events ctx (fst (protocol_send E ctx peer buffer))).
Proof.
  split.
  2:{ destruct (protocol_send_spec ctx peer buffer) as (evs & Ht & Hd & _).
      rewrite (new_events_app _ _ _ Ht). exact Hd. }
  destruct (fastd_peer_is_established peer) eqn:He.
  2:{ unfold protocol_handle_recv. rewrite He. cbn [negb fst].
      rewrite (new_events_app _ _ [EvScheduleHandshake 0; EvBufferFree buffer])
        by reflexivity.
      split; [intros held; ledger_tac | reflexivity]. }
  destruct (peer_protocol_state peer) as [ps|] eqn:Hp.
  2:{ unfold protocol_handle_recv. rewrite He, Hp. cbn [negb fst].
      rewrite (new_events_app _ _ [EvBufferFree buffer]) by reflexivity.
      split; [intros held; ledger_tac | reflexivity]. }
  destruct (is_session_valid E ctx (session ps)) eqn:Hv.
  2:{ unfold protocol_handle_recv. rewrite He, Hp, Hv. cbn [negb fst].
      rewrite (new_events_app _ _ [EvBufferFree buffer]) by reflexivity.
      split; [intros held; ledger_tac | reflexivity]. }
  pose proof (protocol_handle_recv_spec ctx peer ps buffer He Hp Hv) as S.
  cbv zeta in S. destruct S as (confirm & Ht & Hc).
  rewrite (new_events_app _ _ _ Ht). clear Ht.
  assert (Hn : buffer_neutral confirm).
  { destruct (_ || _); [subst confirm; apply buffer_neutral_nil|].
    destruct Hc as (sendevs & tl & ps' & -> & _ & _ & _ & Hf & _ & Hl & _).
    apply buffer_neutral_app; [|apply buffer_neutral_app];
      [|exact Hl|apply cleanup_neutral, Hf].
    destruct (handshakes_cleaned (session ps));
      [apply buffer_neutral_nil|].
    split; [intros held|]; reflexivity. }
  clear Hc.
  destruct (is_session_valid E ctx (old_session ps)); cbn [andb].
  - destruct (snd (decrypt (method E) (now ctx)
                     (method_state (old_session ps)) buffer)) as [o|];
      cbn [is_set app].
    + apply (disposed_once_decrypt OldSession buffer (Some o)).
      apply (disposed_once_after o confirm _ Hn).
      apply (disposed_once_final buffer (Some o)).
    + apply (disposed_once_decrypt OldSession buffer None).
      apply disposed_once_decrypt.
      apply (disposed_once_after _ confirm _ Hn).
      apply disposed_once_final.
  - cbn [app]. apply disposed_once_decrypt.
    apply (disposed_once_after _ confirm _ Hn).
    apply disposed_once_final.
Qed.

(** *** The session [protocol_send] encrypts with *)



(** *** The receive path *)

Lemma decrypt_slots_app (e1 e2 : list event) :
  decrypt_slots (e1 ++ e2) = decrypt_slots e1 ++ decrypt_slots e2.
Proof.
  induction e1 as [|e e1 IH]; [reflexivity|].
  destruct e; cbn [app decrypt_slots]; rewrite IH; reflexivity.
Qed.

Lemma quiet_no_decrypt (evs : list event) :
  forallb is_quiet evs = true ->
  decrypt_slots evs = [] /\ filter is_deliver evs = [].
Proof.
  induction evs as [|e evs IH]; [intros _; split; reflexivity|].
  cbn [forallb]. intros H. apply andb_prop in H as [He Hr].
  destruct (IH Hr) as [D F].
  destruct e; try discriminate He; cbn [decrypt_slots filter is_deliver];
    split; assumption.
Qed.

Lemma forallb_weaken (P Q : event -> bool) (evs : list event) :
  (forall e, P e = true -> Q e = true) ->
  forallb P evs = true -> forallb Q evs = true.
Proof.
  intros PQ. induction evs as [|e evs IH]; [reflexivity|].
  cbn [forallb]. intros H. apply andb_prop in H as [He Hr].
  rewrite (PQ _ He), (IH Hr). reflexivity.
Qed.

Lemma send_event_quiet (e : event) : is_send_event e = true -> is_quiet e = true.
Proof. destruct e; intros H; try discriminate H; reflexivity. Qed.

Lemma cleanup_event_quiet (e : event) :
  is_cleanup_event e = true -> is_quiet e = true.
Proof. destruct e; intros H; try discriminate H; reflexivity. Qed.

Lemma send_event_no_alloc (evs : list event) :
  forallb is_send_event evs = true -> filter is_alloc evs = [].
Proof.
  induction evs as [|e evs IH]; [reflexivity|].
  cbn [forallb]. intros H. apply andb_prop in H as [He Hr].
  destruct e; try discriminate He; cbn [filter is_alloc]; apply IH, Hr.
Qed.

Lemma cleanup_event_no_alloc (evs : list event) :
  forallb is_cleanup_event evs = true -> filter is_alloc evs = [].
Proof.
  induction evs as [|e evs IH]; [reflexivity|].
  cbn [forallb]. intros H. apply andb_prop in H as [He Hr].
  destruct e; try discriminate He; cbn [filter is_alloc]; apply IH, Hr.
Qed.

(** The sessions a received packet is decrypted with, for any peer: none
    unless the peer is established and its current session valid; then the
    old session first if it is valid, and the current one unless the old one
    succeeded. *)
Lemma recv_decrypt_slots (ctx : fastd_context) (peer : fastd_peer M)
    (buffer : fastd_buffer) :
  decrypt_slots (new_events ctx (fst (protocol_handle_recv E ctx peer buffer)))
  = match peer_protocol_state peer with
    | Some ps =>
        if fastd_peer_is_established peer && is_session_valid E ctx (session ps)
        then
          (if is_session_valid E ctx (old_session ps) then [OldSession] else [])
          ++ (if is_session_valid E ctx (old_session ps)
                 && is_set (snd (decrypt (method E) (now ctx)
                                   (method_state (old_session ps)) buffer))
              then [] else [CurrentSession])
        else []
    | None => []
    end.
Proof.
  destruct (fastd_peer_is_established peer) eqn:He.
  2:{ unfold protocol_handle_recv. rewrite He. cbn [negb fst andb].
      rewrite (new_events_app _ _ [EvScheduleHandshake 0; EvBufferFree buffer])
        by reflexivity.
      destruct (peer_protocol_state peer); reflexivity. }
  destruct (peer_protocol_state peer) as [ps|] eqn:Hp.
  2:{ unfold protocol_handle_recv. rewrite He, Hp. cbn [negb fst].
      rewrite (new_events_app _ _ [EvBufferFree buffer]) by reflexivity.
      reflexivity. }
  destruct (is_session_valid E ctx (session ps)) eqn:Hv; cbn [andb].
  2:{ unfold protocol_handle_recv. rewrite He, Hp, Hv. cbn [negb fst].
      rewrite (new_events_app _ _ [EvBufferFree buffer]) by reflexivity.
      reflexivity. }
  pose proof (protocol_handle_recv_spec ctx peer ps buffer He Hp Hv) as S.
  cbv zeta in S. destruct S as (confirm & Ht & Hc).
  rewrite (new_events_app _ _ _ Ht). clear Ht.
  assert (Hq : decrypt_slots confirm = []).
  { destruct (_ || _); [subst confirm; reflexivity|].
    destruct Hc as (sendevs & tl & ps' & -> & _ & _ & _ & Hf & _ & _ & Hi).
    rewrite !decrypt_slots_app.
    replace (decrypt_slots tl) with (@nil session_slot)
      by (symmetry; apply quiet_no_decrypt;
          apply (forallb_weaken _ _ _ cleanup_event_quiet Hf)).
    replace (decrypt_slots sendevs) with (@nil session_slot).
    - destruct (handshakes_cleaned (session ps)); reflexivity.
    - destruct (_ && _); [|subst sendevs; reflexivity].
      destruct Hi as (c & p0 & b & _ & -> & Hs). cbn [decrypt_slots].
      symmetry; apply quiet_no_decrypt.
      apply (forallb_weaken _ _ _ send_event_quiet Hs). }
  rewrite !decrypt_slots_app, Hq.
  assert (Hfin : forall plain, decrypt_slots (recv_final buffer plain) = []).
  { intros [o|]; cbn [recv_final]; [destruct (len o =? 0)|]; reflexivity. }
  rewrite Hfin, !app_nil_r.
  destruct (is_session_valid E ctx (old_session ps)); cbn [andb];
    [destruct (is_set _)|]; reflexivity.
Qed.

Lemma forallb_app_intro (P : event -> bool) (e1 e2 : list event) :
  forallb P e1 = true -> forallb P e2 = true -> forallb P (e1 ++ e2) = true.
Proof. intros H1 H2. rewrite forallb_app, H1, H2. reflexivity. Qed.

(** The calls of [protocol_send] once it is past its entry check: the
    refresh check, one [encrypt] with the session it chooses, and the
    transmission, or the release of the buffer if [encrypt] fails. *)
Lemma protocol_send_events (ctx : fastd_context) (peer : fastd_peer M)
    (ps : fastd_protocol_peer_state M) (b : fastd_buffer) :
  peer_protocol_state peer = Some ps ->
  is_session_valid E ctx (session ps) = true ->
  let slot :=
    if session_is_initiator (method E) (now ctx) (method_state (session ps))
       && is_session_valid E ctx (old_session ps)
    then OldSession else CurrentSession in
  let out :=
    snd (encrypt (method E) (now ctx) (method_state (get_slot ps slot)) b) in
  exists refresh,
    (refresh = [] \/ refresh = [EvScheduleHandshake 0])
    /\ trace (fst (protocol_send E ctx peer b))
       = trace ctx ++ refresh
         ++ EvEncrypt slot b out
            :: match out with
               | Some send_buffer =>
                   [EvSend (address peer) send_buffer; EvDeletePeerKeepalives;
                    EvScheduleKeepalive
                      (to_int (to_u32 (keepalive_interval (conf ctx) * 1000)))]
               | None => [EvBufferFree b]
               end.
Proof.
  intros Hp Hv slot out. unfold protocol_send. rewrite Hp, Hv. cbn [negb].
  destruct (check_session_refresh_spec ctx ps) as (ev0 & b0 & -> & Hev0).
  exists ev0. split; [exact Hev0|].
  set (ps1 := set_slot ps CurrentSession (set_refreshing (session ps) b0)).
  change (now (emits ev0 ctx)) with (now ctx).
  change (method_state (session ps1)) with (method_state (session ps)).
  change (is_session_valid E (emits ev0 ctx) (old_session ps1))
    with (is_session_valid E ctx (old_session ps)).
  fold slot.
  replace (method_state (get_slot ps1 slot))
    with (method_state (get_slot ps slot)) by (destruct slot; reflexivity).
  subst out.
  destruct (encrypt (method E) (now ctx) (method_state (get_slot ps slot)) b)
    as [m o].
  cbn [snd]. destruct o as [send_buffer|];
    cbn [fst trace emit emits conf]; rewrite <- !app_assoc; reflexivity.
Qed.

(** After the first successful decrypt with the current session on the
    initiator's side, everything [current_session_confirmed] does follows the
    call of [protocol_send] on a fresh buffer of length 0. *)
Lemma current_session_confirmed_send (ctx : fastd_context)
    (peer : fastd_peer M) (ps : fastd_protocol_peer_state M) :
  handshakes_cleaned (session ps) = false ->
  session_is_initiator (method E) (now ctx) (method_state (session ps))
  = true ->
  let ps' :=
    set_slot ps CurrentSession (set_handshakes_cleaned (session ps) true) in
  let a := fastd_buffer_alloc (emit EvDeletePeerHandshakes ctx) in
  exists tail,
    trace (fst (current_session_confirmed E ctx peer ps))
    = trace (fst (protocol_send E (fst a) (set_peer_state peer ps') (snd a)))
      ++ tail.
Proof.
  intros Hc Hi ps' a. unfold current_session_confirmed.
  rewrite Hc. cbn [negb].
  change (session_is_initiator (method E) (now (emit EvDeletePeerHandshakes ctx))
            (method_state
               (session
                  (set_slot ps CurrentSession
                     (set_handshakes_cleaned (session ps) true)))))
    with (session_is_initiator (method E) (now ctx)
            (method_state (session ps))).
  rewrite Hi. fold ps' a. destruct a as [c b]. cbn [fst snd].
  destruct (protocol_send E c (set_peer_state peer ps') b) as [ctx1 peer1].
  cbn [fst]. destruct (peer_protocol_state peer1) as [ps1|].
  - destruct (method_state (old_session ps1)).
    + destruct (check_session_refresh_spec
                  (emit (EvSessionFree OldSession true) ctx1)
                  (set_slot ps1 OldSession
                     (set_method_state (old_session ps1) None)))
        as (ev & b1 & -> & _).
      exists (EvSessionFree OldSession true :: ev).
      cbn [fst trace emit emits]. rewrite <- app_assoc. reflexivity.
    + destruct (check_session_refresh_spec ctx1 ps1) as (ev & b1 & -> & _).
      exists ev. reflexivity.
  - exists []. cbn [fst]. rewrite app_nil_r. reflexivity.
Qed.

(** [protocol_handle_recv] when the packet decrypts with the current
    session: the trace up to the end of [current_session_confirmed]. *)
Lemma recv_via_current (ctx : fastd_context) (peer : fastd_peer M)
    (ps : fastd_protocol_peer_state M) (buffer : fastd_buffer) :
  fastd_peer_is_established peer = true ->
  peer_protocol_state peer = Some ps ->
  is_session_valid E ctx (session ps) = true ->
  let old_valid := is_session_valid E ctx (old_session ps) in
  let old_res :=
    decrypt (method E) (now ctx) (method_state (old_session ps)) buffer in
  let cur :=
    decrypt (method E) (now ctx) (method_state (session ps)) buffer in
  old_valid && is_set (snd old_res) = false ->
  is_set (snd cur) = true ->
  let ps_o :=
    if old_valid
    then set_slot ps OldSession (set_method_state (old_session ps) (fst old_res))
    else ps in
  let ctx_o :=
    if old_valid then emit (EvDecrypt OldSession buffer (snd old_res)) ctx
    else ctx in
  let ps_d :=
    set_slot ps_o CurrentSession (set_method_state (session ps) (fst cur)) in
  let ctx_d := emit (EvDecrypt CurrentSession buffer (snd cur)) ctx_o in
  trace (fst (protocol_handle_recv E ctx peer buffer))
  = trace (fst (current_session_confirmed E ctx_d (set_peer_state peer ps_d)
                  ps_d))
    ++ recv_final buffer (snd cur).
Proof.
  intros He Hp Hv old_valid old_res cur Hvo Hcur ps_o ctx_o ps_d ctx_d.
  unfold protocol_handle_recv. rewrite He, Hp, Hv. cbn [negb].
  fold old_valid. subst ps_o ctx_o ps_d ctx_d.
  destruct old_valid; cbn [andb] in Hvo.
  - fold old_res. destruct old_res as [mo oo]. cbn [fst snd] in *.
    destruct oo as [o|]; [discriminate Hvo|].
    cbn [set_slot session now emit].
    fold cur. destruct cur as [m out]. cbn [fst snd] in *.
    destruct out as [o|]; [|discriminate Hcur].
    destruct (current_session_confirmed E _ _ _) as [c p].
    cbn [fst recv_final].
    destruct (len o =? 0); cbn [negb fst trace emit];
      rewrite <- !app_assoc; reflexivity.
  - fold cur. destruct cur as [m out]. cbn [fst snd] in *.
    destruct out as [o|]; [|discriminate Hcur].
    destruct (current_session_confirmed E _ _ _) as [c p].
    cbn [fst recv_final].
    destruct (len o =? 0); cbn [negb fst trace emit];
      rewrite <- !app_assoc; reflexivity.
Qed.

(** The confirmation packet: what [protocol_handle_recv] adds to the trace
    when the initiator's unconfirmed current session decrypts a packet. *)
Lemma confirmation_packet_events (ctx : fastd_context) (peer : fastd_peer M)
    (ps : fastd_protocol_peer_state M) (buffer : fastd_buffer) :
  fastd_peer_is_established peer = true ->
  peer_protocol_state peer = Some ps ->
  is_session_valid E ctx (session ps) = true ->
  let old_valid := is_session_valid E ctx (old_session ps) in
  let old_res :=
    decrypt (method E) (now ctx) (method_state (old_session ps)) buffer in
  let cur :=
    decrypt (method E) (now ctx) (method_state (session ps)) buffer in
  old_valid && is_set (snd old_res) = false ->
  is_set (snd cur) = true ->
  handshakes_cleaned (session ps) = false ->
  session_is_initiator (method E) (now ctx) (fst cur) = true ->
  let b := {| base := buffers_allocated ctx; data := [] |} in
  let old_state :=
    if old_valid then fst old_res else method_state (old_session ps) in
  let slot :=
    if session_is_valid (method E) (now ctx) old_state
    then OldSession else CurrentSession in
  let out :=
    snd (encrypt (method E) (now ctx)
           (match slot with
            | OldSession => old_state
            | CurrentSession => fst cur
            end) b) in
  exists refresh post,
    (refresh = [] \/ refresh = [EvScheduleHandshake 0])
    /\ new_events ctx (fst (protocol_handle_recv E ctx peer buffer))
       = (if old_valid then [EvDecrypt OldSession buffer (snd old_res)] else [])
         ++ [EvDecrypt CurrentSession buffer (snd cur);
             EvDeletePeerHandshakes; EvBufferAlloc b]
         ++ (if session_is_valid (method E) (now ctx) (fst cur)
             then refresh
                  ++ EvEncrypt slot b out
                     :: match out with
                        | Some send_buffer =>
                            [EvSend (address peer) send_buffer;
                             EvDeletePeerKeepalives;
                             EvScheduleKeepalive
                               (to_int (to_u32 (keepalive_interval (conf ctx)
                                                * 1000)))]
                        | None => [EvBufferFree b]
                        end
             else [EvBufferFree b])
         ++ post.
Proof.
  intros He Hp Hv old_valid old_res cur Hvo Hcur Hcl Hini b old_state slot out.
  pose proof (recv_via_current ctx peer ps buffer He Hp Hv Hvo Hcur) as R.
  cbv zeta in R. fold old_valid old_res cur in R.
  set (ps_o := if old_valid
               then set_slot ps OldSession
                      (set_method_state (old_session ps) (fst old_res))
               else ps) in R.
  set (ctx_o := if old_valid
                then emit (EvDecrypt OldSession buffer (snd old_res)) ctx
                else ctx) in R.
  set (ps_d := set_slot ps_o CurrentSession
                 (set_method_state (session ps) (fst cur))) in R.
  set (ctx_d := emit (EvDecrypt CurrentSession buffer (snd cur)) ctx_o) in R.
  assert (Nd : now ctx_d = now ctx) by (subst ctx_d ctx_o; destruct old_valid; reflexivity).
  assert (Cd : conf ctx_d = conf ctx) by (subst ctx_d ctx_o; destruct old_valid; reflexivity).
  assert (Bd : buffers_allocated ctx_d = buffers_allocated ctx)
    by (subst ctx_d ctx_o; destruct old_valid; reflexivity).
  assert (Td : trace ctx_d
               = trace ctx
                 ++ (if old_valid
                     then [EvDecrypt OldSession buffer (snd old_res)] else [])
                 ++ [EvDecrypt CurrentSession buffer (snd cur)]).
  { subst ctx_d ctx_o. destruct old_valid; cbn [trace emit].
    - rewrite <- app_assoc. reflexivity.
    - reflexivity. }
  assert (Sd : method_state (session ps_d) = fst cur) by reflexivity.
  assert (Od : method_state (old_session ps_d) = old_state).
  { subst ps_d ps_o old_state. destruct old_valid; reflexivity. }
  assert (Hd : handshakes_cleaned (session ps_d) = false) by exact Hcl.
  assert (Id : session_is_initiator (method E) (now ctx_d)
                 (method_state (session ps_d)) = true)
    by (rewrite Nd, Sd; exact Hini).
  destruct (current_session_confirmed_send ctx_d (set_peer_state peer ps_d)
              ps_d Hd Id) as (tail & Ht).
  cbv zeta in Ht. rewrite Ht in R. clear Ht.
  set (ps' := set_slot ps_d CurrentSession
                (set_handshakes_cleaned (session ps_d) true)) in R.
  cbn [fastd_buffer_alloc fst snd] in R.
  change (buffers_allocated (emit EvDeletePeerHandshakes ctx_d))
    with (buffers_allocated ctx_d) in R.
  rewrite Bd in R. fold b in R.
  set (c := {| now := _ |}) in R.
  assert (Nc : now c = now ctx) by exact Nd.
  assert (Tc : trace c
               = trace ctx
                 ++ (if old_valid
                     then [EvDecrypt OldSession buffer (snd old_res)] else [])
                 ++ [EvDecrypt CurrentSession buffer (snd cur);
                     EvDeletePeerHandshakes; EvBufferAlloc b]).
  { subst c. cbn [trace emit]. rewrite Td, <- !app_assoc. reflexivity. }
  destruct (session_is_valid (method E) (now ctx) (fst cur)) eqn:Still.
  - assert (Vc : is_session_valid E c (session ps') = true).
    { unfold is_session_valid. rewrite Nc. exact Still. }
    destruct (protocol_send_events c
                (set_peer_state (set_peer_state peer ps_d) ps') ps' b
                eq_refl Vc) as (refresh & Hr & Hs).
    cbv zeta in Hs. rewrite Hs in R. clear Hs.
    exists refresh, (tail ++ recv_final buffer (snd cur)).
    split; [exact Hr|]. apply new_events_app. rewrite R, Tc.
    change (method_state (session ps')) with (fst cur).
    rewrite Nc, Hini. cbn [andb].
    unfold is_session_valid. rewrite Nc.
    change (method_state (old_session ps'))
      with (method_state (old_session ps_d)).
    rewrite Od. fold slot.
    assert (G : method_state (get_slot ps' slot)
                = match slot with
                  | OldSession => old_state
                  | CurrentSession => fst cur
                  end).
    { destruct slot; [exact Od|reflexivity]. }
    rewrite G. fold out. change (conf c) with (conf ctx_d). rewrite Cd.
    change (address (set_peer_state (set_peer_state peer ps_d) ps'))
      with (address peer).
    rewrite <- !app_assoc. reflexivity.
  - assert (Drop : trace (fst (protocol_send E c
                                (set_peer_state (set_peer_state peer ps_d) ps')
                                b))
                   = trace c ++ [EvBufferFree b]).
    { unfold protocol_send. cbn [set_peer_state peer_protocol_state].
      unfold is_session_valid. rewrite Nc.
      change (method_state (session ps')) with (fst cur).
      rewrite Still. reflexivity. }
    rewrite Drop in R.
    exists [], (tail ++ recv_final buffer (snd cur)).
    split; [now left|]. apply new_events_app. rewrite R, Tc.
    rewrite <- !app_assoc. reflexivity.
Qed.

(** C7 (as amended): for an established peer whose current session is valid,
    [protocol_handle_recv] decrypts with the previous session first, if that
    is valid, and with the current one only if the previous one was not valid
    or failed.  When the current session succeeds, the previous session is
    freed (if it was set; the method keeping its pointers) and ends up unset,
    so that no later packet is decrypted with it (an unset session being
    invalid), and [handshakes_cleaned] is set; if it was unset before, the
    peer's scheduled handshakes are deleted and, if the local side is the
    initiator, a buffer of length 0 is allocated and passed to
    [protocol_send]: if the current session is still valid after the decrypt,
    the buffer is encrypted, with the previous session if that is valid and
    with the current one otherwise, and the result is sent to the peer's
    address, or the buffer is freed if [encrypt] fails; if the session is no
    longer valid the buffer is freed.  On the responder's side nothing is
    allocated.  A plaintext of length 0 is freed and nothing is delivered
    upward; any other plaintext is delivered. *)
Theorem C7_receive_path (ctx : fastd_context) (peer : fastd_peer M)
    (ps : fastd_protocol_peer_state M) (buffer : fastd_buffer) :
  fastd_peer_is_established peer = true ->
  peer_protocol_state peer = Some ps ->
  is_session_valid E ctx (session ps) = true ->
  let r := protocol_handle_recv E ctx peer buffer in
  let evs := new_events ctx (fst r) in
  let old_valid := is_session_valid E ctx (old_session ps) in
  let old_res :=
    decrypt (method E) (now ctx) (method_state (old_session ps)) buffer in
  let old_out := snd old_res in
  let cur :=
    decrypt (method E) (now ctx) (method_state (session ps)) buffer in
  let via_old := old_valid && is_set old_out in
  let plain := if via_old then old_out else snd cur in
  decrypt_slots evs
  = (if old_valid then [OldSession] else [])
    ++ (if via_old then [] else [CurrentSession])
  /\ (via_old = false -> is_set (snd cur) = true ->
      exists ps',
        peer_protocol_state (snd r) = Some ps'
        /\ method_state (old_session ps') = None
        /\ handshakes_cleaned (session ps') = true
        /\ (keeps_pointers (method E) ->
            is_set (method_state (old_session ps)) = true ->
            In (EvSessionFree OldSession true) evs)
        /\ (forall ctx2 buffer2,
               session_is_valid (method E) (now ctx2) None = false ->
               ~ In OldSession
                   (decrypt_slots
                      (new_events ctx2
                         (fst (protocol_handle_recv E ctx2 (snd r) buffer2)))))
        /\ (handshakes_cleaned (session ps) = false ->
            In EvDeletePeerHandshakes evs
            /\ if session_is_initiator (method E) (now ctx) (fst cur)
               then
                 let b := {| base := buffers_allocated ctx; data := [] |} in
                 let old_state :=
                   if old_valid then fst old_res
                   else method_state (old_session ps) in
                 let slot :=
                   if session_is_valid (method E) (now ctx) old_state
                   then OldSession else CurrentSession in
                 let out :=
                   snd (encrypt (method E) (now ctx)
                          (match slot with
                           | OldSession => old_state
                           | CurrentSession => fst cur
                           end) b) in
                 exists refresh post,
                   (refresh = [] \/ refresh = [EvScheduleHandshake 0])
                   /\ evs
                      = (if old_valid
                         then [EvDecrypt OldSession buffer old_out] else [])
                        ++ [EvDecrypt CurrentSession buffer (snd cur);
                            EvDeletePeerHandshakes; EvBufferAlloc b]
                        ++ (if session_is_valid (method E) (now ctx) (fst cur)
                            then
                              refresh
                              ++ EvEncrypt slot b out
                                 :: match out with
                                    | Some send_buffer =>
                                        [EvSend (address peer) send_buffer;
                                         EvDeletePeerKeepalives;
                                         EvScheduleKeepalive
                                           (to_int
                                              (to_u32
                                                 (keepalive_interval (conf ctx)
                                                  * 1000)))]
                                    | None => [EvBufferFree b]
                                    end
                            else [EvBufferFree b])
                        ++ post
               else filter is_alloc evs = []))
  /\ (forall out, plain = Some out ->
      if len out =? 0
      then In (EvBufferFree out) evs /\ filter is_deliver evs = []
      else In (EvHandleReceive out) evs).
Proof.
  intros He Hp Hv r evs old_valid old_res old_out cur via_old plain.
  split.
  { subst evs r. rewrite (recv_decrypt_slots), Hp, He, Hv. reflexivity. }
  pose proof (protocol_handle_recv_spec ctx peer ps buffer He Hp Hv) as S.
  cbv zeta in S. destruct S as (confirm & Ht & Hc).
  pose proof (confirmation_packet_events ctx peer ps buffer He Hp Hv) as Conf.
  cbv zeta in Conf. fold r old_valid old_res cur in Conf. fold evs in Conf.
  fold old_res in Ht, Hc.
  fold r old_valid old_out cur in Ht, Hc. fold via_old in Ht, Hc.
  fold plain in Ht.
  assert (Hevs : evs
                 = (if old_valid then [EvDecrypt OldSession buffer old_out]
                    else [])
                   ++ (if via_old then []
                       else [EvDecrypt CurrentSession buffer (snd cur)])
                   ++ confirm ++ recv_final buffer plain)
    by (apply new_events_app, Ht).
  clearbody evs. clear Ht.
  assert (Hq : forallb is_quiet confirm = true).
  { destruct (via_old || negb (is_set (snd cur))); [subst confirm; reflexivity|].
    destruct Hc as (sendevs & tl & ps' & -> & _ & _ & _ & Hf & _ & _ & Hi).
    apply forallb_app_intro; [destruct (handshakes_cleaned _); reflexivity|].
    apply forallb_app_intro;
      [|apply (forallb_weaken _ _ _ cleanup_event_quiet Hf)].
    destruct (negb (handshakes_cleaned (session ps))
              && session_is_initiator (method E) (now ctx) (fst cur));
      [|subst sendevs; reflexivity].
    destruct Hi as (c & p0 & b & _ & -> & Hs). cbn [forallb is_quiet andb].
    apply (forallb_weaken _ _ _ send_event_quiet Hs). }
  split.
  - (* the current session succeeds *)
    intros Hvo Hcur. rewrite Hvo, Hcur in Hc. cbn [negb orb] in Hc.
    destruct Hc
      as (sendevs & tl & ps' & Hconf & Hps & Hold & Hcl & Hf & Hfree & _ & Hi).
    exists ps'. split; [exact Hps|]. split; [exact Hold|]. split; [exact Hcl|].
    split.
    { intros KP Hset. rewrite Hevs, Hconf.
      apply in_or_app; right. apply in_or_app; right.
      apply in_or_app; left. apply in_or_app; right.
      apply in_or_app; right. exact (Hfree KP Hset). }
    split.
    + intros ctx2 buffer2 Hnull. rewrite (recv_decrypt_slots). subst r.
      rewrite Hps. unfold is_session_valid at 2 3. rewrite Hold, Hnull.
      cbn [andb app].
      destruct (fastd_peer_is_established _
                && is_session_valid E ctx2 (session ps'));
        cbn [In]; intros H;
        [destruct H as [H|H]; [discriminate H|exact H] | exact H].
    + intros Hnc. rewrite Hnc in Hconf, Hi. cbn [negb andb] in Hi.
      split.
      * rewrite Hevs, Hconf. rewrite Hvo.
        apply in_or_app; right. apply in_or_app; right.
        apply in_or_app; left. left. reflexivity.
      * destruct (session_is_initiator (method E) (now ctx) (fst cur)) eqn:Ini.
        -- exact (Conf Hvo Hcur Hnc eq_refl).
        -- subst sendevs. rewrite Hevs, Hconf, !filter_app.
           rewrite (cleanup_event_no_alloc _ Hf).
           destruct old_valid, via_old, plain as [o|];
             cbn [filter is_alloc app recv_final];
             try destruct (len o =? 0); reflexivity.
  - (* the plaintext *)
    intros out Hplain. rewrite Hplain in Hevs. cbn [recv_final] in Hevs.
    destruct (len out =? 0).
    + split.
      * rewrite Hevs. do 3 (apply in_or_app; right). right. left. reflexivity.
      * rewrite Hevs, !filter_app.
        rewrite (proj2 (quiet_no_decrypt _ Hq)).
        destruct old_valid, via_old; reflexivity.
    + rewrite Hevs. do 3 (apply in_or_app; right). right. left. reflexivity.
Qed.


(** *** [establish] *)

Lemma send_event_no_init (evs : list event) :
  forallb is_send_event evs = true -> session_inits evs = [].
Proof.
  induction evs as [|e evs IH]; [reflexivity|].
  cbn [forallb]. intros H. apply andb_prop in H as [He Hr].
  destruct e; try discriminate He; cbn [session_inits]; apply IH, Hr.
Qed.

(** The calls of [establish], in order: the session that is dropped is
    freed, the secret is hashed and the new method state initialised with it,
    the peer is marked seen, and only then the address is claimed.  If the
    claim fails the peer is reset and nothing else happens; otherwise the
    peer is marked established, the keepalive is scheduled and, on the
    responder's side, a packet of length 0 is sent. *)
Lemma establish_spec (ctx : fastd_context) (peers : list (fastd_peer M))
    (peer_conf : fastd_peer_config) (addr : fastd_peer_address)
    (initiator : bool) (A B X Y sigma : list Z)
    (ctx' : fastd_context) (peers' : list (fastd_peer M)) :
  establish E ctx peers peer_conf addr initiator A B X Y sigma
  = Some (ctx', peers') ->
  exists slot nonnull claimed rest,
    trace ctx'
    = trace ctx
      ++ [EvSessionFree slot nonnull; EvCrypto HashSha256;
          EvSessionInit
            (crypto_hash_sha256 (crypto E) (establish_hashinput A B X Y sigma))
            initiator;
          EvPeerSeen; EvClaimAddress addr claimed] ++ rest
    /\ if claimed
       then exists sendevs,
           rest = [EvSetEstablished;
                   EvScheduleKeepalive
                     (to_int (to_u32 (keepalive_interval (conf ctx) * 1000)))]
                  ++ sendevs
           /\ session_inits sendevs = []
           /\ (initiator = true -> sendevs = [])
       else rest = [EvPeerReset]
            /\ exists before p after,
                peers' = before ++ fastd_peer_reset E p :: after.
Proof.
  unfold establish.
  destruct (find_peer peers peer_conf) as [[[before peer] after]|];
    [|discriminate].
  set (ps := init_peer_state peer).
  set (rot := is_session_valid E ctx (session ps)
              && negb (is_session_valid E ctx (old_session ps))).
  set (slot := if rot then OldSession else CurrentSession).
  set (nonnull := if rot then is_set (method_state (old_session ps))
                  else is_set (method_state (session ps))).
  set (hash := crypto_hash_sha256 (crypto E) (establish_hashinput A B X Y sigma)).
  assert (Rot : exists ps1,
             (if rot
              then (emit (EvSessionFree OldSession
                            (is_set (method_state (old_session ps)))) ctx,
                    {| old_session := session ps; session := session ps |})
              else (emit (EvSessionFree CurrentSession
                            (is_set (method_state (session ps)))) ctx, ps))
             = (emit (EvSessionFree slot nonnull) ctx, ps1)).
  { subst slot nonnull. destruct rot; eexists; reflexivity. }
  destruct Rot as (ps1 & ->).
  cbn [now emit emits conf].
  destruct (fastd_peer_claim_address E _ _ addr) as [claimed peer4].
  destruct claimed; cbn [negb].
  - (* claimed *)
    destruct initiator; cbn [negb].
    + intros H. injection H as <- <-.
      exists slot, nonnull, true, [EvSetEstablished;
        EvScheduleKeepalive
          (to_int (to_u32 (keepalive_interval (conf ctx) * 1000)))].
      split.
      * cbn [trace emit emits].
        rewrite <- !app_assoc. reflexivity.
      * exists []. repeat split; reflexivity.
    + cbn [fastd_buffer_alloc].
      match goal with
      | |- context [protocol_send E ?c ?p ?b] =>
          destruct (protocol_send_spec c p b) as (sev & Hst & _ & Hsa & _);
          destruct (protocol_send E c p b) as [ctx7 peer7]
      end.
      cbn [fst] in Hst. intros H. injection H as <- <-.
      exists slot, nonnull, true.
      eexists. split.
      * rewrite Hst. cbn [trace emit emits].
        rewrite <- !app_assoc. cbn [app]. reflexivity.
      * eexists. split; [reflexivity|]. split; [|discriminate].
        cbn [session_inits]. apply send_event_no_init, Hsa.
  - intros H. injection H as <- <-.
    exists slot, nonnull, false, [EvPeerReset]. split.
    + cbn [trace emit emits].
      rewrite <- !app_assoc. reflexivity.
    + split; [reflexivity|]. exists before, peer4, after. reflexivity.
Qed.

(** C9 (as amended): [establish] claims the remote address only after it has
    freed the session it drops, installed the new method state and marked the
    peer seen; these calls come first, in this order, whether or not the
    claim succeeds.  The session freed is the previous one when the current
    session is valid and the previous one is not, and the current one
    otherwise; the peer handed to [fastd_peer_claim_address] already holds
    the new session pair: as previous session the valid current one in the
    first case and the unchanged previous one otherwise, as current session
    the new method state with [handshakes_cleaned] and [refreshing] unset.
    If the claim fails, [establish] resets the peer the claim returned and
    does nothing further: the peer is not marked established, no keepalive
    is scheduled and no packet is sent. *)
Theorem C9_establish_claims_after_install (ctx : fastd_context)
    (peers : list (fastd_peer M)) (peer_conf : fastd_peer_config)
    (addr : fastd_peer_address) (initiator : bool) (A B X Y sigma : list Z)
    (ctx' : fastd_context) (peers' : list (fastd_peer M)) :
  establish E ctx peers peer_conf addr initiator A B X Y sigma
  = Some (ctx', peers') ->
  exists before peer after,
    find_peer peers peer_conf = Some (before, peer, after)
    /\ let ps := init_peer_state peer in
       let rotate :=
         is_session_valid E ctx (session ps)
         && negb (is_session_valid E ctx (old_session ps)) in
       let secret :=
         crypto_hash_sha256 (crypto E) (establish_hashinput A B X Y sigma) in
       let installed :=
         set_peer_state peer
           {| old_session := if rotate then session ps else old_session ps;
              session :=
                {| handshakes_cleaned := false; refreshing := false;
                   method_state :=
                     session_init (method E) (now ctx) secret initiator |} |} in
       let claim :=
         fastd_peer_claim_address E (before ++ installed :: after) installed
           addr in
       exists rest,
         new_events ctx ctx'
         = [EvSessionFree (if rotate then OldSession else CurrentSession)
              (is_set (method_state
                         (if rotate then old_session ps else session ps)));
            EvCrypto HashSha256; EvSessionInit secret initiator; EvPeerSeen;
            EvClaimAddress addr (fst claim)] ++ rest
         /\ (fst claim = false ->
             rest = [EvPeerReset]
             /\ peers' = before ++ fastd_peer_reset E (snd claim) :: after).
Proof.
  unfold establish.
  destruct (find_peer peers peer_conf) as [[[before peer] after]|];
    [|discriminate].
  intros H. exists before, peer, after. split; [reflexivity|].
  cbv zeta in H |- *.
  destruct (is_session_valid E ctx (session (init_peer_state peer))
            && negb (is_session_valid E ctx
                       (old_session (init_peer_state peer))));
    cbn [now emit emits conf old_session session] in H;
    destruct (fastd_peer_claim_address E _ _ addr) as [claimed peer4];
    cbn [fst snd];
    (destruct claimed; cbn [negb] in H;
     [ destruct initiator; cbn [negb] in H;
       [ injection H as <- <-; eexists;
         split; [|discriminate];
         apply new_events_app; cbn [trace emit emits];
         rewrite <- !app_assoc; reflexivity
       | cbn [fastd_buffer_alloc] in H;
         match type of H with
         | context [protocol_send E ?c ?p ?b] =>
             destruct (protocol_send_spec c p b) as (sev & Hst & _);
             destruct (protocol_send E c p b) as [ctx7 peer7]
         end;
         cbn [fst] in Hst; injection H as <- <-; eexists;
         split; [|discriminate];
         apply new_events_app; rewrite Hst; cbn [trace emit emits];
         rewrite <- !app_assoc; cbn [app]; reflexivity ]
     | injection H as <- <-; exists [EvPeerReset];
       split; [|intros _; split; reflexivity];
       apply new_events_app; cbn [trace emit emits];
       rewrite <- !app_assoc; reflexivity ]).
Qed.

(** *** The session secret *)

Lemma session_inits_app (e1 e2 : list event) :
  session_inits (e1 ++ e2) = session_inits e1 ++ session_inits e2.
Proof.
  induction e1 as [|e e1 IH]; [reflexivity|].
  destruct e; cbn [app session_inits]; rewrite IH; reflexivity.
Qed.

(** The sessions [establish] initialises: one, with the hash of its
    arguments X, Y, A, B, sigma in this order. *)
Lemma establish_session_inits (ctx : fastd_context)
    (peers : list (fastd_peer M)) (peer_conf : fastd_peer_config)
    (addr : fastd_peer_address) (initiator : bool) (A B X Y sigma : list Z)
    (ctx' : fastd_context) (peers' : list (fastd_peer M)) :
  establish E ctx peers peer_conf addr initiator A B X Y sigma
  = Some (ctx', peers') ->
  exists evs,
    trace ctx' = trace ctx ++ evs
    /\ session_inits evs
       = [(crypto_hash_sha256 (crypto E)
             (key_bytes X ++ key_bytes Y ++ key_bytes A ++ key_bytes B
              ++ key_bytes sigma), initiator)].
Proof.
  intros H. destruct (establish_spec _ _ _ _ _ _ _ _ _ _ _ _ H)
    as (slot & nonnull & claimed & rest & Hev & Hc).
  eexists. split; [exact Hev|].
  rewrite session_inits_app. cbn [session_inits app].
  unfold establish_hashinput. f_equal.
  destruct claimed.
  - destruct Hc as (sendevs & -> & Hs & _). cbn [app session_inits]. exact Hs.
  - destruct Hc as (-> & _). reflexivity.
Qed.

(** C5 (as amended): both sides derive the session secret as
    [SHA256 (A || B || X || Y || sigma)], the long-term keys first: A the
    initiator's long-term key, B the responder's long-term key, X the
    initiator's handshake key, Y the responder's handshake key, and sigma the
    encoded point.  [establish] hashes its parameters in the order X, Y, A, B,
    sigma, and both callers pass the long-term keys as X and Y and the
    handshake keys as A and B.  Stated for every session initialised by
    [finish_handshake] (the initiator, first part) and by
    [handle_finish_handshake] (the responder, second part). *)
Theorem C5_session_secret_order (ctx : fastd_context)
    (peers : list (fastd_peer M)) (addr : fastd_peer_address)
    (peer_conf : fastd_peer_config) (hkey : handshake_key)
    (peer_handshake_key : list Z) (handshake : fastd_handshake)
    (ctx' : fastd_context) (peers' : list (fastd_peer M))
    (secret : list Z) (initiator : bool) :
  (finish_handshake E ctx peers addr peer_conf hkey peer_handshake_key handshake
   = Some (ctx', peers') ->
   In (secret, initiator) (session_inits (new_events ctx ctx')) ->
   let sigma :=
     ecc_25519_store (crypto E)
       (initiator_point E ctx peer_conf hkey peer_handshake_key
          (crypto_hash_sha256 (crypto E)
             (initiator_hashinput ctx peer_conf hkey peer_handshake_key))) in
   initiator = true
   /\ secret
      = crypto_hash_sha256 (crypto E)
          (key_bytes (local_pub ctx) ++ key_bytes (peer_public_key peer_conf)
           ++ key_bytes (hk_public_key hkey) ++ key_bytes peer_handshake_key
           ++ key_bytes sigma))
  /\ (handle_finish_handshake E ctx peers addr peer_conf hkey
        peer_handshake_key handshake = Some (ctx', peers') ->
      In (secret, initiator) (session_inits (new_events ctx ctx')) ->
      let sigma :=
        ecc_25519_store (crypto E)
          (responder_point E ctx peer_conf hkey peer_handshake_key
             (crypto_hash_sha256 (crypto E)
                (responder_hashinput ctx peer_conf hkey peer_handshake_key))) in
      initiator = false
      /\ secret
         = crypto_hash_sha256 (crypto E)
             (key_bytes (peer_public_key peer_conf) ++ key_bytes (local_pub ctx)
              ++ key_bytes peer_handshake_key ++ key_bytes (hk_public_key hkey)
              ++ key_bytes sigma)).
Proof.
  split.
  - unfold finish_handshake. cbv zeta.
    destruct (ecc_25519_is_identity (crypto E) _).
    { intros H. injection H as <- <-.
      erewrite new_events_app by (cbn [trace emits]; reflexivity).
      intros []. }
    destruct (negb (crypto_auth_hmacsha256_verify (crypto E) _ _ _ =? 0)).
    { intros H. injection H as <- <-.
      erewrite new_events_app
        by (cbn [trace emits]; rewrite <- app_assoc; reflexivity).
      intros []. }
    intros H. apply establish_session_inits in H.
    destruct H as (evs & Ht & Hi).
    erewrite new_events_app
      by (rewrite Ht; cbn [trace emits]; rewrite <- !app_assoc; reflexivity).
    rewrite !session_inits_app, Hi. cbn [session_inits map app In].
    intros [Heq|[]]. injection Heq as <- <-. split; reflexivity.
  - unfold handle_finish_handshake. cbv zeta.
    destruct (ecc_25519_is_identity (crypto E) _).
    { intros H. injection H as <- <-.
      erewrite new_events_app by (cbn [trace emits]; reflexivity).
      intros []. }
    destruct (negb (crypto_auth_hmacsha256_verify (crypto E) _ _ _ =? 0)).
    { intros H. injection H as <- <-.
      erewrite new_events_app
        by (cbn [trace emits]; rewrite <- app_assoc; reflexivity).
      intros []. }
    intros H. apply establish_session_inits in H.
    destruct H as (evs & Ht & Hi).
    erewrite new_events_app
      by (rewrite Ht; cbn [trace emits]; rewrite <- !app_assoc; reflexivity).
    rewrite !session_inits_app, Hi. cbn [session_inits map app In].
    intros [Heq|[]]. injection Heq as <- <-. split; reflexivity.
Qed.

(** *** [protocol_handshake_handle] *)

Lemma maintenance_state (ctx : fastd_context) :
  exists st, protocol_state (maintenance E ctx) = Some st.
Proof.
  unfold maintenance. destruct (negb _); eexists; reflexivity.
Qed.

Lemma maintenance_conf (ctx : fastd_context) :
  conf (maintenance E ctx) = conf ctx /\ now (maintenance E ctx) = now ctx.
Proof. unfold maintenance. destruct (negb _); split; reflexivity. Qed.

Lemma match_sender_key_loop_spec (ctx : fastd_context)
    (addr : fastd_peer_address) (configs : list fastd_peer_config)
    (key : list Z) :
  exists evs,
    fst (match_sender_key_loop E ctx addr configs key) = emits evs ctx
    /\ forallb is_resolve evs = true.
Proof.
  induction configs as [|config rest IH].
  - exists []. split; [|reflexivity].
    destruct ctx; unfold emits; cbn. now rewrite app_nil_r.
  - cbn [match_sender_key_loop].
    destruct (negb _ && negb _); [exact IH|].
    destruct (memcmp_eq _ _ _); [|exact IH].
    destruct (fastd_peer_config_is_floating E config).
    + exists []. split; [|reflexivity].
      destruct ctx; unfold emits; cbn. now rewrite app_nil_r.
    + exists [EvResolvePeer (conf_id config)]. split; reflexivity.
Qed.

(** [match_sender_key] only asks for addresses to be resolved. *)
Lemma match_sender_key_spec (ctx : fastd_context) (addr : fastd_peer_address)
    (peer_conf : option fastd_peer_config) (key : list Z) :
  exists evs,
    fst (match_sender_key E ctx addr peer_conf key) = emits evs ctx
    /\ forallb is_resolve evs = true.
Proof.
  assert (Z0 : exists evs, ctx = emits evs ctx /\ forallb is_resolve evs = true).
  { exists []. split; [|reflexivity].
    destruct ctx; unfold emits; cbn. now rewrite app_nil_r. }
  unfold match_sender_key. destruct peer_conf as [pc|].
  - destruct (memcmp_eq _ _ _); [exact Z0|].
    destruct (_ || _); [apply match_sender_key_loop_spec|exact Z0].
  - apply match_sender_key_loop_spec.
Qed.

Lemma dropped_after_maintenance (ctx : fastd_context)
    (peers : list (fastd_peer M)) :
  dropped E ctx peers (Some (maintenance E ctx, peers)).
Proof.
  exists (maintenance E ctx). split; [reflexivity|]. split; [reflexivity|].
  exists []. split; [now rewrite app_nil_r|reflexivity].
Qed.

Lemma dropped_after_match (ctx : fastd_context) (peers : list (fastd_peer M))
    (addr : fastd_peer_address) (peer_conf : option fastd_peer_config)
    (key : list Z) :
  dropped E ctx peers
    (Some (fst (match_sender_key E (maintenance E ctx) addr peer_conf key),
           peers)).
Proof.
  destruct (match_sender_key_spec (maintenance E ctx) addr peer_conf key)
    as (evs & -> & Hr).
  eexists. split; [reflexivity|]. split; [reflexivity|].
  exists evs. split; [reflexivity|exact Hr].
Qed.

(** The outcomes of [protocol_handshake_handle]: the handshake is dropped, or
    all checks have passed and it is dispatched on its type. *)
Lemma protocol_handshake_handle_cases (ctx : fastd_context)
    (peers : list (fastd_peer M)) (addr : fastd_peer_address)
    (peer_conf : option fastd_peer_config) (handshake : fastd_handshake) :
  let r := protocol_handshake_handle E ctx peers addr peer_conf handshake in
  let m :=
    match_sender_key E (maintenance E ctx) addr peer_conf
      (rec_data (records handshake RECORD_SENDER_KEY)) in
  let sender_hk := rec_data (records handshake RECORD_SENDER_HANDSHAKE_KEY) in
  dropped E ctx peers r
  \/ (has_field handshake RECORD_SENDER_KEY 32 = true
      /\ has_field handshake RECORD_SENDER_HANDSHAKE_KEY 32 = true
      /\ (1 < hs_type handshake ->
          has_field handshake RECORD_RECEIPIENT_KEY 32 = true
          /\ has_field handshake RECORD_RECEIPIENT_HANDSHAKE_KEY 32 = true
          /\ has_field handshake RECORD_T 32 = true)
      /\ (has_field handshake RECORD_RECEIPIENT_KEY 32 = true ->
          memcmp_eq (local_pub ctx)
            (rec_data (records handshake RECORD_RECEIPIENT_KEY)) 32 = true)
      /\ exists pc st,
          snd m = Some pc
          /\ protocol_state (maintenance E ctx) = Some st
          /\ r = if hs_type handshake =? 1 then
                   Some (respond_handshake E (fst m) addr pc
                           (cur_handshake_key st) sender_hk handshake, peers)
                 else if hs_type handshake =? 2 then
                   match select_handshake_key E (fst m) st handshake with
                   | Some hkey =>
                       finish_handshake E (fst m) peers addr pc hkey sender_hk
                                        handshake
                   | None => Some (fst m, peers)
                   end
                 else if hs_type handshake =? 3 then
                   match select_handshake_key E (fst m) st handshake with
                   | Some hkey =>
                       handle_finish_handshake E (fst m) peers addr pc hkey
                                               sender_hk handshake
                   | None => Some (fst m, peers)
                   end
                 else Some (fst m, peers)).
Proof.
  intros r m sender_hk. subst r. unfold protocol_handshake_handle.
  change PUBLICKEYBYTES with 32%nat. change HMACBYTES with 32%nat.
  destruct (has_field handshake RECORD_SENDER_KEY 32) eqn:Hsk; cbn [negb];
    [|left; apply dropped_after_maintenance].
  pose proof (dropped_after_match ctx peers addr peer_conf
                (rec_data (records handshake RECORD_SENDER_KEY))) as D.
  pose proof (match_sender_key_spec (maintenance E ctx) addr peer_conf
                (rec_data (records handshake RECORD_SENDER_KEY))) as MS.
  fold m in D, MS |- *. destruct m as [ctx2 matched]. cbn [fst snd] in *.
  destruct MS as (evs & Hctx2 & _).
  assert (Hlp : local_pub ctx2 = local_pub ctx).
  { subst ctx2. unfold local_pub. cbn [conf emits].
    now rewrite (proj1 (maintenance_conf ctx)). }
  assert (Hst : protocol_state ctx2 = protocol_state (maintenance E ctx))
    by (subst ctx2; reflexivity).
  destruct matched as [pc|]; [|left; exact D].
  rewrite Hlp, Hst.
  destruct (1 <? hs_type handshake) eqn:G1;
    destruct (has_field handshake RECORD_RECEIPIENT_KEY 32) eqn:Hrk;
    cbn [negb andb]; try (left; exact D);
    destruct (memcmp_eq (local_pub ctx)
                (rec_data (records handshake RECORD_RECEIPIENT_KEY)) 32) eqn:Heq;
    cbn [negb andb]; try (left; exact D);
    destruct (has_field handshake RECORD_SENDER_HANDSHAKE_KEY 32) eqn:Hshk;
    cbn [negb andb]; try (left; exact D);
    destruct (has_field handshake RECORD_RECEIPIENT_HANDSHAKE_KEY 32) eqn:Hrhk;
    cbn [negb andb]; try (left; exact D);
    destruct (has_field handshake RECORD_T 32) eqn:Ht;
    cbn [negb andb]; try (left; exact D);
    destruct (maintenance_state ctx) as (st & Hm); rewrite Hm;
    right;
    (split; [reflexivity|]); (split; [reflexivity|]);
    (split; [intros Hlt; try (apply Z.ltb_ge in G1; lia);
             repeat split; reflexivity|]);
    (split; [intros Hh; try discriminate Hh; reflexivity|]);
    exists pc, st; repeat split; reflexivity.
Qed.

(** With all records in place and a known sender the handshake is
    dispatched on its type. *)
Lemma protocol_handshake_handle_dispatch (ctx : fastd_context)
    (peers : list (fastd_peer M)) (addr : fastd_peer_address)
    (peer_conf : option fastd_peer_config) (handshake : fastd_handshake)
    (pc : fastd_peer_config) (st : fastd_protocol_state) :
  let r := protocol_handshake_handle E ctx peers addr peer_conf handshake in
  let m :=
    match_sender_key E (maintenance E ctx) addr peer_conf
      (rec_data (records handshake RECORD_SENDER_KEY)) in
  let sender_hk := rec_data (records handshake RECORD_SENDER_HANDSHAKE_KEY) in
  has_field handshake RECORD_SENDER_KEY 32 = true ->
  has_field handshake RECORD_SENDER_HANDSHAKE_KEY 32 = true ->
  (1 < hs_type handshake ->
   has_field handshake RECORD_RECEIPIENT_KEY 32 = true
   /\ has_field handshake RECORD_RECEIPIENT_HANDSHAKE_KEY 32 = true
   /\ has_field handshake RECORD_T 32 = true) ->
  (has_field handshake RECORD_RECEIPIENT_KEY 32 = true ->
   memcmp_eq (local_pub ctx)
     (rec_data (records handshake RECORD_RECEIPIENT_KEY)) 32 = true) ->
  snd m = Some pc ->
  protocol_state (maintenance E ctx) = Some st ->
  r = if hs_type handshake =? 1 then
        Some (respond_handshake E (fst m) addr pc
                (cur_handshake_key st) sender_hk handshake, peers)
      else if hs_type handshake =? 2 then
        match select_handshake_key E (fst m) st handshake with
        | Some hkey =>
            finish_handshake E (fst m) peers addr pc hkey sender_hk handshake
        | None => Some (fst m, peers)
        end
      else if hs_type handshake =? 3 then
        match select_handshake_key E (fst m) st handshake with
        | Some hkey =>
            handle_finish_handshake E (fst m) peers addr pc hkey sender_hk
                                    handshake
        | None => Some (fst m, peers)
        end
      else Some (fst m, peers).
Proof.
  intros r m sender_hk Hsk Hshk Hgt Heq Hm Hst.
  subst r. unfold protocol_handshake_handle.
  change PUBLICKEYBYTES with 32%nat. change HMACBYTES with 32%nat.
  rewrite Hsk. cbn [negb].
  pose proof (match_sender_key_spec (maintenance E ctx) addr peer_conf
                (rec_data (records handshake RECORD_SENDER_KEY))) as MS.
  fold m in MS |- *. destruct m as [ctx2 matched]. cbn [fst snd] in *.
  destruct MS as (evs & Hctx2 & _). subst matched.
  assert (Hlp : local_pub ctx2 = local_pub ctx).
  { subst ctx2. unfold local_pub. cbn [conf emits].
    now rewrite (proj1 (maintenance_conf ctx)). }
  assert (Hst2 : protocol_state ctx2 = Some st)
    by (subst ctx2; exact Hst).
  rewrite Hlp, Hst2, Hshk. cbn [negb].
  destruct (1 <? hs_type handshake) eqn:G1.
  - apply Z.ltb_lt in G1. destruct (Hgt G1) as (Hrk & Hrhk & Ht).
    rewrite Hrk, Hrhk, Ht, (Heq Hrk). reflexivity.
  - cbn [andb].
    destruct (has_field handshake RECORD_RECEIPIENT_KEY 32) eqn:Hrk.
    + rewrite (Heq eq_refl). reflexivity.
    + reflexivity.
Qed.

Lemma handshake_key_valid_after_match (ctx : fastd_context)
    (addr : fastd_peer_address) (peer_conf : option fastd_peer_config)
    (key : list Z) (k : handshake_key) :
  is_handshake_key_valid E
    (fst (match_sender_key E (maintenance E ctx) addr peer_conf key)) k
  = is_handshake_key_valid E ctx k.
Proof.
  destruct (match_sender_key_spec (maintenance E ctx) addr peer_conf key)
    as (evs & -> & _).
  unfold is_handshake_key_valid. cbn [now emits].
  now rewrite (proj2 (maintenance_conf ctx)).
Qed.

(** C8 (as amended): apart from the maintenance of the handshake-key pool,
    which runs first for every message and may generate a new handshake key,
    [protocol_handshake_handle] makes no call into the cryptographic
    libraries and sends no reply unless
    the message carries a sender key and a sender handshake key of 32 bytes
    and, for types 2 and 3, a recipient key of 32 bytes equal to the local
    public key, a recipient handshake key of 32 bytes and a T record of 32
    bytes.  Messages of a type other than 1, 2 and 3 are dropped in the same
    way.  For types 2 and 3, with the records in place and the sender known,
    the local handshake key is the current pool entry if that is valid and its
    public half is the received recipient handshake key, else the previous
    entry under the same test, and the message is dropped if neither
    qualifies. *)
Theorem C8_handshake_checks (ctx : fastd_context)
    (peers : list (fastd_peer M)) (addr : fastd_peer_address)
    (peer_conf : option fastd_peer_config) (handshake : fastd_handshake) :
  let r := protocol_handshake_handle E ctx peers addr peer_conf handshake in
  let m :=
    match_sender_key E (maintenance E ctx) addr peer_conf
      (rec_data (records handshake RECORD_SENDER_KEY)) in
  let sender_hk := rec_data (records handshake RECORD_SENDER_HANDSHAKE_KEY) in
  let received :=
    rec_data (records handshake RECORD_RECEIPIENT_HANDSHAKE_KEY) in
  (records_complete ctx handshake = false -> dropped E ctx peers r)
  /\ (hs_type handshake <> 1 -> hs_type handshake <> 2 ->
      hs_type handshake <> 3 -> dropped E ctx peers r)
  /\ (hs_type handshake = 2 \/ hs_type handshake = 3 ->
      records_complete ctx handshake = true ->
      forall pc st,
        snd m = Some pc ->
        protocol_state (maintenance E ctx) = Some st ->
        let process hkey :=
          if hs_type handshake =? 2
          then finish_handshake E (fst m) peers addr pc hkey sender_hk handshake
          else handle_finish_handshake E (fst m) peers addr pc hkey sender_hk
                                       handshake in
        let current_ok :=
          is_handshake_key_valid E ctx (cur_handshake_key st)
          && memcmp_eq (hk_public_key (cur_handshake_key st)) received 32 in
        let previous_ok :=
          is_handshake_key_valid E ctx (prev_handshake_key st)
          && memcmp_eq (hk_public_key (prev_handshake_key st)) received 32 in
        (current_ok = true -> r = process (cur_handshake_key st))
        /\ (current_ok = false -> previous_ok = true ->
            r = process (prev_handshake_key st))
        /\ (current_ok = false -> previous_ok = false ->
            dropped E ctx peers r)).
Proof.
  intros r m sender_hk received.
  pose proof (protocol_handshake_handle_cases ctx peers addr peer_conf handshake)
    as C. cbv zeta in C. fold r m sender_hk in C.
  split; [|split].
  - intros Hrc. destruct C as [D|(Hsk & Hshk & Hgt & Heq & _)]; [exact D|].
    exfalso. unfold records_complete in Hrc. rewrite Hsk, Hshk in Hrc.
    cbn [andb] in Hrc.
    destruct ((hs_type handshake =? 2) || (hs_type handshake =? 3)) eqn:T23;
      [|discriminate Hrc].
    assert (G : 1 < hs_type handshake).
    { apply orb_prop in T23 as [T|T]; apply Z.eqb_eq in T; lia. }
    destruct (Hgt G) as (Hrk & Hrhk & Ht).
    rewrite Hrk, (Heq Hrk), Hrhk, Ht in Hrc. discriminate Hrc.
  - intros N1 N2 N3.
    destruct C as [D|(_ & _ & _ & _ & pc & st & _ & _ & Hr)]; [exact D|].
    rewrite Hr.
    apply Z.eqb_neq in N1, N2, N3. rewrite N1, N2, N3.
    apply dropped_after_match.
  - intros T23 Hrc pc st Hm Hst process current_ok previous_ok.
    unfold records_complete in Hrc.
    replace ((hs_type handshake =? 2) || (hs_type handshake =? 3)) with true
      in Hrc
      by (symmetry; destruct T23 as [->| ->]; reflexivity).
    cbv iota in Hrc.
    apply andb_prop in Hrc as [Hrc H4]. apply andb_prop in Hrc as [Hsk Hshk].
    apply andb_prop in H4 as [H4 Ht]. apply andb_prop in H4 as [H4 Hrhk].
    apply andb_prop in H4 as [Hrk Heq].
    pose proof (protocol_handshake_handle_dispatch ctx peers addr peer_conf
                  handshake pc st) as Dp.
    cbv zeta in Dp. fold r m sender_hk in Dp.
    rewrite (Dp Hsk Hshk (fun _ => conj Hrk (conj Hrhk Ht)) (fun _ => Heq)
                Hm Hst).
    clear C Dp.
    unfold select_handshake_key. fold received.
    unfold m. rewrite !handshake_key_valid_after_match. fold m.
    change PUBLICKEYBYTES with 32%nat. fold current_ok previous_ok.
    subst process. cbv beta.
    destruct T23 as [T|T]; rewrite T; cbn [Z.eqb Pos.eqb];
      (split; [intros H1; rewrite H1; reflexivity|]);
      (split; [intros H1 H2; rewrite H1, H2; reflexivity|]);
      intros H1 H2; rewrite H1, H2; apply dropped_after_match.
Qed.

(** C10: whenever a handshake of any type carries a recipient-key record of
    32 bytes whose value differs from the local public key,
    [protocol_handshake_handle] drops it: beyond the maintenance of the key
    pool nothing of the cryptographic libraries is called and nothing is
    sent.  A type-1 handshake without a recipient-key record, with a sender
    key of a known peer and a sender handshake key, is answered by
    [respond_handshake] with the current handshake key: for type 1 the record
    is optional. *)
Theorem C10_recipient_key_check (ctx : fastd_context)
    (peers : list (fastd_peer M)) (addr : fastd_peer_address)
    (peer_conf : option fastd_peer_config) (handshake : fastd_handshake) :
  let r := protocol_handshake_handle E ctx peers addr peer_conf handshake in
  let m :=
    match_sender_key E (maintenance E ctx) addr peer_conf
      (rec_data (records handshake RECORD_SENDER_KEY)) in
  (has_field handshake RECORD_RECEIPIENT_KEY 32 = true ->
   memcmp_eq (local_pub ctx)
     (rec_data (records handshake RECORD_RECEIPIENT_KEY)) 32 = false ->
   dropped E ctx peers r)
  /\ (hs_type handshake = 1 ->
      has_field handshake RECORD_RECEIPIENT_KEY 32 = false ->
      has_field handshake RECORD_SENDER_KEY 32 = true ->
      has_field handshake RECORD_SENDER_HANDSHAKE_KEY 32 = true ->
      forall pc st,
        snd m = Some pc ->
        protocol_state (maintenance E ctx) = Some st ->
        r = Some (respond_handshake E (fst m) addr pc (cur_handshake_key st)
                    (rec_data (records handshake RECORD_SENDER_HANDSHAKE_KEY))
                    handshake, peers)).
Proof.
  intros r m. split.
  - intros Hrk Hne.
    pose proof (protocol_handshake_handle_cases ctx peers addr peer_conf
                  handshake) as C.
    cbv zeta in C. fold r in C.
    destruct C as [D|(_ & _ & _ & Heq & _)]; [exact D|].
    rewrite (Heq Hrk) in Hne. discriminate Hne.
  - intros T Hrk Hsk Hshk pc st Hm Hst.
    pose proof (protocol_handshake_handle_dispatch ctx peers addr peer_conf
                  handshake pc st) as Dp.
    cbv zeta in Dp. fold r m in Dp.
    rewrite Dp; try assumption.
    + rewrite T. reflexivity.
    + intros G. lia.
    + intros H. rewrite H in Hrk. discriminate Hrk.
Qed.

End HandlerFacts.

(** *** The handler on the sample environment *)

Import Sample.

Lemma C5_session_secret_order_witness :
  (finish_run = Some (run_ctx finish_run, run_peers finish_run)
   /\ In (key_of 1 ++ key_of 2 ++ key_of 3 ++ key_of 4 ++ key_of 4, true)
         (session_inits (new_events sample_ctx (run_ctx finish_run)))
   /\ key_of 1 ++ key_of 2 ++ key_of 3 ++ key_of 4 ++ key_of 4
      = crypto_hash_sha256 (crypto (sample_env true))
          (key_bytes (local_pub sample_ctx)
           ++ key_bytes (peer_public_key sample_peer_conf)
           ++ key_bytes (hk_public_key sample_handshake_key)
           ++ key_bytes (key_of 4) ++ key_bytes (key_of 4)))
  /\ (handle_finish_run
      = Some (run_ctx handle_finish_run, run_peers handle_finish_run)
      /\ In (key_of 2 ++ key_of 1 ++ key_of 4 ++ key_of 3 ++ key_of 4, false)
            (session_inits (new_events sample_ctx (run_ctx handle_finish_run)))
      /\ key_of 2 ++ key_of 1 ++ key_of 4 ++ key_of 3 ++ key_of 4
         = crypto_hash_sha256 (crypto (sample_env true))
             (key_bytes (peer_public_key sample_peer_conf)
              ++ key_bytes (local_pub sample_ctx)
              ++ key_bytes (key_of 4)
              ++ key_bytes (hk_public_key sample_handshake_key)
              ++ key_bytes (key_of 4))).
Proof.
  assert (R : finish_run = Some (run_ctx finish_run, run_peers finish_run))
    by (vm_compute; reflexivity).
  assert (I : In (key_of 1 ++ key_of 2 ++ key_of 3 ++ key_of 4 ++ key_of 4, true)
                 (session_inits (new_events sample_ctx (run_ctx finish_run))))
    by (vm_compute; left; reflexivity).
  assert (R' : handle_finish_run
               = Some (run_ctx handle_finish_run, run_peers handle_finish_run))
    by (vm_compute; reflexivity).
  assert (I' : In (key_of 2 ++ key_of 1 ++ key_of 4 ++ key_of 3 ++ key_of 4,
                   false)
                  (session_inits
                     (new_events sample_ctx (run_ctx handle_finish_run))))
    by (vm_compute; left; reflexivity).
  split.
  - split; [exact R|]. split; [exact I|].
    exact (proj2 (proj1 (C5_session_secret_order (sample_env true) sample_ctx
                           [fresh_peer] 88 sample_peer_conf
                           sample_handshake_key (key_of 4) response
                           (run_ctx finish_run) (run_peers finish_run) _ true)
                    R I)).
  - split; [exact R'|]. split; [exact I'|].
    exact (proj2 (proj2 (C5_session_secret_order (sample_env true) sample_ctx
                           [fresh_peer] 88 sample_peer_conf
                           sample_handshake_key (key_of 4) finish_message
                           (run_ctx handle_finish_run)
                           (run_peers handle_finish_run) _ false)
                    R' I')).
Defined.

(** C5 as stated fails: with a hash that returns its input, the secret the
    initiator derives starts with its long-term key (bytes 1), then the
    responder's long-term key (2), then the two handshake keys (3, 4); the
    statement puts the handshake keys first. *)
Lemma C5_counterexample :
  session_inits (new_events sample_ctx (run_ctx finish_run))
  = [(key_of 1 ++ key_of 2 ++ key_of 3 ++ key_of 4 ++ key_of 4, true)]
  /\ key_of 1 ++ key_of 2 ++ key_of 3 ++ key_of 4 ++ key_of 4
     <> session_secret_spec (sample_env true)
          (hk_public_key sample_handshake_key) (key_of 4)
          (local_pub sample_ctx) (peer_public_key sample_peer_conf) (key_of 4).
Proof.
  split; [vm_compute; reflexivity|].
  intros H. vm_compute in H. discriminate H.
Qed.



Lemma sample_method_keeps_pointers : keeps_pointers sample_method.
Proof.
  intros t s b. split; [reflexivity|].
  cbn [decrypt sample_method]. destruct (data b) as [|x payload]; [reflexivity|].
  destruct (x =? sample_tag s); reflexivity.
Qed.

Lemma C7_receive_path_witness :
  fastd_peer_is_established rekeyed_peer = true
  /\ peer_protocol_state rekeyed_peer
     = Some {| old_session := sample_session true true 5;
               session := sample_session true false 6 |}
  /\ is_session_valid (sample_env true) sample_ctx (sample_session true false 6)
     = true
  /\ decrypt_slots
       (new_events sample_ctx
          (fst (protocol_handle_recv (sample_env true) sample_ctx rekeyed_peer
                  (packet 1 [6; 42]))))
     = [OldSession; CurrentSession]
  /\ In (EvSessionFree OldSession true)
        (new_events sample_ctx
           (fst (protocol_handle_recv (sample_env true) sample_ctx rekeyed_peer
                   (packet 1 [6; 42]))))
  /\ exists refresh post,
      new_events sample_ctx
        (fst (protocol_handle_recv (sample_env true) sample_ctx rekeyed_peer
                (packet 1 [6; 42])))
      = [EvDecrypt OldSession (packet 1 [6; 42]) None;
         EvDecrypt CurrentSession (packet 1 [6; 42]) (Some (packet 1 [42]));
         EvDeletePeerHandshakes; EvBufferAlloc (packet 0 [])]
        ++ (refresh
            ++ [EvEncrypt OldSession (packet 0 []) (Some (packet 0 [5]));
                EvSend 77 (packet 0 [5]); EvDeletePeerKeepalives;
                EvScheduleKeepalive 20000])
        ++ post.
Proof.
  split; [reflexivity|]. split; [reflexivity|]. split; [reflexivity|].
  pose proof (C7_receive_path (sample_env true) sample_ctx rekeyed_peer
                {| old_session := sample_session true true 5;
                   session := sample_session true false 6 |}
                (packet 1 [6; 42]) eq_refl eq_refl eq_refl) as W.
  cbv zeta in W. destruct W as (Worder & Wcur & _).
  split; [exact Worder|].
  destruct (Wcur eq_refl eq_refl) as (ps' & _ & _ & _ & Wfree & _ & Wconf).
  split; [exact (Wfree sample_method_keeps_pointers eq_refl)|].
  destruct (Wconf eq_refl) as (_ & Wsend).
  match type of Wsend with
  | if ?c then _ else _ => change c with true in Wsend
  end.
  lazy beta iota zeta in Wsend.
  destruct Wsend as (refresh & post & _ & Hev).
  exists refresh, post. rewrite Hev. reflexivity.
Defined.

(** C7 as stated fails for an established peer whose current session is no
    longer valid: the packet is freed and decrypted with no session, neither
    with the previous one, though that is valid and would decrypt the packet,
    nor with the current one. *)
Lemma C7_counterexample :
  (fastd_peer_is_established expired_peer = true
   /\ is_session_valid (sample_env true) sample_ctx
        (sample_session true true 5) = true
   /\ snd (decrypt (method (sample_env true)) (now sample_ctx)
             (method_state (sample_session true true 5)) (packet 1 [5; 42]))
      = Some (packet 1 [42])
   /\ decrypt_order_spec (sample_env true) sample_ctx
        {| old_session := sample_session true true 5;
           session := expired_session |} (packet 1 [5; 42])
      = [OldSession]
   /\ new_events sample_ctx
        (fst (protocol_handle_recv (sample_env true) sample_ctx expired_peer
                (packet 1 [5; 42])))
      = [EvBufferFree (packet 1 [5; 42])])
  /\ (fastd_peer_is_established lapsed_peer = true
      /\ decrypt_order_spec (sample_env true) sample_ctx
           {| old_session := no_session; session := expired_session |}
           (packet 1 [6; 42])
         = [CurrentSession]
      /\ new_events sample_ctx
           (fst (protocol_handle_recv (sample_env true) sample_ctx lapsed_peer
                   (packet 1 [6; 42])))
         = [EvBufferFree (packet 1 [6; 42])]).
Proof. repeat split; vm_compute; reflexivity. Qed.

Lemma C8_handshake_checks_witness :
  records_complete sample_ctx no_sender_key = false
  /\ dropped (sample_env true) sample_ctx [fresh_peer]
       (protocol_handshake_handle (sample_env true) sample_ctx [fresh_peer] 88
          None no_sender_key)
  /\ dropped (sample_env true) sample_ctx [fresh_peer]
       (protocol_handshake_handle (sample_env true) sample_ctx [fresh_peer] 88
          None unknown_type)
  /\ records_complete sample_ctx response = true
  /\ protocol_handshake_handle (sample_env true) sample_ctx [fresh_peer] 88
       None response
     = finish_handshake (sample_env true)
         (fst (match_sender_key (sample_env true)
                 (maintenance (sample_env true) sample_ctx) 88 None
                 (rec_data (records response RECORD_SENDER_KEY))))
         [fresh_peer] 88 sample_peer_conf sample_handshake_key
         (rec_data (records response RECORD_SENDER_HANDSHAKE_KEY)) response.
Proof.
  split; [reflexivity|].
  split.
  { exact (proj1 (C8_handshake_checks (sample_env true) sample_ctx
                    [fresh_peer] 88 None no_sender_key) eq_refl). }
  split.
  { apply (proj1 (proj2 (C8_handshake_checks (sample_env true) sample_ctx
                           [fresh_peer] 88 None unknown_type)));
      intros H; vm_compute in H; discriminate H. }
  split; [reflexivity|].
  refine (proj1 (proj2 (proj2 (C8_handshake_checks (sample_env true)
                                 sample_ctx [fresh_peer] 88 None response))
                   (or_introl eq_refl) eq_refl sample_peer_conf
                   {| prev_handshake_key := sample_prev_handshake_key;
                      cur_handshake_key := sample_handshake_key |}
                   eq_refl eq_refl) eq_refl).
Defined.

(** C8 as stated fails: [maintenance] runs before any check, and when the
    current handshake key is no longer preferred it draws random bytes and
    computes a new key pair, also for a message that carries no sender key. *)
Lemma C8_counterexample :
  records_complete later_ctx no_sender_key = false
  /\ filter is_crypto
       (new_events later_ctx
          (run_ctx (protocol_handshake_handle (sample_env true) later_ctx
                      [fresh_peer] 88 None no_sender_key)))
     = [EvCrypto RandomBytes; EvCrypto SecretSanitize;
        EvCrypto ScalarmultBase; EvCrypto PointStore].
Proof. split; vm_compute; reflexivity. Qed.

Lemma C9_establish_claims_after_install_witness :
  conflict_run = Some (run_ctx conflict_run, run_peers conflict_run)
  /\ new_events sample_ctx (run_ctx conflict_run)
     = [EvSessionFree OldSession false; EvCrypto HashSha256;
        EvSessionInit
          (key_of 2 ++ key_of 1 ++ key_of 4 ++ key_of 3 ++ key_of 7) false;
        EvPeerSeen; EvClaimAddress 88 false; EvPeerReset]
  /\ run_peers conflict_run = [fastd_peer_reset (sample_env false)
                                 established_peer].
Proof.
  assert (R : conflict_run = Some (run_ctx conflict_run, run_peers conflict_run))
    by (vm_compute; reflexivity).
  split; [exact R|].
  destruct (C9_establish_claims_after_install (sample_env false) sample_ctx
              [established_peer] sample_peer_conf 88 false
              (key_of 4) (key_of 3) (key_of 2) (key_of 1) (key_of 7)
              (run_ctx conflict_run) (run_peers conflict_run) R)
    as (before & peer & after & F & W).
  vm_compute in F. injection F as <- <- <-.
  cbv zeta in W. destruct W as (rest & Hev & Hfail).
  destruct (Hfail eq_refl) as (Hrest & Hpeers).
  split.
  - rewrite Hev, Hrest. vm_compute. reflexivity.
  - rewrite Hpeers. vm_compute. reflexivity.
Defined.

(** C9 as stated fails: the address is not claimed first.  For a peer with an
    established session and an address that cannot be claimed, [establish]
    has freed a session slot and initialised the new method state before it
    calls [fastd_peer_claim_address]; the reset that follows leaves the peer
    without the session it had. *)
Lemma C9_counterexample :
  claim_first (new_events sample_ctx (run_ctx conflict_run)) = false
  /\ session_inits (new_events sample_ctx (run_ctx conflict_run))
     = [(key_of 2 ++ key_of 1 ++ key_of 4 ++ key_of 3 ++ key_of 7, false)]
  /\ map peer_protocol_state (run_peers conflict_run)
     <> map peer_protocol_state [established_peer].
Proof.
  split; [vm_compute; reflexivity|]. split; [vm_compute; reflexivity|].
  intros H. vm_compute in H. discriminate H.
Qed.

Lemma C10_recipient_key_check_witness :
  has_field wrong_recipient RECORD_RECEIPIENT_KEY 32 = true
  /\ memcmp_eq (local_pub sample_ctx)
       (rec_data (records wrong_recipient RECORD_RECEIPIENT_KEY)) 32 = false
  /\ dropped (sample_env true) sample_ctx [fresh_peer]
       (protocol_handshake_handle (sample_env true) sample_ctx [fresh_peer] 88
          None wrong_recipient)
  /\ protocol_handshake_handle (sample_env true) sample_ctx [fresh_peer] 88
       None init_without_recipient
     = Some (respond_handshake (sample_env true)
               (fst (match_sender_key (sample_env true)
                       (maintenance (sample_env true) sample_ctx) 88 None
                       (rec_data (records init_without_recipient
                                          RECORD_SENDER_KEY))))
               88 sample_peer_conf sample_handshake_key
               (rec_data (records init_without_recipient
                                  RECORD_SENDER_HANDSHAKE_KEY))
               init_without_recipient,
             [fresh_peer]).
Proof.
  split; [reflexivity|]. split; [reflexivity|].
  split.
  { exact (proj1 (C10_recipient_key_check (sample_env true) sample_ctx
                    [fresh_peer] 88 None wrong_recipient) eq_refl eq_refl). }
  exact (proj2 (C10_recipient_key_check (sample_env true) sample_ctx
                  [fresh_peer] 88 None init_without_recipient)
           eq_refl eq_refl eq_refl eq_refl sample_peer_conf
           {| prev_handshake_key := sample_prev_handshake_key;
              cur_handshake_key := sample_handshake_key |}
           eq_refl eq_refl).
Defined.

End ProtocolFacts.

(** ** Series of packets on the record layer *)

Module TrafficFacts.
Import Common CommonFacts Traffic.

Section Checks.
Variable T : target.
Variable timespec_diff : timespec -> timespec -> Z.

Lemma le_value_inj (a b : list Z) :
  length a = length b -> Forall is_byte a -> Forall is_byte b ->
  le_value a = le_value b -> a = b.
Proof.
  revert b. induction a as [|x a IH]; intros [|y b] L Ha Hb E;
    try discriminate; [reflexivity|].
  inversion Ha as [|? ? Hx Ha']; inversion Hb as [|? ? Hy Hb']; subst.
  cbn [le_value] in E. unfold is_byte in Hx, Hy.
  assert (x = y) by lia. subst y.
  f_equal. apply IH; [now inversion L|assumption|assumption|lia].
Qed.

(** What [fastd_method_is_nonce_valid] reports when it accepts. *)
Lemma is_nonce_valid_true (ctx : fastd_context_t)
    (session : fastd_method_common_t) (nonce : list Z) (age0 age : Z) :
  fastd_method_is_nonce_valid T timespec_diff ctx session nonce age0 = (true, age) ->
  parity nonce = parity (receive_nonce session).
Proof.
  unfold fastd_method_is_nonce_valid, parity. intros V.
  destruct (_ =? _) eqn:P; cbn [negb] in V; [|discriminate].
  now apply Z.eqb_eq in P.
Qed.

Lemma is_nonce_valid_exact (ctx : fastd_context_t)
    (session : fastd_method_common_t) (nonce : list Z) (age0 age : Z) :
  nonce_wf nonce -> nonce_wf (receive_nonce session) ->
  fastd_method_is_nonce_valid T timespec_diff ctx session nonce age0 = (true, age) ->
  2 * age = le_value (receive_nonce session) - le_value nonce.
Proof.
  intros Hn Hr V.
  pose proof (is_nonce_valid_true _ _ _ _ _ V) as P.
  rewrite (is_nonce_valid_age _ _ _ _ _ _ _ Hn Hr V).
  apply age_exact. exact P.
Qed.

(** A newer nonce of the right direction passes both checks and becomes
    [receive_nonce]. *)
Lemma newer_nonce_accepted (ctx : fastd_context_t)
    (session : fastd_method_common_t) (nonce : list Z) :
  nonce_wf nonce -> nonce_wf (receive_nonce session) ->
  parity nonce = parity (receive_nonce session) ->
  le_value (receive_nonce session) < le_value nonce ->
  let r := nonce_check T timespec_diff ctx session nonce in
  fst r = true
  /\ receive_nonce (snd r) = nonce
  /\ receive_last (snd r) = now ctx
  /\ send_nonce (snd r) = send_nonce session.
Proof.
  intros Hn Hr P L. cbv zeta.
  pose proof (age_exact _ _ P) as X.
  set (age := Z.quot (le_value (receive_nonce session) - le_value nonce) 2) in *.
  assert (A : age < 0) by lia.
  unfold nonce_check, fastd_method_is_nonce_valid.
  unfold parity in P. rewrite P, Z.eqb_refl. cbn [negb].
  rewrite age_loop_le_value, !firstn_nonce by assumption.
  rewrite Z.mul_0_l, Z.add_0_l. fold age.
  replace (0 <=? age) with false by (symmetry; apply Z.leb_gt; lia).
  unfold fastd_method_reorder_check.
  replace (age <? 0) with true by (symmetry; apply Z.ltb_lt; lia).
  cbn [fst snd receive_nonce receive_last send_nonce].
  rewrite firstn_nonce by assumption. repeat split.
Qed.

Lemma parity_firstn (n : list Z) :
  parity (firstn COMMON_NONCEBYTES n) = parity n.
Proof. destruct n; reflexivity. Qed.

(** Neither check touches [send_nonce], and [receive_nonce] keeps its
    direction. *)
Lemma nonce_check_keeps_direction (ctx : fastd_context_t)
    (session : fastd_method_common_t) (nonce : list Z) :
  let r := nonce_check T timespec_diff ctx session nonce in
  send_nonce (snd r) = send_nonce session
  /\ parity (receive_nonce (snd r)) = parity (receive_nonce session).
Proof.
  cbv zeta. unfold nonce_check.
  destruct (fastd_method_is_nonce_valid T timespec_diff ctx session nonce 0)
    as [[|] age] eqn:V; [|split; reflexivity].
  apply is_nonce_valid_true in V.
  unfold fastd_method_reorder_check.
  destruct (age <? 0).
  - cbn [snd send_nonce receive_nonce]. rewrite parity_firstn. now split.
  - destruct (_ || _); split; reflexivity.
Qed.

Lemma nonce_checks_keep_direction (conf0 : fastd_config_t)
    (session : fastd_method_common_t) (pkts : list (timespec * list Z)) :
  let r := nonce_checks T timespec_diff conf0 session pkts in
  send_nonce (snd r) = send_nonce session
  /\ parity (receive_nonce (snd r)) = parity (receive_nonce session).
Proof.
  revert session. induction pkts as [|[t n] rest IH]; intros session.
  - split; reflexivity.
  - cbv zeta. cbn [nonce_checks].
    pose proof (nonce_check_keeps_direction {| now := t; conf := conf0 |}
                  session n) as K. cbv zeta in K.
    destruct (nonce_check T timespec_diff {| now := t; conf := conf0 |} session n)
      as [ok s1].
    specialize (IH s1). cbv zeta in IH.
    destruct (nonce_checks T timespec_diff conf0 s1 rest) as [oks s2].
    cbn [snd] in *. destruct K as [K1 K2], IH as [I1 I2]. split; congruence.
Qed.

Lemma nonce_checks_app (conf0 : fastd_config_t)
    (session : fastd_method_common_t) (l1 l2 : list (timespec * list Z)) :
  nonce_checks T timespec_diff conf0 session (l1 ++ l2)
  = (fst (nonce_checks T timespec_diff conf0 session l1)
     ++ fst (nonce_checks T timespec_diff conf0
               (snd (nonce_checks T timespec_diff conf0 session l1)) l2),
     snd (nonce_checks T timespec_diff conf0
            (snd (nonce_checks T timespec_diff conf0 session l1)) l2)).
Proof.
  revert session. induction l1 as [|[t n] l1 IH]; intros session.
  - cbn [app nonce_checks fst snd].
    now destruct (nonce_checks T timespec_diff conf0 session l2).
  - cbn [app nonce_checks].
    destruct (nonce_check T timespec_diff {| now := t; conf := conf0 |} session n)
      as [ok s1].
    rewrite IH.
    destruct (nonce_checks T timespec_diff conf0 s1 l1) as [oks s2].
    reflexivity.
Qed.

Lemma nonce_checks_length (conf0 : fastd_config_t)
    (session : fastd_method_common_t) (pkts : list (timespec * list Z)) :
  length (fst (nonce_checks T timespec_diff conf0 session pkts)) = length pkts.
Proof.
  revert session. induction pkts as [|[t n] rest IH]; intros session;
    [reflexivity|].
  cbn [nonce_checks].
  destruct (nonce_check T timespec_diff {| now := t; conf := conf0 |} session n)
    as [ok s1].
  specialize (IH s1).
  destruct (nonce_checks T timespec_diff conf0 s1 rest) as [oks s2].
  cbn [fst length] in *. now rewrite IH.
Qed.

(** One packet that is not newer than [receive_nonce] and at most 31
    positions behind: [receive_nonce] stays, the window only gains bits, an
    accepted packet has its bit set afterwards, and a packet whose bit is set
    is rejected. *)
Lemma older_nonce_step (ctx : fastd_context_t)
    (session : fastd_method_common_t) (nonce : list Z) :
  nonce_wf nonce -> nonce_wf (receive_nonce session) ->
  0 <= le_value (receive_nonce session) - le_value nonce < 64 ->
  let r := nonce_check T timespec_diff ctx session nonce in
  let pos := (le_value (receive_nonce session) - le_value nonce) / 2 in
  receive_nonce (snd r) = receive_nonce session
  /\ (forall i, Z.testbit (receive_reorder_seen session) i = true ->
       Z.testbit (receive_reorder_seen (snd r)) i = true)
  /\ (fst r = true -> Z.testbit (receive_reorder_seen (snd r)) (pos - 1) = true)
  /\ (Z.testbit (receive_reorder_seen session) (pos - 1) = true ->
      fst r = false).
Proof.
  intros Hn Hr B. cbv zeta. unfold nonce_check.
  destruct (fastd_method_is_nonce_valid T timespec_diff ctx session nonce 0)
    as [[|] age] eqn:V.
  2:{ cbn [fst snd]. repeat split; auto; discriminate. }
  pose proof (is_nonce_valid_exact _ _ _ _ _ Hn Hr V) as X.
  replace ((le_value (receive_nonce session) - le_value nonce) / 2) with age
    by (rewrite <- X, Z.mul_comm, Z.div_mul; lia).
  unfold fastd_method_reorder_check.
  replace (age <? 0) with false by (symmetry; apply Z.ltb_ge; lia).
  destruct (age =? 0) eqn:A0; cbn [orb].
  { cbn [fst snd]. repeat split; auto; discriminate. }
  apply Z.eqb_neq in A0.
  rewrite single_bit_as_u64 by lia. rewrite land_pow2_testbit by lia.
  destruct (Z.testbit (receive_reorder_seen session) (age - 1)) eqn:Bit;
    cbn [negb fst snd].
  - repeat split; auto; discriminate.
  - cbn [set_reorder_seen receive_nonce receive_reorder_seen].
    split; [reflexivity|]. split; [|split; [|discriminate]].
    + intros i Hi. rewrite Z.lor_spec, Hi. reflexivity.
    + intros _. rewrite Z.lor_spec, Z.pow2_bits_true by lia.
      apply orb_true_r.
Qed.

End Checks.

Lemma last_cons (A : Type) (x d : A) (l : list A) :
  last (x :: l) d = last l x.
Proof.
  revert x d. induction l as [|y l IH]; intros x d; [reflexivity|].
  change (last (x :: y :: l) d) with (last (y :: l) d).
  rewrite !IH. reflexivity.
Qed.

(** X1: packets that arrive in order are never dropped.  Whatever the target,
    the clock, the configured limits and the state of the window, a series of
    well-formed nonces of the receive direction, each newer than the one
    before, passes [fastd_method_is_nonce_valid] and
    [fastd_method_reorder_check] one after the other; afterwards
    [receive_nonce] is the last of them and [send_nonce] is untouched. *)
Theorem in_order_packets_accepted (T : target)
    (timespec_diff : timespec -> timespec -> Z) (conf0 : fastd_config_t)
    (session : fastd_method_common_t) (pkts : list (timespec * list Z)) :
  nonce_wf (receive_nonce session) ->
  in_order (receive_nonce session) pkts ->
  let r := nonce_checks T timespec_diff conf0 session pkts in
  fst r = repeat true (length pkts)
  /\ receive_nonce (snd r) = last (map snd pkts) (receive_nonce session)
  /\ send_nonce (snd r) = send_nonce session.
Proof.
  revert session. induction pkts as [|[t n] rest IH]; intros session Hr Ho.
  - cbn. repeat split.
  - cbn [in_order] in Ho. destruct Ho as (Hn & P & L & Ho).
    pose proof (newer_nonce_accepted T timespec_diff {| now := t; conf := conf0 |}
                  session n Hn Hr P L) as N.
    cbv zeta in N. cbn [nonce_checks].
    destruct (nonce_check T timespec_diff {| now := t; conf := conf0 |} session n)
      as [ok s1] eqn:C.
    cbn [fst snd] in N. destruct N as (-> & R1 & _ & S1).
    assert (Hr1 : nonce_wf (receive_nonce s1)) by (rewrite R1; exact Hn).
    rewrite <- R1 in Ho.
    specialize (IH s1 Hr1 Ho). cbv zeta in IH.
    destruct (nonce_checks T timespec_diff conf0 s1 rest) as [oks s2].
    cbn [fst snd] in *. destruct IH as (-> & R2 & S2).
    split; [reflexivity|]. split; [|congruence].
    rewrite R2, R1. cbn [map snd]. rewrite last_cons. reflexivity.
Qed.

Lemma in_order_packets_accepted_witness :
  nonce_wf (receive_nonce (session_at 1 (at_sec 100) 0))
  /\ in_order (receive_nonce (session_at 1 (at_sec 100) 0))
       [(at_sec 101, nonce_of 3); (at_sec 500, nonce_of 9)]
  /\ fst (nonce_checks x86_64 timespec_diff_ms default_conf
         (session_at 1 (at_sec 100) 0)
         [(at_sec 101, nonce_of 3); (at_sec 500, nonce_of 9)])
  = [true; true].
Proof.
  assert (W1 : nonce_wf (receive_nonce (session_at 1 (at_sec 100) 0)))
    by nonce_wf_tac.
  assert (O : in_order (receive_nonce (session_at 1 (at_sec 100) 0))
                [(at_sec 101, nonce_of 3); (at_sec 500, nonce_of 9)]).
  { cbn [in_order]. split; [nonce_wf_tac|]. split; [reflexivity|].
    split; [vm_compute; reflexivity|]. split; [nonce_wf_tac|].
    split; [reflexivity|]. split; [vm_compute; reflexivity|]. exact I. }
  split; [exact W1|]. split; [exact O|].
  exact (proj1 (in_order_packets_accepted x86_64 timespec_diff_ms default_conf
                  _ _ W1 O)).
Defined.

(** X2: a session never accepts a nonce of its own sending direction.  For a
    session set up by [fastd_method_common_init], in either role and after any
    series of received packets, a nonce whose direction bit is that of the
    session's [send_nonce] is rejected. *)
Theorem own_direction_rejected (T : target)
    (timespec_diff : timespec -> timespec -> Z) (fastd_rand : Z -> Z -> Z)
    (ctx0 ctx : fastd_context_t) (initiator : bool) (conf0 : fastd_config_t)
    (pkts : list (timespec * list Z)) (nonce : list Z) :
  let session :=
    snd (nonce_checks T timespec_diff conf0
           (fastd_method_common_init fastd_rand ctx0 initiator) pkts) in
  parity nonce = parity (send_nonce session) ->
  fst (nonce_check T timespec_diff ctx session nonce) = false.
Proof.
  cbv zeta. intros P.
  pose proof (nonce_checks_keep_direction T timespec_diff conf0
                (fastd_method_common_init fastd_rand ctx0 initiator) pkts) as K.
  cbv zeta in K. destruct K as [K1 K2]. rewrite K1 in P.
  apply nonce_check_rejects. intros age V.
  apply is_nonce_valid_true in V. rewrite K2, P in V.
  destruct initiator; discriminate V.
Qed.

Lemma own_direction_rejected_witness :
  parity (nonce_of 4)
  = parity (send_nonce
              (snd (nonce_checks x86_64 timespec_diff_ms default_conf
                      (fastd_method_common_init (fun _ _ => 0)
                         (ctx_at (at_sec 100)) false)
                      [(at_sec 101, nonce_of 3)])))
  /\ fst (nonce_check x86_64 timespec_diff_ms (ctx_at (at_sec 102))
            (snd (nonce_checks x86_64 timespec_diff_ms default_conf
                    (fastd_method_common_init (fun _ _ => 0)
                       (ctx_at (at_sec 100)) false)
                    [(at_sec 101, nonce_of 3)]))
            (nonce_of 4)) = false.
Proof.
  split; [reflexivity|].
  apply (own_direction_rejected x86_64 timespec_diff_ms (fun _ _ => 0)
           (ctx_at (at_sec 100)) (ctx_at (at_sec 102)) false default_conf
           [(at_sec 101, nonce_of 3)] (nonce_of 4)).
  reflexivity.
Defined.

(** X3: the age identifies the nonce.  Two well-formed nonces that
    [fastd_method_is_nonce_valid] accepts against the same session with the
    same age are the same nonce: no two distinct packets share a slot of the
    reorder window, and age 0 is reported for [receive_nonce] only. *)
Theorem distinct_nonces_distinct_ages (T : target)
    (timespec_diff : timespec -> timespec -> Z)
    (ctx1 ctx2 : fastd_context_t) (session : fastd_method_common_t)
    (nonce1 nonce2 : list Z) (age1 age2 age : Z) :
  nonce_wf nonce1 -> nonce_wf nonce2 -> nonce_wf (receive_nonce session) ->
  fastd_method_is_nonce_valid T timespec_diff ctx1 session nonce1 age1
  = (true, age) ->
  fastd_method_is_nonce_valid T timespec_diff ctx2 session nonce2 age2
  = (true, age) ->
  nonce1 = nonce2.
Proof.
  intros H1 H2 Hr V1 V2.
  apply is_nonce_valid_exact in V1; [|assumption|assumption].
  apply is_nonce_valid_exact in V2; [|assumption|assumption].
  destruct H1 as [L1 B1], H2 as [L2 B2].
  apply le_value_inj; [congruence|assumption|assumption|lia].
Qed.

Lemma distinct_nonces_distinct_ages_witness :
  nonce_wf (nonce_of 9)
  /\ nonce_wf (receive_nonce (session_at 11 (at_sec 100) 0))
  /\ fastd_method_is_nonce_valid x86_64 timespec_diff_ms (ctx_at (at_sec 105))
       (session_at 11 (at_sec 100) 0) (nonce_of 9) 0 = (true, 1)
  /\ nonce_of 9 = nonce_of 9.
Proof.
  assert (W9 : nonce_wf (nonce_of 9)) by nonce_wf_tac.
  assert (W11 : nonce_wf (receive_nonce (session_at 11 (at_sec 100) 0)))
    by nonce_wf_tac.
  assert (V : fastd_method_is_nonce_valid x86_64 timespec_diff_ms
                (ctx_at (at_sec 105)) (session_at 11 (at_sec 100) 0)
                (nonce_of 9) 0 = (true, 1)) by (vm_compute; reflexivity).
  split; [exact W9|]. split; [exact W11|]. split; [exact V|].
  exact (distinct_nonces_distinct_ages x86_64 timespec_diff_ms _ _ _ _ _ 0 0 1
           W9 W9 W11 V V).
Defined.

Lemma behind_steps (T : target) (timespec_diff : timespec -> timespec -> Z)
    (conf0 : fastd_config_t) (session : fastd_method_common_t)
    (pkts : list (timespec * list Z)) :
  nonce_wf (receive_nonce session) ->
  behind (receive_nonce session) pkts ->
  let r := nonce_checks T timespec_diff conf0 session pkts in
  receive_nonce (snd r) = receive_nonce session
  /\ (forall i, Z.testbit (receive_reorder_seen session) i = true ->
       Z.testbit (receive_reorder_seen (snd r)) i = true).
Proof.
  revert session. induction pkts as [|[t n] rest IH]; intros session Hr B.
  - split; [reflexivity|auto].
  - cbv zeta. cbn [nonce_checks].
    inversion B as [|? ? [Hn Bn] B']; subst. cbn [snd] in Hn, Bn.
    pose proof (older_nonce_step T timespec_diff {| now := t; conf := conf0 |}
                  session n Hn Hr Bn) as S. cbv zeta in S.
    destruct (nonce_check T timespec_diff {| now := t; conf := conf0 |} session n)
      as [ok s1].
    cbn [fst snd] in S. destruct S as (R1 & M1 & _ & _).
    rewrite <- R1 in Hr, B'.
    specialize (IH s1 Hr B'). cbv zeta in IH.
    destruct (nonce_checks T timespec_diff conf0 s1 rest) as [oks s2].
    cbn [snd] in *. destruct IH as [R2 M2].
    split; [congruence|auto].
Qed.

(** X5: no replay while the newest nonce stands.  In a series of packets none
    of which is newer than [receive_nonce] and each at most 31 positions
    behind it, a nonce that has been accepted is rejected when it comes again,
    whatever arrives in between and on every target. *)
Theorem no_replay_while_newest_stands (T : target)
    (timespec_diff : timespec -> timespec -> Z) (conf0 : fastd_config_t)
    (session : fastd_method_common_t) (pre mid : list (timespec * list Z))
    (t1 t2 : timespec) (nonce : list Z) :
  nonce_wf (receive_nonce session) ->
  behind (receive_nonce session) (pre ++ (t1, nonce) :: mid ++ [(t2, nonce)]) ->
  let verdicts :=
    fst (nonce_checks T timespec_diff conf0 session
           (pre ++ (t1, nonce) :: mid ++ [(t2, nonce)])) in
  nth (length pre) verdicts false = true ->
  last verdicts true = false.
Proof.
  intros Hr B. cbv zeta.
  unfold behind in B. apply Forall_app in B as [Bpre B].
  inversion B as [|? ? [Hn Bn] B']; subst. cbn [snd] in Hn, Bn.
  apply Forall_app in B' as [Bmid _].
  rewrite nonce_checks_app. cbn [fst].
  pose proof (nonce_checks_length T timespec_diff conf0 session pre) as Lpre.
  pose proof (behind_steps T timespec_diff conf0 session pre Hr Bpre) as Spre.
  cbv zeta in Spre.
  destruct (nonce_checks T timespec_diff conf0 session pre) as [v_pre s1].
  cbn [fst snd] in *. destruct Spre as [R1 _].
  rewrite app_nth2 by lia. rewrite Lpre, Nat.sub_diag.
  change ((t1, nonce) :: mid ++ [(t2, nonce)])
    with ([(t1, nonce)] ++ mid ++ [(t2, nonce)]).
  rewrite !nonce_checks_app. cbn [fst snd nonce_checks].
  rewrite <- R1 in Hr, Bn, Bmid.
  pose proof (older_nonce_step T timespec_diff {| now := t1; conf := conf0 |}
                s1 nonce Hn Hr Bn) as S1. cbv zeta in S1.
  destruct (nonce_check T timespec_diff {| now := t1; conf := conf0 |} s1 nonce)
    as [ok1 s2].
  cbn [fst snd app nth] in *. destruct S1 as (R2 & _ & Set2 & _).
  intros ->. specialize (Set2 eq_refl).
  rewrite <- R2 in Hr, Bn, Bmid.
  pose proof (behind_steps T timespec_diff conf0 s2 mid Hr Bmid) as Smid.
  cbv zeta in Smid.
  destruct (nonce_checks T timespec_diff conf0 s2 mid) as [v_mid s3].
  cbn [fst snd] in *. destruct Smid as [R3 M3].
  rewrite <- R3 in Hr, Bn.
  pose proof (older_nonce_step T timespec_diff {| now := t2; conf := conf0 |}
                s3 nonce Hn Hr Bn) as S3. cbv zeta in S3.
  destruct (nonce_check T timespec_diff {| now := t2; conf := conf0 |} s3 nonce)
    as [ok2 s4].
  cbn [fst snd] in *. destruct S3 as (_ & _ & _ & Rej).
  rewrite R3, R2 in Rej. specialize (Rej (M3 _ Set2)). subst ok2.
  rewrite ?app_comm_cons, app_assoc. apply last_last.
Qed.

Lemma no_replay_while_newest_stands_witness :
  nonce_wf (receive_nonce (session_at 11 (at_sec 100) 0))
  /\ behind (receive_nonce (session_at 11 (at_sec 100) 0))
       ([] ++ (at_sec 101, nonce_of 7)
           :: [(at_sec 102, nonce_of 9)] ++ [(at_sec 103, nonce_of 7)])
  /\ nth 0 (fst (nonce_checks x86_64 timespec_diff_ms default_conf
                   (session_at 11 (at_sec 100) 0)
                   ([] ++ (at_sec 101, nonce_of 7)
                       :: [(at_sec 102, nonce_of 9)]
                          ++ [(at_sec 103, nonce_of 7)]))) false = true
  /\ last (fst (nonce_checks x86_64 timespec_diff_ms default_conf
                  (session_at 11 (at_sec 100) 0)
                  ([] ++ (at_sec 101, nonce_of 7)
                      :: [(at_sec 102, nonce_of 9)]
                         ++ [(at_sec 103, nonce_of 7)]))) true = false.
Proof.
  assert (W : nonce_wf (receive_nonce (session_at 11 (at_sec 100) 0)))
    by nonce_wf_tac.
  assert (B : behind (receive_nonce (session_at 11 (at_sec 100) 0))
                ([] ++ (at_sec 101, nonce_of 7)
                    :: [(at_sec 102, nonce_of 9)] ++ [(at_sec 103, nonce_of 7)])).
  { unfold behind. cbn [app].
    repeat (apply Forall_cons;
            [split; [nonce_wf_tac
                    | vm_compute; split; [discriminate|reflexivity]]|]).
    apply Forall_nil. }
  assert (A : nth 0 (fst (nonce_checks x86_64 timespec_diff_ms default_conf
                            (session_at 11 (at_sec 100) 0)
                            ([] ++ (at_sec 101, nonce_of 7)
                                :: [(at_sec 102, nonce_of 9)]
                                   ++ [(at_sec 103, nonce_of 7)]))) false = true)
    by (vm_compute; reflexivity).
  split; [exact W|]. split; [exact B|]. split; [exact A|].
  exact (no_replay_while_newest_stands x86_64 timespec_diff_ms default_conf
           _ [] _ _ _ _ W B A).
Defined.

(** X6: the initial nonces of the two roles fit together.  The first nonce a
    freshly initialised session sends is accepted by a freshly initialised
    session of the other role, becomes its [receive_nonce], and is rejected
    when it is presented a second time. *)
Theorem first_packet_accepted (T : target)
    (timespec_diff : timespec -> timespec -> Z)
    (rand1 rand2 : Z -> Z -> Z) (ctx1 ctx2 ctx : fastd_context_t)
    (initiator : bool) :
  let sender := fastd_method_common_init rand1 ctx1 initiator in
  let receiver := fastd_method_common_init rand2 ctx2 (negb initiator) in
  let r := nonce_check T timespec_diff ctx receiver (send_nonce sender) in
  fst r = true
  /\ receive_nonce (snd r) = send_nonce sender
  /\ fst (nonce_check T timespec_diff ctx (snd r) (send_nonce sender)) = false.
Proof.
  cbv zeta.
  assert (Ws : nonce_wf (send_nonce (fastd_method_common_init rand1 ctx1 initiator)))
    by (destruct initiator; nonce_wf_tac).
  assert (Wr : nonce_wf (receive_nonce
                           (fastd_method_common_init rand2 ctx2 (negb initiator))))
    by (destruct initiator; nonce_wf_tac).
  pose proof (newer_nonce_accepted T timespec_diff ctx
                (fastd_method_common_init rand2 ctx2 (negb initiator))
                (send_nonce (fastd_method_common_init rand1 ctx1 initiator))
                Ws Wr) as N.
  cbv zeta in N.
  destruct N as (A & R & _ & _);
    [destruct initiator; reflexivity | destruct initiator; cbn; lia |].
  split; [exact A|]. split; [exact R|].
  apply nonce_check_rejects. intros age V.
  assert (Ws' := Ws). rewrite <- R in Ws'.
  pose proof (is_nonce_valid_exact T timespec_diff _ _ _ _ _ Ws Ws' V) as X.
  rewrite R, Z.sub_diag in X. assert (age = 0) by lia. subst age.
  reflexivity.
Qed.

End TrafficFacts.

(** ** Keys in the configuration *)

Module KeysFacts.
Import Ascii Keys.

Lemma hex_digits_are_read (c : ascii) :
  negb (Ascii.eqb c zero) && existsb (Ascii.eqb c) hex_digits
  = match hex_digit_value c with Some _ => true | None => false end.
Proof. destruct c as [[] [] [] [] [] [] [] []]; reflexivity. Qed.

Lemma hex_digit_value_range (c : ascii) (v : Z) :
  hex_digit_value c = Some v -> 0 <= v < 16.
Proof.
  unfold hex_digit_value. cbv zeta.
  set (n := Z.of_nat (nat_of_ascii c)).
  destruct ((48 <=? n) && (n <=? 57)) eqn:A;
    [|destruct ((97 <=? n) && (n <=? 102)) eqn:B;
      [|destruct ((65 <=? n) && (n <=? 70)) eqn:D]];
    intros H; inversion H; subst v; clear H;
    repeat match goal with
           | H : _ && _ = true |- _ => apply andb_prop in H as [? ?]
           | H : (_ <=? _) = true |- _ => apply Z.leb_le in H
           end; lia.
Qed.

Lemma hex_digit_value_not_nul (c : ascii) :
  hex_digit_value c <> None -> Ascii.eqb c zero = false.
Proof.
  intros H. pose proof (hex_digits_are_read c) as R.
  destruct (hex_digit_value c); [|contradiction].
  apply andb_prop in R as [R _]. now apply negb_true_iff in R.
Qed.

Lemma hex_digit_read_back (v : Z) :
  0 <= v < 16 -> hex_digit_value (hex_digit v) = Some v.
Proof.
  intros H.
  assert (C : v = 0 \/ v = 1 \/ v = 2 \/ v = 3 \/ v = 4 \/ v = 5 \/ v = 6
              \/ v = 7 \/ v = 8 \/ v = 9 \/ v = 10 \/ v = 11 \/ v = 12
              \/ v = 13 \/ v = 14 \/ v = 15) by lia.
  repeat (destruct C as [->|C]; [reflexivity|]). subst v. reflexivity.
Qed.

Lemma strspn_le_strlen (s accept : list ascii) :
  (strspn s accept <= strlen s)%nat.
Proof.
  induction s as [|c s IH]; [apply Nat.le_refl|]. cbn [strspn strlen].
  destruct (Ascii.eqb c zero); cbn [negb andb]; [apply Nat.le_refl|].
  destruct (existsb _ _); lia.
Qed.

Lemma strlen_le_length (s : list ascii) : (strlen s <= length s)%nat.
Proof.
  induction s as [|c s IH]; [apply Nat.le_refl|]. cbn [strlen length].
  destruct (Ascii.eqb c zero); lia.
Qed.

(** [strspn] reaches [n] exactly when the first [n] characters are
    hexadecimal digits. *)
Lemma strspn_hex_digits (n : nat) (s : list ascii) :
  (n <= strspn s hex_digits)%nat
  <-> forall i, (i < n)%nat -> hex_digit_value (nth i s zero) <> None.
Proof.
  revert s. induction n as [|n IH]; intros s.
  - split; [intros _ i Hi; lia | intros _; apply Nat.le_0_l].
  - destruct s as [|c s].
    + cbn [strspn]. split; [lia|]. intros H. exfalso.
      apply (H 0%nat); [lia|]. reflexivity.
    + cbn [strspn]. rewrite hex_digits_are_read.
      destruct (hex_digit_value c) as [v|] eqn:V.
      * rewrite <- Nat.succ_le_mono, IH. split.
        -- intros H [|i] Hi; cbn [nth]; [congruence|]. apply H. lia.
        -- intros H i Hi. apply (H (S i)). lia.
      * split; [lia|]. intros H. exfalso. apply (H 0%nat); [lia|].
        exact V.
Qed.

Lemma skipn_nth_cons (A : Type) (d : A) (n : nat) (l : list A) :
  (n < length l)%nat -> skipn n l = nth n l d :: skipn (S n) l.
Proof.
  revert l. induction n as [|n IH]; intros [|x l] H; cbn [length] in H;
    try lia; [reflexivity|].
  cbn [skipn nth]. apply IH. lia.
Qed.

(** One step of the loop of [read_key] on a string that has passed the
    check. *)
Lemma sscanf_two_digits (s : list ascii) (i : nat) (hi lo : Z) :
  (2 * i + 1 < length s)%nat ->
  hex_digit_value (nth (2 * i) s zero) = Some hi ->
  hex_digit_value (nth (2 * i + 1) s zero) = Some lo ->
  sscanf_02hhx (skipn (2 * i) s) = Some (16 * hi + lo).
Proof.
  intros L H1 H2.
  rewrite (skipn_nth_cons _ zero) by lia.
  rewrite (skipn_nth_cons _ zero) by lia.
  replace (S (2 * i))%nat with (2 * i + 1)%nat by lia.
  cbn [sscanf_02hhx]. rewrite H1, H2.
  apply hex_digit_value_range in H1, H2.
  rewrite Z.mod_small by lia. reflexivity.
Qed.

(** A string that passes the check of [read_key] is read as 32 bytes, two
    digits each. *)
Lemma read_key_checked (key : list Z) (hexkey : list ascii) :
  strlen hexkey = 64%nat ->
  (forall i, (i < 64)%nat -> hex_digit_value (nth i hexkey zero) <> None) ->
  let r := read_key key hexkey in
  fst r = true
  /\ length (snd r) = 32%nat
  /\ Forall Common.is_byte (snd r)
  /\ forall i, (i < 32)%nat ->
       exists hi lo,
         hex_digit_value (nth (2 * i) hexkey zero) = Some hi
         /\ hex_digit_value (nth (2 * i + 1) hexkey zero) = Some lo
         /\ nth i (snd r) 0 = 16 * hi + lo.
Proof.
  intros E1 D. cbv zeta. unfold read_key.
  pose proof (strspn_le_strlen hexkey hex_digits) as LE.
  pose proof (strlen_le_length hexkey) as LL.
  assert (E2 : strspn hexkey hex_digits = 64%nat).
  { apply Nat.le_antisymm; [lia|]. now apply strspn_hex_digits. }
  rewrite E1, E2. cbn [Nat.eqb negb orb fst snd].
  assert (B : forall i, (i < 32)%nat ->
            exists hi lo,
              hex_digit_value (nth (2 * i) hexkey zero) = Some hi
              /\ hex_digit_value (nth (2 * i + 1) hexkey zero) = Some lo
              /\ sscanf_02hhx (skipn (2 * i) hexkey) = Some (16 * hi + lo)).
  { intros i Hi.
    destruct (hex_digit_value (nth (2 * i) hexkey zero)) as [hi|] eqn:H1;
      [|exfalso; apply (D (2 * i)%nat); [lia|exact H1]].
    destruct (hex_digit_value (nth (2 * i + 1) hexkey zero)) as [lo|] eqn:H2;
      [|exfalso; apply (D (2 * i + 1)%nat); [lia|exact H2]].
    exists hi, lo. split; [reflexivity|]. split; [reflexivity|].
    apply sscanf_two_digits; [lia|assumption|assumption]. }
  split; [reflexivity|].
  split; [now rewrite length_map, length_seq|]. split.
  - apply Forall_forall. intros b Hb. apply in_map_iff in Hb as (i & <- & Hi).
    apply in_seq in Hi. destruct (B i ltac:(lia)) as (hi & lo & H1 & H2 & ->).
    apply hex_digit_value_range in H1, H2. unfold Common.is_byte. lia.
  - intros i Hi. destruct (B i Hi) as (hi & lo & H1 & H2 & H3).
    exists hi, lo. split; [exact H1|]. split; [exact H2|].
    match goal with
    | |- nth i (map ?g _) 0 = _ => set (f := g)
    end.
    rewrite (nth_indep _ 0 (f 0%nat))
      by (rewrite length_map, length_seq; exact Hi).
    rewrite map_nth, seq_nth by exact Hi. cbn [Nat.add].
    subst f. cbv beta. now rewrite H3.
Qed.

(** [read_key] refuses everything else and leaves [key] alone. *)
Lemma read_key_refused (key : list Z) (hexkey : list ascii) :
  fst (read_key key hexkey) = true ->
  strlen hexkey = 64%nat
  /\ forall i, (i < 64)%nat -> hex_digit_value (nth i hexkey zero) <> None.
Proof.
  unfold read_key.
  destruct (Nat.eqb (strlen hexkey) 64) eqn:E1; cbn [negb orb];
    [|discriminate].
  destruct (Nat.eqb (strspn hexkey hex_digits) 64) eqn:E2; cbn [negb];
    [|discriminate].
  apply Nat.eqb_eq in E1, E2. intros _. split; [exact E1|].
  apply strspn_hex_digits. lia.
Qed.

(** X7: [read_key] accepts exactly the strings of 64 hexadecimal digits (in
    either case).  It then stores 32 bytes, byte [i] being the value of the
    digits [2i] and [2i+1]; otherwise it leaves [key] as it was. *)
Theorem read_key_accepts_64_hex_digits (key : list Z) (hexkey : list ascii) :
  let r := read_key key hexkey in
  (fst r = true
   <-> strlen hexkey = 64%nat
       /\ forall i, (i < 64)%nat -> hex_digit_value (nth i hexkey zero) <> None)
  /\ (fst r = false -> snd r = key)
  /\ (fst r = true ->
      length (snd r) = 32%nat
      /\ Forall Common.is_byte (snd r)
      /\ forall i, (i < 32)%nat ->
           exists hi lo,
             hex_digit_value (nth (2 * i) hexkey zero) = Some hi
             /\ hex_digit_value (nth (2 * i + 1) hexkey zero) = Some lo
             /\ nth i (snd r) 0 = 16 * hi + lo).
Proof.
  cbv zeta. split; [split|split].
  - apply read_key_refused.
  - intros [E D]. apply (read_key_checked key hexkey E D).
  - unfold read_key. destruct (_ || _); [reflexivity|discriminate].
  - intros H. apply read_key_refused in H as [E D].
    apply (read_key_checked key hexkey E D).
Qed.

Lemma nth_pairs (A : Type) (a b : nat -> A) (d : A) (l : list nat) (i : nat) :
  (i < length l)%nat ->
  nth (2 * i) (flat_map (fun j => [a j; b j]) l) d = a (nth i l 0%nat)
  /\ nth (2 * i + 1) (flat_map (fun j => [a j; b j]) l) d = b (nth i l 0%nat).
Proof.
  revert i. induction l as [|x l IH]; intros i H; cbn [length] in H; [lia|].
  destruct i as [|i]; [split; reflexivity|].
  replace (2 * S i)%nat with (S (S (2 * i))) by lia.
  replace (S (S (2 * i)) + 1)%nat with (S (S (2 * i + 1))) by lia.
  cbn [flat_map app nth]. apply IH. lia.
Qed.

Lemma length_pairs (A : Type) (a b : nat -> A) (l : list nat) :
  length (flat_map (fun j => [a j; b j]) l) = (2 * length l)%nat.
Proof.
  induction l as [|x l IH]; [reflexivity|].
  cbn [flat_map app length]. rewrite IH. lia.
Qed.

Lemma strlen_no_nul (s : list ascii) :
  (forall i, (i < length s)%nat -> Ascii.eqb (nth i s zero) zero = false) ->
  strlen s = length s.
Proof.
  induction s as [|c s IH]; intros H; [reflexivity|].
  cbn [strlen length].
  pose proof (H 0%nat ltac:(cbn [length]; lia)) as H0. cbn [nth] in H0.
  rewrite H0. f_equal. apply IH. intros i Hi. apply (H (S i)). cbn [length]. lia.
Qed.

Lemma hex_of_digits (d : list Z) (i : nat) :
  Forall Common.is_byte d -> (i < 32)%nat ->
  hex_digit_value (nth (2 * i) (hex_of d) zero) = Some (nth i d 0 / 16)
  /\ hex_digit_value (nth (2 * i + 1) (hex_of d) zero)
     = Some (nth i d 0 mod 16).
Proof.
  intros B Hi. unfold hex_of, printf_02x.
  destruct (nth_pairs ascii (fun j => hex_digit (nth j d 0 / 16))
              (fun j => hex_digit (nth j d 0 mod 16)) zero (seq 0 32) i)
    as [E1 E2]; [rewrite length_seq; exact Hi|].
  rewrite E1, E2, seq_nth by exact Hi. cbn [Nat.add].
  pose proof (CommonFacts.nth_is_byte d i B) as Bi. unfold Common.is_byte in Bi.
  split; apply hex_digit_read_back.
  - split; [apply Z.div_pos; lia | apply Z.div_lt_upper_bound; lia].
  - apply Z.mod_pos_bound. lia.
Qed.

Lemma hex_of_all_digits (d : list Z) (i : nat) :
  Forall Common.is_byte d -> (i < 64)%nat ->
  hex_digit_value (nth i (hex_of d) zero) <> None.
Proof.
  intros B Hi.
  destruct (Nat.Even_or_Odd i) as [[k ->]|[k ->]];
    destruct (hex_of_digits d k B ltac:(lia)) as [E1 E2]; congruence.
Qed.

Lemma length_hex_of (d : list Z) : length (hex_of d) = 64%nat.
Proof.
  unfold hex_of, printf_02x.
  rewrite (length_pairs ascii (fun j => hex_digit (nth j d 0 / 16))
             (fun j => hex_digit (nth j d 0 mod 16))).
  rewrite length_seq. reflexivity.
Qed.

(** What [hexdump] prints of a key is read back by [read_key]. *)
Lemma read_key_hex_of (key d : list Z) :
  length d = 32%nat -> Forall Common.is_byte d ->
  read_key key (hex_of d) = (true, d).
Proof.
  intros L B.
  pose proof (length_hex_of d) as LH.
  assert (SL : strlen (hex_of d) = 64%nat).
  { rewrite strlen_no_nul; [exact LH|]. intros i Hi.
    apply hex_digit_value_not_nul. apply hex_of_all_digits; [exact B|lia]. }
  assert (SP : strspn (hex_of d) hex_digits = 64%nat).
  { apply Nat.le_antisymm.
    - rewrite <- SL. apply strspn_le_strlen.
    - apply strspn_hex_digits. intros i Hi. now apply hex_of_all_digits. }
  unfold read_key. rewrite SL, SP. cbn [Nat.eqb negb orb]. f_equal.
  apply (nth_ext _ _ 0 0); [now rewrite length_map, length_seq|].
  intros i Hi. rewrite length_map, length_seq in Hi.
  match goal with
  | |- nth i (map ?g _) 0 = _ => set (f := g)
  end.
  rewrite (nth_indep _ 0 (f 0%nat))
    by (rewrite length_map, length_seq; exact Hi).
  rewrite map_nth, seq_nth by exact Hi. cbn [Nat.add]. subst f. cbv beta.
  destruct (hex_of_digits d i B Hi) as [E1 E2].
  assert (Li : (2 * i + 1 < length (hex_of d))%nat) by lia.
  rewrite (sscanf_two_digits _ _ _ _ Li E1 E2).
  pose proof (Z.div_mod (nth i d 0) 16 ltac:(lia)). lia.
Qed.

(** X8: [hexdump] and [read_key] are inverse to each other: of a key of 32
    bytes [hexdump] prints the description, 64 digits and a newline, and
    [read_key] reads these digits back as the key. *)
Theorem hexdump_read_key_round_trip (desc : list ascii) (key d : list Z) :
  length d = 32%nat -> Forall Common.is_byte d ->
  exists digits,
    hexdump desc d = desc ++ digits ++ [newline]
    /\ length digits = 64%nat
    /\ read_key key digits = (true, d).
Proof.
  intros L B. exists (hex_of d). split; [reflexivity|].
  split; [apply length_hex_of | now apply read_key_hex_of].
Qed.

Lemma hexdump_read_key_round_trip_witness :
  length (Sample.key_of 171) = 32%nat
  /\ Forall Common.is_byte (Sample.key_of 171)
  /\ exists digits,
      hexdump desc_public (Sample.key_of 171)
      = desc_public ++ digits ++ [newline]
      /\ length digits = 64%nat
      /\ read_key [] digits = (true, Sample.key_of 171).
Proof.
  assert (L : length (Sample.key_of 171) = 32%nat) by reflexivity.
  assert (B : Forall Common.is_byte (Sample.key_of 171)).
  { apply Forall_forall. intros x Hx. apply repeat_spec in Hx. subst x.
    unfold Common.is_byte. lia. }
  split; [exact L|]. split; [exact B|].
  exact (hexdump_read_key_round_trip _ [] _ L B).
Defined.

(** X9: the key pair [protocol_generate_key] prints is the one
    [protocol_init] loads.  If the sanitized secret has 32 bytes, the output is
    the two lines [Secret: <digits>] and [Public: <digits>], and
    [protocol_init] on the digits of the secret succeeds with this secret and
    with the public key that was printed. *)
Theorem generated_key_is_accepted (C : Protocol.crypto_lib)
    (ctx : Protocol.fastd_context) (fresh : list Z) :
  let secret :=
    Protocol.ecc_25519_secret_sanitize C
      (Protocol.fastd_random_bytes C (Protocol.random_draws ctx)) in
  length secret = 32%nat -> Forall Common.is_byte secret ->
  exists digits_secret digits_public config,
    snd (protocol_generate_key C ctx)
    = (desc_secret ++ digits_secret
       ++ [newline])
      ++ (desc_public ++ digits_public
          ++ [newline])
    /\ protocol_init C fresh (Some digits_secret) = inr config
    /\ Protocol.secret_key config = secret
    /\ hex_of (Protocol.public_key config) = digits_public.
Proof.
  cbv zeta. intros L B.
  eexists (hex_of _), (hex_of _), _.
  split; [reflexivity|].
  unfold protocol_init. rewrite (read_key_hex_of fresh _ L B). cbn [negb].
  split; [reflexivity|]. split; reflexivity.
Qed.

Lemma generated_key_is_accepted_witness :
  length (Protocol.ecc_25519_secret_sanitize Sample.sample_crypto
            (Protocol.fastd_random_bytes Sample.sample_crypto
               (Protocol.random_draws Sample.sample_ctx))) = 32%nat
  /\ Forall Common.is_byte
       (Protocol.ecc_25519_secret_sanitize Sample.sample_crypto
          (Protocol.fastd_random_bytes Sample.sample_crypto
             (Protocol.random_draws Sample.sample_ctx)))
  /\ exists digits_secret digits_public config,
      snd (protocol_generate_key Sample.sample_crypto Sample.sample_ctx)
      = (desc_secret ++ digits_secret
         ++ [newline])
        ++ (desc_public ++ digits_public
            ++ [newline])
      /\ protocol_init Sample.sample_crypto [] (Some digits_secret) = inr config
      /\ Protocol.secret_key config = Sample.key_of 100
      /\ hex_of (Protocol.public_key config) = digits_public.
Proof.
  assert (L : length (Protocol.ecc_25519_secret_sanitize Sample.sample_crypto
                        (Protocol.fastd_random_bytes Sample.sample_crypto
                           (Protocol.random_draws Sample.sample_ctx)))
              = 32%nat) by reflexivity.
  assert (B : Forall Common.is_byte
                (Protocol.ecc_25519_secret_sanitize Sample.sample_crypto
                   (Protocol.fastd_random_bytes Sample.sample_crypto
                      (Protocol.random_draws Sample.sample_ctx)))).
  { apply Forall_forall. intros x Hx. apply repeat_spec in Hx. subst x.
    unfold Common.is_byte. cbn. lia. }
  split; [exact L|]. split; [exact B|].
  exact (generated_key_is_accepted Sample.sample_crypto Sample.sample_ctx []
           L B).
Defined.

(** X10: a peer that is enabled after [protocol_peer_configure] was enabled
    before and has got a key of 32 bytes that differs from the local public
    key; a peer without key, with a malformed key or with the local key is
    disabled and its protocol part is left alone. *)
Theorem configured_peer_has_foreign_key (own fresh : list Z)
    (peer_conf : fastd_peer_config) :
  let configured := protocol_peer_configure own fresh peer_conf in
  (enabled configured = true ->
   enabled peer_conf = true
   /\ exists hexkey k,
       key peer_conf = Some hexkey
       /\ read_key fresh hexkey = (true, k)
       /\ protocol_config configured = Some {| public_key := k |}
       /\ length k = 32%nat
       /\ Forall Common.is_byte k
       /\ k <> firstn 32 own)
  /\ (key peer_conf = None
      \/ (exists hexkey,
             key peer_conf = Some hexkey
             /\ (fst (read_key fresh hexkey) = false
                 \/ snd (read_key fresh hexkey) = firstn 32 own)) ->
      enabled configured = false
      /\ protocol_config configured = protocol_config peer_conf).
Proof.
  cbv zeta. unfold protocol_peer_configure.
  destruct (key peer_conf) as [hexkey|] eqn:K.
  2:{ split; [discriminate|]. intros _. split; reflexivity. }
  assert (R : fst (read_key fresh hexkey) = true ->
              length (snd (read_key fresh hexkey)) = 32%nat
              /\ Forall Common.is_byte (snd (read_key fresh hexkey))).
  { intros H. apply read_key_refused in H as [E D].
    destruct (read_key_checked fresh hexkey E D) as (_ & L & B & _).
    now split. }
  destruct (read_key fresh hexkey) as [ok k] eqn:RK. cbn [fst snd] in R.
  destruct ok; cbn [negb].
  2:{ split; [discriminate|]. intros _. split; reflexivity. }
  destruct (R eq_refl) as (L & B).
  unfold Protocol.memcmp_eq.
  rewrite (firstn_all2 (n := 32) k) by lia.
  destruct (list_eq_dec Z.eq_dec k (firstn 32 own)) as [E|N].
  - split; [discriminate|]. intros _. split; reflexivity.
  - split.
    + intros En. split; [exact En|]. exists hexkey, k. repeat split; auto.
    + intros [H|(h & H & [H'|H'])]; try discriminate.
      * inversion H; subst h. rewrite RK in H'. discriminate.
      * inversion H; subst h. rewrite RK in H'. contradiction.
Qed.

(** What [read_key] stores does not depend on what [key] held before. *)
Lemma read_key_overwrites (key1 key2 : list Z) (hexkey : list ascii) :
  fst (read_key key1 hexkey) = true ->
  read_key key2 hexkey = read_key key1 hexkey.
Proof.
  intros H. apply read_key_refused in H as [E D].
  destruct (read_key_checked key1 hexkey E D) as (F1 & L1 & _ & N1).
  destruct (read_key_checked key2 hexkey E D) as (F2 & L2 & _ & N2).
  destruct (read_key key1 hexkey) as [ok1 k1], (read_key key2 hexkey) as [ok2 k2].
  cbn [fst snd] in *. subst ok1 ok2. f_equal.
  apply (nth_ext _ _ 0 0); [congruence|]. intros i Hi. rewrite L2 in Hi.
  destruct (N1 i Hi) as (hi1 & lo1 & A1 & B1 & ->).
  destruct (N2 i Hi) as (hi2 & lo2 & A2 & B2 & ->).
  congruence.
Qed.

Lemma read_key_same_verdict (key1 key2 : list Z) (hexkey : list ascii) :
  fst (read_key key2 hexkey) = fst (read_key key1 hexkey).
Proof. unfold read_key. destruct (_ || _); reflexivity. Qed.

(** X24: memory that has not been initialised never reaches a key.  What
    [protocol_init] returns and what [protocol_peer_configure] makes of a peer
    does not depend on the content of the buffer [read_key] is given:
    [read_key] writes all 32 bytes or the key is not used. *)
Theorem uninitialised_memory_never_used (C : Protocol.crypto_lib)
    (own fresh1 fresh2 : list Z) (secret : option (list ascii))
    (peer_conf : fastd_peer_config) :
  protocol_init C fresh1 secret = protocol_init C fresh2 secret
  /\ protocol_peer_configure own fresh1 peer_conf
     = protocol_peer_configure own fresh2 peer_conf.
Proof.
  split.
  - unfold protocol_init. destruct secret as [hexkey|]; [|reflexivity].
    pose proof (read_key_same_verdict fresh1 fresh2 hexkey) as V.
    pose proof (read_key_overwrites fresh1 fresh2 hexkey) as O.
    destruct (read_key fresh1 hexkey) as [ok1 k1],
             (read_key fresh2 hexkey) as [ok2 k2].
    cbn [fst] in *. subst ok2. destruct ok1; cbn [negb]; [|reflexivity].
    specialize (O eq_refl). injection O as ->. reflexivity.
  - unfold protocol_peer_configure.
    destruct (key peer_conf) as [hexkey|]; [|reflexivity].
    pose proof (read_key_same_verdict fresh1 fresh2 hexkey) as V.
    pose proof (read_key_overwrites fresh1 fresh2 hexkey) as O.
    destruct (read_key fresh1 hexkey) as [ok1 k1],
             (read_key fresh2 hexkey) as [ok2 k2].
    cbn [fst] in *. subst ok2. destruct ok1; cbn [negb]; [|reflexivity].
    specialize (O eq_refl). injection O as ->. reflexivity.
Qed.

End KeysFacts.

(** ** Handshake exchanges *)

Module ExchangeFacts.
Import Protocol ProtocolFacts Exchange.

Section HandshakeFacts.
Context {M : Type}.
Variable E : environment M.

(** *** The handshake-key pool *)

(** X11: [maintenance] settles.  If the clock is such that an instant 15
    seconds ahead is after now, then after [maintenance] the pool exists, its
    current handshake key is preferred, and a second call at the same instant
    changes nothing: no further key is generated. *)
Theorem maintenance_settles (ctx : fastd_context) :
  timespec_after E (add_sec (now ctx) 15) (now ctx) = true ->
  let ctx' := maintenance E ctx in
  (exists st,
      protocol_state ctx' = Some st
      /\ is_handshake_key_preferred E ctx' (cur_handshake_key st) = true)
  /\ maintenance E ctx' = ctx'.
Proof.
  intros H. cbv zeta.
  remember (maintenance E ctx) as ctx' eqn:Hc.
  unfold maintenance in Hc.
  destruct (negb (is_handshake_key_preferred E ctx _)) eqn:P in Hc; subst ctx'.
  - (* a new key has been generated *)
    split.
    + eexists. split; [reflexivity|].
      unfold is_handshake_key_preferred.
      cbn [now preferred_till cur_handshake_key]. exact H.
    + unfold maintenance. cbn [protocol_state].
      unfold is_handshake_key_preferred.
      cbn [now preferred_till cur_handshake_key]. rewrite H. reflexivity.
  - (* the current key is still preferred *)
    apply negb_false_iff in P.
    split.
    + eexists. split; [reflexivity|].
      unfold is_handshake_key_preferred in *.
      cbn [now set_protocol_state]. exact P.
    + unfold maintenance. cbn [protocol_state set_protocol_state].
      unfold is_handshake_key_preferred in *.
      cbn [now set_protocol_state]. rewrite P. reflexivity.
Qed.

(** X12: a handshake key outlives one rotation.  If the current handshake key
    is still valid but no longer preferred, [maintenance] keeps it as the
    previous key, and a handshake that names it as recipient handshake key is
    still given a local key with that public half. *)
Theorem rotated_key_still_selected (ctx : fastd_context)
    (st : fastd_protocol_state) (handshake : fastd_handshake) :
  protocol_state ctx = Some st ->
  is_handshake_key_preferred E ctx (cur_handshake_key st) = false ->
  is_handshake_key_valid E ctx (cur_handshake_key st) = true ->
  memcmp_eq (hk_public_key (cur_handshake_key st))
    (rec_data (records handshake RECORD_RECEIPIENT_HANDSHAKE_KEY))
    PUBLICKEYBYTES = true ->
  exists st',
    protocol_state (maintenance E ctx) = Some st'
    /\ prev_handshake_key st' = cur_handshake_key st
    /\ exists k,
        select_handshake_key E (maintenance E ctx) st' handshake = Some k
        /\ (k = prev_handshake_key st' \/ k = cur_handshake_key st')
        /\ memcmp_eq (hk_public_key k)
             (rec_data (records handshake RECORD_RECEIPIENT_HANDSHAKE_KEY))
             PUBLICKEYBYTES = true.
Proof.
  intros Hst P V Mc.
  unfold maintenance. rewrite Hst, P. cbn [negb protocol_state].
  eexists. split; [reflexivity|]. split; [reflexivity|].
  unfold select_handshake_key, is_handshake_key_valid in *.
  cbn [now cur_handshake_key prev_handshake_key valid_till hk_public_key].
  destruct (timespec_after E (add_sec (now ctx) 30) (now ctx)
            && memcmp_eq _ _ PUBLICKEYBYTES) eqn:New.
  - eexists. split; [reflexivity|]. split; [right; reflexivity|].
    apply andb_prop in New as [_ New]. exact New.
  - exists (cur_handshake_key st). rewrite V, Mc. cbn [andb].
    split; [reflexivity|]. split; [left; reflexivity|reflexivity].
Qed.

(** *** [match_sender_key] *)

Lemma match_sender_key_loop_sound (ctx : fastd_context)
    (addr : fastd_peer_address) (configs : list fastd_peer_config)
    (key : list Z) :
  let r := match_sender_key_loop E ctx addr configs key in
  match snd r with
  | Some pc =>
      fst r = ctx
      /\ In pc configs
      /\ fastd_peer_config_is_floating E pc = true
      /\ memcmp_eq (peer_public_key pc) key PUBLICKEYBYTES = true
  | None =>
      fst r = ctx
      \/ exists config,
          In config configs
          /\ fastd_peer_config_is_floating E config = false
          /\ fastd_peer_config_matches_dynamic E config addr = true
          /\ memcmp_eq (peer_public_key config) key PUBLICKEYBYTES = true
          /\ fst r = emit (EvResolvePeer (conf_id config)) ctx
  end.
Proof.
  cbv zeta. induction configs as [|config rest IH].
  - left. reflexivity.
  - cbn [match_sender_key_loop].
    assert (Skip :
      match snd (match_sender_key_loop E ctx addr rest key) with
      | Some pc =>
          fst (match_sender_key_loop E ctx addr rest key) = ctx
          /\ In pc (config :: rest)
          /\ fastd_peer_config_is_floating E pc = true
          /\ memcmp_eq (peer_public_key pc) key PUBLICKEYBYTES = true
      | None =>
          fst (match_sender_key_loop E ctx addr rest key) = ctx
          \/ exists c,
              In c (config :: rest)
              /\ fastd_peer_config_is_floating E c = false
              /\ fastd_peer_config_matches_dynamic E c addr = true
              /\ memcmp_eq (peer_public_key c) key PUBLICKEYBYTES = true
              /\ fst (match_sender_key_loop E ctx addr rest key)
                 = emit (EvResolvePeer (conf_id c)) ctx
      end).
    { destruct (snd (match_sender_key_loop E ctx addr rest key)).
      - destruct IH as (H1 & H2 & H3 & H4). repeat split; auto.
        now right.
      - destruct IH as [H|(c & H1 & H2)]; [now left|].
        right. exists c. split; [now right|exact H2]. }
    destruct (fastd_peer_config_is_floating E config) eqn:F; cbn [negb andb].
    + destruct (memcmp_eq (peer_public_key config) key PUBLICKEYBYTES) eqn:K;
        [|exact Skip].
      cbn [fst snd]. repeat split; auto. now left.
    + destruct (fastd_peer_config_matches_dynamic E config addr) eqn:D;
        cbn [negb]; [|exact Skip].
      destruct (memcmp_eq (peer_public_key config) key PUBLICKEYBYTES) eqn:K;
        [|exact Skip].
      cbn [fst snd]. right. exists config. repeat split; auto. now left.
Qed.

(** X13: [match_sender_key] never returns a configuration with another key.
    A configuration it returns carries the sender key presented and is the
    one passed in or a floating one of the configured peers, and then no
    resolver call is made; without a result at most one peer is resolved; a
    fixed peer (neither floating nor dynamic) with another key gives no
    result and no call at all. *)
Theorem match_sender_key_sound (ctx : fastd_context)
    (addr : fastd_peer_address) (peer_conf : option fastd_peer_config)
    (key : list Z) :
  let r := match_sender_key E ctx addr peer_conf key in
  (forall pc, snd r = Some pc ->
     memcmp_eq (peer_public_key pc) key PUBLICKEYBYTES = true
     /\ fst r = ctx
     /\ (peer_conf = Some pc
         \/ (In pc (conf_peers (conf ctx))
             /\ fastd_peer_config_is_floating E pc = true)))
  /\ (snd r = None ->
      fst r = ctx
      \/ exists config,
          In config (conf_peers (conf ctx))
          /\ fastd_peer_config_is_floating E config = false
          /\ fastd_peer_config_matches_dynamic E config addr = true
          /\ memcmp_eq (peer_public_key config) key PUBLICKEYBYTES = true
          /\ fst r = emit (EvResolvePeer (conf_id config)) ctx)
  /\ (forall pc, peer_conf = Some pc ->
      fastd_peer_config_is_floating E pc = false ->
      fastd_peer_config_is_dynamic E pc = false ->
      memcmp_eq (peer_public_key pc) key PUBLICKEYBYTES = false ->
      r = (ctx, None)).
Proof.
  cbv zeta.
  pose proof (match_sender_key_loop_sound ctx addr (conf_peers (conf ctx)) key)
    as L. cbv zeta in L.
  unfold match_sender_key.
  destruct peer_conf as [pc0|].
  - destruct (memcmp_eq (peer_public_key pc0) key PUBLICKEYBYTES) eqn:K.
    + cbn [fst snd]. split; [|split].
      * intros pc H. injection H as <-. repeat split; auto.
      * discriminate.
      * intros pc H _ _ K'. injection H as <-. congruence.
    + destruct (fastd_peer_config_is_floating E pc0
                || fastd_peer_config_is_dynamic E pc0) eqn:S.
      * split; [|split].
        -- intros pc H. rewrite H in L. destruct L as (L1 & L2 & L3 & L4).
           repeat split; auto.
        -- intros H. rewrite H in L. exact L.
        -- intros pc H F D _. injection H as <-. rewrite F, D in S.
           discriminate S.
      * cbn [fst snd]. split; [discriminate|]. split; [now left|reflexivity].
  - split; [|split].
    + intros pc H. rewrite H in L. destruct L as (L1 & L2 & L3 & L4).
      repeat split; auto.
    + intros H. rewrite H in L. exact L.
    + discriminate.
Qed.

(** *** [establish] *)

Lemma find_peer_spec (peers : list (fastd_peer M))
    (peer_conf : fastd_peer_config) :
  match find_peer peers peer_conf with
  | Some (before, peer, after) =>
      peers = before ++ peer :: after
      /\ conf_id (config peer) = conf_id peer_conf
      /\ Forall (fun p => conf_id (config p) <> conf_id peer_conf) before
  | None => Forall (fun p => conf_id (config p) <> conf_id peer_conf) peers
  end.
Proof.
  induction peers as [|p rest IH]; [constructor|].
  cbn [find_peer].
  destruct (Nat.eqb (conf_id (config p)) (conf_id peer_conf)) eqn:Q.
  - apply Nat.eqb_eq in Q. repeat split; [exact Q|constructor].
  - apply Nat.eqb_neq in Q.
    destruct (find_peer rest peer_conf) as [[[before peer] after]|].
    + destruct IH as (-> & I2 & I3). repeat split; [exact I2|].
      constructor; assumption.
    + constructor; assumption.
Qed.

(** X14: [establish] ends in [exit_bug] exactly when no peer of the list has
    the given configuration; otherwise the peer its loop stops at is the
    first one of the list with that configuration. *)
Theorem establish_exit_bug_iff_no_peer (ctx : fastd_context)
    (peers : list (fastd_peer M)) (peer_conf : fastd_peer_config)
    (addr : fastd_peer_address) (initiator : bool) (A B X Y sigma : list Z) :
  let r := establish E ctx peers peer_conf addr initiator A B X Y sigma in
  (r = None
   <-> Forall (fun p => conf_id (config p) <> conf_id peer_conf) peers)
  /\ (forall ctx' peers',
         r = Some (ctx', peers') ->
         exists before peer after,
           find_peer peers peer_conf = Some (before, peer, after)
           /\ peers = before ++ peer :: after
           /\ conf_id (config peer) = conf_id peer_conf
           /\ Forall (fun p => conf_id (config p) <> conf_id peer_conf)
                     before).
Proof.
  cbv zeta. unfold establish.
  pose proof (find_peer_spec peers peer_conf) as F.
  destruct (find_peer peers peer_conf) as [[[before peer] after]|].
  - destruct F as (F1 & F2 & F3).
    match goal with
    | |- context [if ?c then (emit ?e1 ctx, ?p1) else (emit ?e2 ctx, ?p2)] =>
        destruct c
    end;
      cbv zeta;
      destruct (fastd_peer_claim_address E _ _ addr) as [claimed peer4];
      (destruct claimed; cbn [negb];
       [destruct initiator; cbn [negb];
        [|cbn [fastd_buffer_alloc];
          match goal with
          | |- context [protocol_send E ?c ?p ?b] =>
              destruct (protocol_send E c p b) as [ctx7 peer7]
          end]|]);
      (split;
       [split;
        [discriminate
        |intros H; exfalso; subst peers;
         apply Forall_app in H as [_ H]; inversion H; contradiction]
       |intros ctx' peers' _;
        exists before, peer, after;
        split; [reflexivity|]; split; [exact F1|]; split; assumption]).
  - split; [split; [intros _; exact F|reflexivity]|discriminate].
Qed.

(** *** Handshake messages *)

Lemma steps_refl (ctx : fastd_context) : only_handshake_steps ctx ctx.
Proof. exists []. split; [now rewrite app_nil_r|reflexivity]. Qed.

Lemma steps_trans (c1 c2 c3 : fastd_context) :
  only_handshake_steps c1 c2 -> only_handshake_steps c2 c3 ->
  only_handshake_steps c1 c3.
Proof.
  intros (e1 & T1 & F1) (e2 & T2 & F2). exists (e1 ++ e2). split.
  - rewrite T2, T1, app_assoc. reflexivity.
  - rewrite forallb_app, F1, F2. reflexivity.
Qed.

Lemma steps_emits (ctx : fastd_context) (evs : list event) :
  forallb is_handshake_step evs = true ->
  only_handshake_steps ctx (emits evs ctx).
Proof. intros F. exists evs. split; [reflexivity|exact F]. Qed.

Lemma steps_maintenance (ctx : fastd_context) :
  only_handshake_steps ctx (maintenance E ctx).
Proof.
  unfold maintenance. destruct (negb _).
  - eexists. split; [reflexivity|reflexivity].
  - exists []. split; [|reflexivity].
    cbn [trace set_protocol_state]. now rewrite app_nil_r.
Qed.

Lemma resolve_is_step (evs : list event) :
  forallb is_resolve evs = true -> forallb is_handshake_step evs = true.
Proof.
  apply forallb_weaken. intros e H. unfold is_handshake_step.
  rewrite H, orb_true_r. reflexivity.
Qed.

Lemma steps_match (ctx : fastd_context) (addr : fastd_peer_address)
    (peer_conf : option fastd_peer_config) (key : list Z) :
  only_handshake_steps ctx (fst (match_sender_key E ctx addr peer_conf key)).
Proof.
  destruct (match_sender_key_spec E ctx addr peer_conf key) as (evs & -> & R).
  apply steps_emits, resolve_is_step, R.
Qed.

Lemma steps_no_session (ctx ctx' : fastd_context) :
  only_handshake_steps ctx ctx' ->
  session_inits (new_events ctx ctx') = [].
Proof.
  intros (evs & T & F). rewrite (new_events_app _ _ _ T). clear T.
  induction evs as [|e evs IH]; [reflexivity|].
  cbn [forallb] in F. apply andb_prop in F as [Fe F].
  destruct e; try discriminate Fe; cbn [session_inits]; auto.
Qed.

Lemma steps_dropped (ctx ctx' : fastd_context) (peers peers' : list (fastd_peer M)) :
  dropped E ctx peers (Some (ctx', peers')) ->
  peers' = peers
  /\ only_handshake_steps ctx ctx'
  /\ filter is_send_handshake (new_events ctx ctx') = []
  /\ protocol_state ctx' = protocol_state (maintenance E ctx).
Proof.
  intros (c & H & St & evs & T & R). injection H as -> ->.
  split; [reflexivity|].
  assert (S : only_handshake_steps ctx c).
  { apply (steps_trans _ _ _ (steps_maintenance ctx)).
    exists evs. split; [exact T|apply resolve_is_step, R]. }
  split; [exact S|]. split; [|exact St].
  unfold maintenance in T.
  assert (T' : exists mevs, trace c = trace ctx ++ mevs ++ evs
                            /\ filter is_send_handshake mevs = []).
  { destruct (negb _) in T; cbn [trace set_protocol_state] in T.
    - eexists. split; [rewrite T, <- app_assoc; reflexivity|reflexivity].
    - exists []. split; [exact T|reflexivity]. }
  destruct T' as (mevs & T' & Fm).
  rewrite (new_events_app _ _ _ T'), filter_app, Fm. cbn [app].
  clear - R. induction evs as [|e evs IH]; [reflexivity|].
  cbn [forallb] in R. apply andb_prop in R as [Re R].
  destruct e; try discriminate Re. cbn [filter is_send_handshake]. auto.
Qed.

Lemma new_events_trans (c1 c2 c3 : fastd_context) (e1 e2 : list event) :
  trace c2 = trace c1 ++ e1 -> trace c3 = trace c2 ++ e2 ->
  new_events c1 c3 = new_events c1 c2 ++ new_events c2 c3.
Proof.
  intros T1 T2.
  rewrite (new_events_app _ _ _ T1), (new_events_app _ _ _ T2).
  apply new_events_app. rewrite T2, T1, app_assoc. reflexivity.
Qed.

Lemma steps_no_handshake_sent (c1 c2 c3 : fastd_context) :
  only_handshake_steps c1 c2 -> only_handshake_steps c2 c3 ->
  filter is_send_handshake (new_events c1 c3)
  = filter is_send_handshake (new_events c1 c2)
    ++ filter is_send_handshake (new_events c2 c3).
Proof.
  intros (e1 & T1 & _) (e2 & T2 & _).
  rewrite (new_events_trans _ _ _ _ _ T1 T2). apply filter_app.
Qed.

Lemma maintenance_sends_nothing (ctx : fastd_context) :
  filter is_send_handshake (new_events ctx (maintenance E ctx)) = [].
Proof.
  unfold maintenance. destruct (negb _).
  - erewrite new_events_app by reflexivity. reflexivity.
  - erewrite (new_events_app _ _ [])
      by (cbn [trace set_protocol_state]; now rewrite app_nil_r).
    reflexivity.
Qed.

Lemma match_sends_nothing (ctx : fastd_context) (addr : fastd_peer_address)
    (peer_conf : option fastd_peer_config) (key : list Z) :
  filter is_send_handshake
    (new_events ctx (fst (match_sender_key E ctx addr peer_conf key))) = [].
Proof.
  destruct (match_sender_key_spec E ctx addr peer_conf key) as (evs & -> & R).
  erewrite new_events_app by reflexivity.
  induction evs as [|e evs IH]; [reflexivity|].
  cbn [forallb] in R. apply andb_prop in R as [Re R].
  destruct e; try discriminate Re. cbn [filter is_send_handshake]. auto.
Qed.

Lemma match_keeps_pool (ctx : fastd_context) (addr : fastd_peer_address)
    (peer_conf : option fastd_peer_config) (key : list Z) :
  protocol_state (fst (match_sender_key E ctx addr peer_conf key))
  = protocol_state ctx.
Proof.
  destruct (match_sender_key_spec E ctx addr peer_conf key) as (evs & -> & _).
  reflexivity.
Qed.

(** [respond_handshake]: primitives and at most one reply; the pool stays. *)
Lemma respond_handshake_steps (ctx : fastd_context)
    (addr : fastd_peer_address) (peer_conf : fastd_peer_config)
    (hkey : handshake_key) (peer_handshake_key : list Z)
    (handshake : fastd_handshake) :
  let ctx' :=
    respond_handshake E ctx addr peer_conf hkey peer_handshake_key handshake in
  only_handshake_steps ctx ctx'
  /\ (length (filter is_send_handshake (new_events ctx ctx')) <= 1)%nat
  /\ protocol_state ctx' = protocol_state ctx.
Proof.
  cbv zeta. unfold respond_handshake. cbv zeta.
  destruct (ecc_25519_is_identity (crypto E) _).
  - split; [apply steps_emits; reflexivity|].
    split; [|reflexivity].
    erewrite new_events_app by reflexivity. cbn. lia.
  - split; [|split; [|reflexivity]].
    + eexists. split.
      * cbn [trace emits]. rewrite <- app_assoc. reflexivity.
      * reflexivity.
    + erewrite new_events_app
        by (cbn [trace emits]; rewrite <- app_assoc; reflexivity).
      cbn. lia.
Qed.

Lemma send_events_no_handshake (evs : list event) :
  forallb is_send_event evs = true -> filter is_send_handshake evs = [].
Proof.
  induction evs as [|e evs IH]; [reflexivity|]. cbn [forallb]. intros H.
  apply andb_prop in H as [He H].
  destruct e; try discriminate He; cbn [filter is_send_handshake]; auto.
Qed.

(** [establish] sends no handshake packet. *)
Lemma establish_no_handshake (ctx : fastd_context)
    (peers : list (fastd_peer M)) (peer_conf : fastd_peer_config)
    (addr : fastd_peer_address) (initiator : bool) (A B X Y sigma : list Z)
    (ctx' : fastd_context) (peers' : list (fastd_peer M)) :
  establish E ctx peers peer_conf addr initiator A B X Y sigma
  = Some (ctx', peers') ->
  exists evs,
    trace ctx' = trace ctx ++ evs /\ filter is_send_handshake evs = [].
Proof.
  unfold establish.
  destruct (find_peer peers peer_conf) as [[[before peer] after]|];
    [|discriminate].
  match goal with
  | |- context [if ?c then (emit ?e1 ctx, ?p1) else (emit ?e2 ctx, ?p2)] =>
      destruct c
  end;
    cbv zeta; cbn [now emit emits conf];
    destruct (fastd_peer_claim_address E _ _ addr) as [claimed peer4];
    (destruct claimed; cbn [negb];
     [destruct initiator; cbn [negb];
      [|cbn [fastd_buffer_alloc];
        match goal with
        | |- context [protocol_send E ?c ?p ?b] =>
            destruct (protocol_send_spec E c p b) as (sev & Hst & _ & Hsa & _);
            destruct (protocol_send E c p b) as [ctx7 peer7]
        end;
        cbn [fst] in Hst]|]);
    intros H; injection H as <- <-;
    eexists;
    (split;
     [rewrite ?Hst; cbn [trace emit emits]; rewrite <- !app_assoc;
      cbn [app]; reflexivity
     |cbn [filter is_send_handshake];
      try reflexivity; apply send_events_no_handshake, Hsa]).
Qed.

(** [finish_handshake]: without a verified tag only primitives are called;
    with one, one reply is sent and [establish] follows. *)
Lemma finish_handshake_outcome (ctx : fastd_context)
    (peers : list (fastd_peer M)) (addr : fastd_peer_address)
    (peer_conf : fastd_peer_config) (hkey : handshake_key)
    (peer_handshake_key : list Z) (handshake : fastd_handshake) :
  let r := finish_handshake E ctx peers addr peer_conf hkey peer_handshake_key
             handshake in
  exists ctx1,
    only_handshake_steps ctx ctx1
    /\ if tag_verified E true ctx peer_conf hkey peer_handshake_key handshake
       then (exists sigma,
                r = establish E ctx1 peers peer_conf addr true
                      (hk_public_key hkey) peer_handshake_key
                      (local_pub ctx) (peer_public_key peer_conf) sigma)
            /\ length (filter is_send_handshake (new_events ctx ctx1)) = 1%nat
       else r = Some (ctx1, peers)
            /\ filter is_send_handshake (new_events ctx ctx1) = [].
Proof.
  cbv zeta.
  unfold finish_handshake, tag_verified, shared_handshake_key, handshake_point,
    handshake_hashinput. cbv zeta.
  destruct (ecc_25519_is_identity (crypto E) _); cbn [negb andb].
  - eexists. split; [|split; [reflexivity|]].
    + apply steps_emits; reflexivity.
    + erewrite new_events_app by reflexivity. reflexivity.
  - destruct (crypto_auth_hmacsha256_verify (crypto E) _ _ _ =? 0);
      cbn [negb].
    + eexists. split; [|split; [eexists; reflexivity|]].
      * eexists. split.
        -- cbn [trace emits]. rewrite <- !app_assoc. reflexivity.
        -- reflexivity.
      * erewrite new_events_app
          by (cbn [trace emits]; rewrite <- !app_assoc; reflexivity).
        reflexivity.
    + eexists. split; [|split; [reflexivity|]].
      * eexists. split.
        -- cbn [trace emits]. rewrite <- !app_assoc. reflexivity.
        -- reflexivity.
      * erewrite new_events_app
          by (cbn [trace emits]; rewrite <- !app_assoc; reflexivity).
        reflexivity.
Qed.

Lemma handle_finish_handshake_outcome (ctx : fastd_context)
    (peers : list (fastd_peer M)) (addr : fastd_peer_address)
    (peer_conf : fastd_peer_config) (hkey : handshake_key)
    (peer_handshake_key : list Z) (handshake : fastd_handshake) :
  let r := handle_finish_handshake E ctx peers addr peer_conf hkey
             peer_handshake_key handshake in
  exists ctx1,
    only_handshake_steps ctx ctx1
    /\ filter is_send_handshake (new_events ctx ctx1) = []
    /\ if tag_verified E false ctx peer_conf hkey peer_handshake_key handshake
       then exists sigma,
           r = establish E ctx1 peers peer_conf addr false
                 peer_handshake_key (hk_public_key hkey)
                 (peer_public_key peer_conf) (local_pub ctx) sigma
       else r = Some (ctx1, peers).
Proof.
  cbv zeta.
  unfold handle_finish_handshake, tag_verified, shared_handshake_key,
    handshake_point, handshake_hashinput. cbv zeta.
  destruct (ecc_25519_is_identity (crypto E) _); cbn [negb andb].
  - eexists. split; [|split; [|reflexivity]].
    + apply steps_emits; reflexivity.
    + erewrite new_events_app by reflexivity. reflexivity.
  - destruct (crypto_auth_hmacsha256_verify (crypto E) _ _ _ =? 0);
      cbn [negb].
    + eexists. split; [|split; [|eexists; reflexivity]].
      * eexists. split.
        -- cbn [trace emits]. rewrite <- !app_assoc. reflexivity.
        -- reflexivity.
      * erewrite new_events_app
          by (cbn [trace emits]; rewrite <- !app_assoc; reflexivity).
        reflexivity.
    + eexists. split; [|split; [|reflexivity]].
      * eexists. split.
        -- cbn [trace emits]. rewrite <- !app_assoc. reflexivity.
        -- reflexivity.
      * erewrite new_events_app
          by (cbn [trace emits]; rewrite <- !app_assoc; reflexivity).
        reflexivity.
Qed.

(** X15: a first handshake message (type 1) leaves no state behind: the
    peers stay as they are, the pool is as [maintenance] left it, and apart
    from calls into the cryptographic libraries and the resolver at most one
    handshake packet is sent. *)
Theorem first_message_keeps_no_state (ctx : fastd_context)
    (peers : list (fastd_peer M)) (addr : fastd_peer_address)
    (peer_conf : option fastd_peer_config) (handshake : fastd_handshake) :
  hs_type handshake = 1 ->
  exists ctx',
    protocol_handshake_handle E ctx peers addr peer_conf handshake
    = Some (ctx', peers)
    /\ only_handshake_steps ctx ctx'
    /\ (length (filter is_send_handshake (new_events ctx ctx')) <= 1)%nat
    /\ protocol_state ctx' = protocol_state (maintenance E ctx).
Proof.
  intros T1.
  pose proof (protocol_handshake_handle_cases E ctx peers addr peer_conf
                handshake) as C.
  cbv zeta in C. destruct C as [D|(_ & _ & _ & _ & pc & st & Hm & Hst & Hr)].
  - pose proof D as (c & Hc & _). rewrite Hc in D |- *.
    apply steps_dropped in D as (_ & S & F & P).
    exists c. split; [reflexivity|]. split; [exact S|].
    split; [rewrite F; cbn; lia|exact P].
  - rewrite T1 in Hr. cbn [Z.eqb Pos.eqb] in Hr. rewrite Hr.
    eexists. split; [reflexivity|].
    set (m := match_sender_key E (maintenance E ctx) addr peer_conf
                (rec_data (records handshake RECORD_SENDER_KEY))) in *.
    pose proof (respond_handshake_steps (fst m) addr pc (cur_handshake_key st)
                  (rec_data (records handshake RECORD_SENDER_HANDSHAKE_KEY))
                  handshake) as R.
    cbv zeta in R. destruct R as (R1 & R2 & R3).
    pose proof (steps_trans _ _ _ (steps_maintenance ctx)
                  (steps_match (maintenance E ctx) addr peer_conf
                     (rec_data (records handshake RECORD_SENDER_KEY)))) as S.
    fold m in S.
    split; [exact (steps_trans _ _ _ S R1)|]. split.
    + rewrite (steps_no_handshake_sent _ _ _ S R1). subst m.
      rewrite (steps_no_handshake_sent _ _ _ (steps_maintenance ctx)
                 (steps_match (maintenance E ctx) addr peer_conf
                    (rec_data (records handshake RECORD_SENDER_KEY)))).
      rewrite maintenance_sends_nothing, match_sends_nothing. exact R2.
    + rewrite R3. apply match_keeps_pool.
Qed.

(** Up to the dispatch on the type only the pool and the resolver are
    touched. *)
Lemma before_dispatch (ctx : fastd_context) (addr : fastd_peer_address)
    (peer_conf : option fastd_peer_config) (key : list Z) :
  let m := match_sender_key E (maintenance E ctx) addr peer_conf key in
  only_handshake_steps ctx (fst m)
  /\ filter is_send_handshake (new_events ctx (fst m)) = [].
Proof.
  cbv zeta.
  pose proof (steps_maintenance ctx) as S1.
  pose proof (steps_match (maintenance E ctx) addr peer_conf key) as S2.
  split; [exact (steps_trans _ _ _ S1 S2)|].
  rewrite (steps_no_handshake_sent _ _ _ S1 S2).
  rewrite maintenance_sends_nothing, match_sends_nothing. reflexivity.
Qed.

Lemma sent_chain (c1 c2 c3 : fastd_context) (e2 : list event) :
  only_handshake_steps c1 c2 -> trace c3 = trace c2 ++ e2 ->
  filter is_send_handshake (new_events c1 c3)
  = filter is_send_handshake (new_events c1 c2)
    ++ filter is_send_handshake e2.
Proof.
  intros (e1 & T1 & _) T2.
  rewrite (new_events_trans _ _ _ _ _ T1 T2), filter_app.
  now rewrite (new_events_app _ _ _ T2).
Qed.

(** X16: no session without a verified tag.  If handling a handshake
    initialises a session or changes a peer, the message has type 2 or 3, its
    sender is a known peer, a valid local handshake key was found for it, the
    point computed is not the identity and the tag in record T has verified
    under the shared handshake key. *)
Theorem session_only_after_verified_tag (ctx : fastd_context)
    (peers : list (fastd_peer M)) (addr : fastd_peer_address)
    (peer_conf : option fastd_peer_config) (handshake : fastd_handshake)
    (ctx' : fastd_context) (peers' : list (fastd_peer M)) :
  let m :=
    match_sender_key E (maintenance E ctx) addr peer_conf
      (rec_data (records handshake RECORD_SENDER_KEY)) in
  let sender_hk := rec_data (records handshake RECORD_SENDER_HANDSHAKE_KEY) in
  protocol_handshake_handle E ctx peers addr peer_conf handshake
  = Some (ctx', peers') ->
  peers' <> peers \/ session_inits (new_events ctx ctx') <> [] ->
  (hs_type handshake = 2 \/ hs_type handshake = 3)
  /\ exists pc st hkey,
      snd m = Some pc
      /\ protocol_state (maintenance E ctx) = Some st
      /\ select_handshake_key E (fst m) st handshake = Some hkey
      /\ tag_verified E (hs_type handshake =? 2) (fst m) pc hkey sender_hk
           handshake = true.
Proof.
  intros m sender_hk Hr Hchg.
  assert (Quiet : forall c, only_handshake_steps ctx c ->
                    Some (ctx', peers') = Some (c, peers) -> False).
  { intros c S Q. injection Q as -> ->.
    destruct Hchg as [N|N]; [now apply N|]. apply N, steps_no_session, S. }
  pose proof (protocol_handshake_handle_cases E ctx peers addr peer_conf
                handshake) as C.
  cbv zeta in C. fold m sender_hk in C. rewrite Hr in C.
  destruct C as [D|(_ & _ & _ & _ & pc & st & Hm & Hst & Heq)].
  - exfalso. apply steps_dropped in D as (-> & S & _ & _).
    apply (Quiet ctx' S). reflexivity.
  - destruct (before_dispatch ctx addr peer_conf
                (rec_data (records handshake RECORD_SENDER_KEY))) as [S0 _].
    fold m in S0.
    destruct (hs_type handshake =? 1) eqn:T1.
    { exfalso. apply (Quiet _ (steps_trans _ _ _ S0
        (proj1 (respond_handshake_steps (fst m) addr pc (cur_handshake_key st)
                  sender_hk handshake))) Heq). }
    destruct (hs_type handshake =? 2) eqn:T2.
    { destruct (select_handshake_key E (fst m) st handshake) as [hkey|] eqn:Sel;
        [|exfalso; exact (Quiet _ S0 Heq)].
      destruct (finish_handshake_outcome (fst m) peers addr pc hkey sender_hk
                  handshake) as (ctx1 & S1 & O).
      destruct (tag_verified E true (fst m) pc hkey sender_hk handshake) eqn:V.
      - apply Z.eqb_eq in T2. split; [now left|].
        exists pc, st, hkey. repeat split; assumption.
      - exfalso. destruct O as [O _]. rewrite O in Heq.
        exact (Quiet _ (steps_trans _ _ _ S0 S1) Heq). }
    destruct (hs_type handshake =? 3) eqn:T3;
      [|exfalso; exact (Quiet _ S0 Heq)].
    destruct (select_handshake_key E (fst m) st handshake) as [hkey|] eqn:Sel;
      [|exfalso; exact (Quiet _ S0 Heq)].
    destruct (handle_finish_handshake_outcome (fst m) peers addr pc hkey
                sender_hk handshake) as (ctx1 & S1 & _ & O).
    destruct (tag_verified E false (fst m) pc hkey sender_hk handshake) eqn:V.
    + apply Z.eqb_eq in T3. split; [now right|].
      exists pc, st, hkey. repeat split; assumption.
    + exfalso. rewrite O in Heq.
      exact (Quiet _ (steps_trans _ _ _ S0 S1) Heq).
Qed.

(** X17: a handshake message is answered with at most one handshake packet,
    and with none unless its type is 1 or 2. *)
Theorem at_most_one_handshake_reply (ctx : fastd_context)
    (peers : list (fastd_peer M)) (addr : fastd_peer_address)
    (peer_conf : option fastd_peer_config) (handshake : fastd_handshake)
    (ctx' : fastd_context) (peers' : list (fastd_peer M)) :
  protocol_handshake_handle E ctx peers addr peer_conf handshake
  = Some (ctx', peers') ->
  let sent := filter is_send_handshake (new_events ctx ctx') in
  (length sent <= 1)%nat
  /\ (hs_type handshake <> 1 -> hs_type handshake <> 2 -> sent = []).
Proof.
  intros Hr. cbv zeta.
  pose proof (protocol_handshake_handle_cases E ctx peers addr peer_conf
                handshake) as C.
  cbv zeta in C. rewrite Hr in C.
  set (m := match_sender_key E (maintenance E ctx) addr peer_conf
              (rec_data (records handshake RECORD_SENDER_KEY))) in *.
  set (sender_hk := rec_data (records handshake RECORD_SENDER_HANDSHAKE_KEY))
    in *.
  destruct C as [D|(_ & _ & _ & _ & pc & st & Hm & Hst & Heq)].
  - apply steps_dropped in D as (_ & _ & -> & _). split; [cbn; lia|auto].
  - destruct (before_dispatch ctx addr peer_conf
                (rec_data (records handshake RECORD_SENDER_KEY))) as [S0 F0].
    fold m in S0, F0.
    assert (Stay : Some (ctx', peers') = Some (fst m, peers) ->
                   filter is_send_handshake (new_events ctx ctx') = []).
    { intros Q. injection Q as -> ->. exact F0. }
    destruct (hs_type handshake =? 1) eqn:T1.
    { apply Z.eqb_eq in T1. injection Heq as -> ->.
      destruct (respond_handshake_steps (fst m) addr pc (cur_handshake_key st)
                  sender_hk handshake) as (R1 & R2 & _).
      rewrite (steps_no_handshake_sent _ _ _ S0 R1), F0. cbn [app].
      split; [exact R2|]. intros N. contradiction. }
    destruct (hs_type handshake =? 2) eqn:T2.
    { apply Z.eqb_eq in T2.
      destruct (select_handshake_key E (fst m) st handshake) as [hkey|];
        [|rewrite (Stay Heq); split; [cbn; lia|auto]].
      destruct (finish_handshake_outcome (fst m) peers addr pc hkey sender_hk
                  handshake) as (ctx1 & S1 & O).
      destruct (tag_verified E true (fst m) pc hkey sender_hk handshake).
      - destruct O as [(sigma & O) L]. rewrite O in Heq. symmetry in Heq.
        apply establish_no_handshake in Heq as (evs & Te & Fe).
        rewrite (sent_chain _ _ _ _ (steps_trans _ _ _ S0 S1) Te), Fe.
        rewrite (steps_no_handshake_sent _ _ _ S0 S1), F0, app_nil_r.
        cbn [app]. split; [lia|]. intros _ N. contradiction.
      - destruct O as [O F1]. rewrite O in Heq. injection Heq as -> ->.
        rewrite (steps_no_handshake_sent _ _ _ S0 S1), F0, F1.
        split; [cbn; lia|auto]. }
    destruct (hs_type handshake =? 3) eqn:T3;
      [|rewrite (Stay Heq); split; [cbn; lia|auto]].
    destruct (select_handshake_key E (fst m) st handshake) as [hkey|];
      [|rewrite (Stay Heq); split; [cbn; lia|auto]].
    destruct (handle_finish_handshake_outcome (fst m) peers addr pc hkey
                sender_hk handshake) as (ctx1 & S1 & F1 & O).
    destruct (tag_verified E false (fst m) pc hkey sender_hk handshake).
    + destruct O as (sigma & O). rewrite O in Heq. symmetry in Heq.
      apply establish_no_handshake in Heq as (evs & Te & Fe).
      rewrite (sent_chain _ _ _ _ (steps_trans _ _ _ S0 S1) Te), Fe.
      rewrite (steps_no_handshake_sent _ _ _ S0 S1), F0, F1.
      split; [cbn; lia|auto].
    + rewrite O in Heq. injection Heq as -> ->.
      rewrite (steps_no_handshake_sent _ _ _ S0 S1), F0, F1.
      split; [cbn; lia|auto].
Qed.

(** *** Refreshing a session *)

(** One call of [protocol_send]: a handshake is scheduled at most once, only
    if the session was not refreshing, and then it is. *)
Lemma protocol_send_refresh (ctx : fastd_context) (peer : fastd_peer M)
    (buffer : fastd_buffer) :
  let r := protocol_send E ctx peer buffer in
  exists evs,
    trace (fst r) = trace ctx ++ evs
    /\ (length (filter is_schedule_handshake evs)
        <= if peer_refreshing peer then 0 else 1)%nat
    /\ (length (filter is_schedule_handshake evs) = 1%nat ->
        peer_refreshing (snd r) = true)
    /\ (peer_refreshing peer = true -> peer_refreshing (snd r) = true).
Proof.
  cbv zeta. unfold protocol_send, peer_refreshing.
  destruct (peer_protocol_state peer) as [ps|] eqn:Hps.
  2:{ eexists. split; [reflexivity|]. cbn [snd]. rewrite Hps.
      cbn. repeat split; auto; lia. }
  destruct (is_session_valid E ctx (session ps)); cbn [negb].
  2:{ eexists. split; [reflexivity|]. cbn [snd]. rewrite Hps.
      cbn [filter is_schedule_handshake length].
      repeat split; auto; try lia; destruct (refreshing (session ps)); lia. }
  unfold check_session_refresh.
  destruct (refreshing (session ps)) eqn:Rf; cbn [negb andb].
  - match goal with
    | |- context [if ?c then OldSession else CurrentSession] => destruct c
    end;
      cbn [get_slot];
      match goal with
      | |- context [encrypt (method E) ?t ?m buffer] =>
          destruct (encrypt (method E) t m buffer) as [m' [out|]]
      end;
      (eexists; split;
       [cbn [fst trace emit emits]; rewrite <- ?app_assoc; reflexivity|]);
      cbn [snd set_peer_state peer_protocol_state set_slot session
             set_method_state refreshing app filter is_schedule_handshake
             length];
      repeat split; auto; try lia; try discriminate.
  - destruct (session_is_initiator (method E) (now ctx)
                (method_state (session ps))
              && session_want_refresh (method E) (now ctx)
                   (method_state (session ps))).
    + match goal with
      | |- context [if ?c then OldSession else CurrentSession] => destruct c
      end;
        cbn [get_slot set_slot old_session session];
        match goal with
        | |- context [encrypt (method E) ?t ?m buffer] =>
            destruct (encrypt (method E) t m buffer) as [m' [out|]]
        end;
        (eexists; split;
         [cbn [fst trace emit emits]; rewrite <- ?app_assoc; reflexivity|]);
        cbn [snd set_peer_state peer_protocol_state set_slot session
               set_method_state set_refreshing refreshing app filter
               is_schedule_handshake length];
        repeat split; auto; try lia; try discriminate.
    + match goal with
      | |- context [if ?c then OldSession else CurrentSession] => destruct c
      end;
        cbn [get_slot];
        match goal with
        | |- context [encrypt (method E) ?t ?m buffer] =>
            destruct (encrypt (method E) t m buffer) as [m' [out|]]
        end;
        (eexists; split;
         [cbn [fst trace emit emits]; rewrite <- ?app_assoc; reflexivity|]);
        cbn [snd set_peer_state peer_protocol_state set_slot session
               set_method_state refreshing app filter is_schedule_handshake
               length];
        repeat split; auto; try lia; try discriminate.
Qed.

Lemma protocol_sends_refresh (ctx : fastd_context) (peer : fastd_peer M)
    (pkts : list (timespec * fastd_buffer)) :
  exists evs,
    trace (fst (protocol_sends E ctx peer pkts)) = trace ctx ++ evs
    /\ (length (filter is_schedule_handshake evs)
        <= if peer_refreshing peer then 0 else 1)%nat.
Proof.
  revert ctx peer. induction pkts as [|[t b] rest IH]; intros ctx peer.
  - exists []. split; [cbn; now rewrite app_nil_r|].
    cbn. destruct (peer_refreshing peer); lia.
  - cbn [protocol_sends].
    destruct (protocol_send_refresh (at_time ctx t) peer b)
      as (e1 & T1 & B1 & F1 & K1).
    destruct (protocol_send E (at_time ctx t) peer b) as [ctx1 peer1].
    cbn [fst snd] in *.
    destruct (IH ctx1 peer1) as (e2 & T2 & B2).
    exists (e1 ++ e2). split.
    + rewrite T2, T1. cbn [trace at_time]. now rewrite app_assoc.
    + rewrite filter_app, length_app.
      destruct (peer_refreshing peer).
      * rewrite (K1 eq_refl) in B2. lia.
      * destruct (length (filter is_schedule_handshake e1)) as [|[|n]] eqn:L1;
          [|rewrite (F1 eq_refl) in B2|]; try lia.
        destruct (peer_refreshing peer1); lia.
Qed.

(** X18: a session asks for its refresh at most once.  Over any series of
    packets handed to [protocol_send], at whatever times, at most one
    handshake is scheduled, and none if the session is already marked
    [refreshing]. *)
Theorem refresh_scheduled_at_most_once (ctx : fastd_context)
    (peer : fastd_peer M) (pkts : list (timespec * fastd_buffer)) :
  (length (filter is_schedule_handshake
             (new_events ctx (fst (protocol_sends E ctx peer pkts))))
   <= if peer_refreshing peer then 0 else 1)%nat.
Proof.
  destruct (protocol_sends_refresh ctx peer pkts) as (evs & T & B).
  now rewrite (new_events_app _ _ _ T).
Qed.

(** *** [protocol_handshake_init] *)


(** *** A complete exchange *)

(** What the three computations take from the context is the configuration
    only. *)
Lemma handshake_values_conf (initiator : bool) (c c' : fastd_context)
    (peer_conf : fastd_peer_config) (hkey : handshake_key)
    (peer_handshake_key : list Z) :
  conf c' = conf c ->
  handshake_hashinput initiator c' peer_conf hkey peer_handshake_key
  = handshake_hashinput initiator c peer_conf hkey peer_handshake_key
  /\ handshake_point E initiator c' peer_conf hkey peer_handshake_key
     = handshake_point E initiator c peer_conf hkey peer_handshake_key
  /\ shared_handshake_key E initiator c' peer_conf hkey peer_handshake_key
     = shared_handshake_key E initiator c peer_conf hkey peer_handshake_key.
Proof.
  intros H.
  unfold shared_handshake_key, handshake_point, handshake_hashinput,
    initiator_hashinput, responder_hashinput, initiator_point,
    responder_point, local_pub, local_secret.
  rewrite H. repeat split.
Qed.

Lemma tag_record (recs : list (fastd_handshake_record_type * list Z))
    (k1 k2 k3 k4 tag : list Z) :
  recs = [(RECORD_SENDER_KEY, k1); (RECORD_RECEIPIENT_KEY, k2);
          (RECORD_SENDER_HANDSHAKE_KEY, k3);
          (RECORD_RECEIPIENT_HANDSHAKE_KEY, k4); (RECORD_T, tag)] ->
  forall t, In (RECORD_T, t) recs -> t = tag.
Proof.
  intros -> t H. cbn [In] in H.
  destruct H as [H|[H|[H|[H|[H|[]]]]]]; try discriminate H.
  now injection H.
Qed.

(** The reply [respond_handshake] sends carries [own_tag] as its T. *)
Lemma respond_handshake_reply (ctx : fastd_context)
    (addr : fastd_peer_address) (peer_conf : fastd_peer_config)
    (hkey : handshake_key) (peer_handshake_key : list Z)
    (handshake : fastd_handshake) :
  ecc_25519_is_identity (crypto E)
    (handshake_point E false ctx peer_conf hkey peer_handshake_key) = false ->
  exists evs recs,
    new_events ctx
      (respond_handshake E ctx addr peer_conf hkey peer_handshake_key handshake)
    = evs ++ [EvSendHandshake addr (HandshakeReply handshake recs)]
    /\ forall t, In (RECORD_T, t) recs ->
         t = own_tag E false ctx peer_conf hkey peer_handshake_key.
Proof.
  unfold handshake_point, handshake_hashinput, respond_handshake. cbv zeta.
  intros I. rewrite I.
  erewrite new_events_app
    by (cbn [trace emits]; rewrite <- app_assoc; reflexivity).
  eexists. eexists. split.
  - rewrite app_assoc. reflexivity.
  - eapply tag_record. reflexivity.
Qed.

(** With a verified tag [finish_handshake] sends its own tag and calls
    [establish] with the point it has computed. *)
Lemma finish_handshake_verified (ctx : fastd_context)
    (peers : list (fastd_peer M)) (addr : fastd_peer_address)
    (peer_conf : fastd_peer_config) (hkey : handshake_key)
    (peer_handshake_key : list Z) (handshake : fastd_handshake) :
  tag_verified E true ctx peer_conf hkey peer_handshake_key handshake = true ->
  exists ctx1 evs recs,
    finish_handshake E ctx peers addr peer_conf hkey peer_handshake_key
      handshake
    = establish E ctx1 peers peer_conf addr true
        (hk_public_key hkey) peer_handshake_key
        (local_pub ctx) (peer_public_key peer_conf)
        (ecc_25519_store (crypto E)
           (handshake_point E true ctx peer_conf hkey peer_handshake_key))
    /\ new_events ctx ctx1
       = evs ++ [EvSendHandshake addr (HandshakeReply handshake recs)]
    /\ forall t, In (RECORD_T, t) recs ->
         t = own_tag E true ctx peer_conf hkey peer_handshake_key.
Proof.
  unfold tag_verified, own_tag, shared_handshake_key, handshake_point,
    handshake_hashinput, finish_handshake. cbv zeta.
  destruct (ecc_25519_is_identity (crypto E) _); cbn [negb andb];
    [discriminate|].
  intros V. rewrite V. cbn [negb].
  eexists. eexists. eexists. split; [reflexivity|]. split.
  - erewrite new_events_app
      by (cbn [trace emits]; rewrite <- !app_assoc; reflexivity).
    match goal with
    | |- ?l1 ++ ?l2 ++ [?c; ?sd] = _ =>
        change (l1 ++ l2 ++ [c; sd]) with (l1 ++ l2 ++ [c] ++ [sd])
    end.
    rewrite !app_assoc. reflexivity.
  - eapply tag_record. reflexivity.
Qed.

Lemma handle_finish_handshake_verified (ctx : fastd_context)
    (peers : list (fastd_peer M)) (addr : fastd_peer_address)
    (peer_conf : fastd_peer_config) (hkey : handshake_key)
    (peer_handshake_key : list Z) (handshake : fastd_handshake) :
  tag_verified E false ctx peer_conf hkey peer_handshake_key handshake = true ->
  exists ctx1,
    handle_finish_handshake E ctx peers addr peer_conf hkey peer_handshake_key
      handshake
    = establish E ctx1 peers peer_conf addr false
        peer_handshake_key (hk_public_key hkey)
        (peer_public_key peer_conf) (local_pub ctx)
        (ecc_25519_store (crypto E)
           (handshake_point E false ctx peer_conf hkey peer_handshake_key)).
Proof.
  unfold tag_verified, shared_handshake_key, handshake_point,
    handshake_hashinput, handle_finish_handshake. cbv zeta.
  destruct (ecc_25519_is_identity (crypto E) _); cbn [negb andb];
    [discriminate|].
  intros V. rewrite V. cbn [negb]. eexists. reflexivity.
Qed.

(** X23: two honest hosts complete the exchange and agree on the session
    secret.  Assume that the authenticator verifies its own output, that each
    host has the other's public key, and that the two hosts compute the same
    point, which is not the identity (the algebra of the curve).  Then the
    responder answers the request with a reply; on a reply carrying that tag
    [finish_handshake] sends its own tag and calls [establish]; on a finish
    carrying that tag [handle_finish_handshake] calls [establish]; and the
    two calls hash the same bytes into the session secret. *)
Theorem honest_handshake_agrees
    (ci cr cr' : fastd_context)
    (peer_i peer_r : fastd_peer_config) (hx hy : handshake_key)
    (X Y : list Z) (addr_i addr_r : fastd_peer_address)
    (first reply finish : fastd_handshake)
    (peers_i peers_r : list (fastd_peer M)) :
  (forall tag_msg key,
      crypto_auth_hmacsha256_verify (crypto E)
        (crypto_auth_hmacsha256 (crypto E) tag_msg key) tag_msg key = 0) ->
  conf cr' = conf cr ->
  key_bytes (peer_public_key peer_r) = key_bytes (local_pub cr) ->
  key_bytes (peer_public_key peer_i) = key_bytes (local_pub ci) ->
  key_bytes X = key_bytes (hk_public_key hx) ->
  key_bytes Y = key_bytes (hk_public_key hy) ->
  ecc_25519_is_identity (crypto E) (handshake_point E true ci peer_r hx Y)
  = false ->
  ecc_25519_is_identity (crypto E) (handshake_point E false cr peer_i hy X)
  = false ->
  key_bytes (ecc_25519_store (crypto E)
               (handshake_point E true ci peer_r hx Y))
  = key_bytes (ecc_25519_store (crypto E)
                 (handshake_point E false cr peer_i hy X)) ->
  exists recs1 evs1,
    new_events cr (respond_handshake E cr addr_i peer_i hy X first)
    = evs1 ++ [EvSendHandshake addr_i (HandshakeReply first recs1)]
    /\ (In (RECORD_T, rec_data (records reply RECORD_T)) recs1 ->
        exists ctx_i recs2 evs2 sigma_i,
          finish_handshake E ci peers_i addr_r peer_r hx Y reply
          = establish E ctx_i peers_i peer_r addr_r true
              (hk_public_key hx) Y (local_pub ci) (peer_public_key peer_r)
              sigma_i
          /\ new_events ci ctx_i
             = evs2 ++ [EvSendHandshake addr_r (HandshakeReply reply recs2)]
          /\ (In (RECORD_T, rec_data (records finish RECORD_T)) recs2 ->
              exists ctx_r sigma_r,
                handle_finish_handshake E cr' peers_r addr_i peer_i hy X finish
                = establish E ctx_r peers_r peer_i addr_i false
                    X (hk_public_key hy) (peer_public_key peer_i)
                    (local_pub cr') sigma_r
                /\ establish_hashinput (hk_public_key hx) Y (local_pub ci)
                     (peer_public_key peer_r) sigma_i
                   = establish_hashinput X (hk_public_key hy)
                       (peer_public_key peer_i) (local_pub cr') sigma_r)).
Proof.
  intros Hv Hconf Kr Ki KX KY Ii Ir Sg.
  assert (Hin : handshake_hashinput true ci peer_r hx Y
                = handshake_hashinput false cr peer_i hy X).
  { unfold handshake_hashinput, initiator_hashinput, responder_hashinput.
    now rewrite KX, KY, Kr, Ki. }
  assert (Hk : shared_handshake_key E true ci peer_r hx Y
               = shared_handshake_key E false cr peer_i hy X).
  { unfold shared_handshake_key. now rewrite Hin, Sg. }
  destruct (handshake_values_conf false cr cr' peer_i hy X Hconf)
    as (_ & Hp' & Hk').
  assert (Hl : local_pub cr' = local_pub cr)
    by (unfold local_pub; now rewrite Hconf).
  destruct (respond_handshake_reply cr addr_i peer_i hy X first Ir)
    as (evs1 & recs1 & T1 & R1).
  exists recs1, evs1. split; [exact T1|]. intros In1.
  apply R1 in In1.
  assert (V1 : tag_verified E true ci peer_r hx Y reply = true).
  { unfold tag_verified. rewrite Ii, In1. cbn [negb andb].
    unfold own_tag. rewrite Hk, Kr, KY, Hv. reflexivity. }
  destruct (finish_handshake_verified ci peers_i addr_r peer_r hx Y reply V1)
    as (ctx_i & evs2 & recs2 & F2 & T2 & R2).
  exists ctx_i, recs2, evs2. eexists. split; [exact F2|].
  split; [exact T2|]. intros In2. apply R2 in In2.
  assert (V2 : tag_verified E false cr' peer_i hy X finish = true).
  { unfold tag_verified. rewrite Hp', Hk', Ir, In2. cbn [negb andb].
    unfold own_tag. rewrite Hk, Ki, KX, Hv. reflexivity. }
  destruct (handle_finish_handshake_verified cr' peers_r addr_i peer_i hy X
              finish V2) as (ctx_r & F3).
  exists ctx_r. eexists. split; [exact F3|].
  unfold establish_hashinput. rewrite Hp', Hl, Sg, KX, KY, Kr, Ki.
  reflexivity.
Qed.

End HandshakeFacts.

(** *** On the sample environment *)

Import Sample Toy.

Lemma maintenance_settles_witness :
  timespec_after (sample_env true) (add_sec (now later_ctx) 15) (now later_ctx)
  = true
  /\ maintenance (sample_env true) (maintenance (sample_env true) later_ctx)
     = maintenance (sample_env true) later_ctx.
Proof.
  assert (H : timespec_after (sample_env true) (add_sec (now later_ctx) 15)
                (now later_ctx) = true) by reflexivity.
  split; [exact H|].
  exact (proj2 (maintenance_settles (sample_env true) later_ctx H)).
Defined.

Lemma rotated_key_still_selected_witness :
  protocol_state later_ctx
  = Some {| prev_handshake_key := sample_prev_handshake_key;
            cur_handshake_key := sample_handshake_key |}
  /\ is_handshake_key_preferred (sample_env true) later_ctx sample_handshake_key
     = false
  /\ is_handshake_key_valid (sample_env true) later_ctx sample_handshake_key
     = true
  /\ memcmp_eq (hk_public_key sample_handshake_key)
       (rec_data (records response RECORD_RECEIPIENT_HANDSHAKE_KEY))
       PUBLICKEYBYTES = true
  /\ exists st',
      protocol_state (maintenance (sample_env true) later_ctx) = Some st'
      /\ prev_handshake_key st' = sample_handshake_key
      /\ exists k,
          select_handshake_key (sample_env true)
            (maintenance (sample_env true) later_ctx) st' response = Some k
          /\ (k = prev_handshake_key st' \/ k = cur_handshake_key st')
          /\ memcmp_eq (hk_public_key k)
               (rec_data (records response RECORD_RECEIPIENT_HANDSHAKE_KEY))
               PUBLICKEYBYTES = true.
Proof.
  assert (H1 : protocol_state later_ctx
               = Some {| prev_handshake_key := sample_prev_handshake_key;
                         cur_handshake_key := sample_handshake_key |})
    by reflexivity.
  assert (H2 : is_handshake_key_preferred (sample_env true) later_ctx
                 sample_handshake_key = false) by reflexivity.
  assert (H3 : is_handshake_key_valid (sample_env true) later_ctx
                 sample_handshake_key = true) by reflexivity.
  assert (H4 : memcmp_eq (hk_public_key sample_handshake_key)
                 (rec_data (records response RECORD_RECEIPIENT_HANDSHAKE_KEY))
                 PUBLICKEYBYTES = true) by (vm_compute; reflexivity).
  split; [exact H1|]. split; [exact H2|]. split; [exact H3|].
  split; [exact H4|].
  exact (rotated_key_still_selected (sample_env true) later_ctx _ response
           H1 H2 H3 H4).
Defined.

Lemma first_message_keeps_no_state_witness :
  hs_type init_without_recipient = 1
  /\ exists ctx',
      protocol_handshake_handle (sample_env true) sample_ctx [fresh_peer] 88
        None init_without_recipient = Some (ctx', [fresh_peer])
      /\ only_handshake_steps sample_ctx ctx'
      /\ (length (filter is_send_handshake (new_events sample_ctx ctx')) <= 1)%nat
      /\ protocol_state ctx'
         = protocol_state (maintenance (sample_env true) sample_ctx).
Proof.
  split; [reflexivity|].
  exact (first_message_keeps_no_state (sample_env true) sample_ctx [fresh_peer]
           88 None init_without_recipient eq_refl).
Defined.

Lemma session_only_after_verified_tag_witness :
  protocol_handshake_handle (sample_env true) sample_ctx [fresh_peer] 88 None
    response
  = Some (run_ctx (protocol_handshake_handle (sample_env true) sample_ctx
                     [fresh_peer] 88 None response),
          run_peers (protocol_handshake_handle (sample_env true) sample_ctx
                       [fresh_peer] 88 None response))
  /\ run_peers (protocol_handshake_handle (sample_env true) sample_ctx
                  [fresh_peer] 88 None response) <> [fresh_peer]
  /\ (hs_type response = 2 \/ hs_type response = 3).
Proof.
  assert (H1 : protocol_handshake_handle (sample_env true) sample_ctx
                 [fresh_peer] 88 None response
               = Some (run_ctx (protocol_handshake_handle (sample_env true)
                                  sample_ctx [fresh_peer] 88 None response),
                       run_peers (protocol_handshake_handle (sample_env true)
                                    sample_ctx [fresh_peer] 88 None response)))
    by (vm_compute; reflexivity).
  assert (H2 : run_peers (protocol_handshake_handle (sample_env true)
                            sample_ctx [fresh_peer] 88 None response)
               <> [fresh_peer]) by (vm_compute; discriminate).
  split; [exact H1|]. split; [exact H2|].
  exact (proj1 (session_only_after_verified_tag (sample_env true) sample_ctx
                  [fresh_peer] 88 None response _ _ H1 (or_introl H2))).
Defined.

Lemma at_most_one_handshake_reply_witness :
  protocol_handshake_handle (sample_env true) sample_ctx [fresh_peer] 88 None
    finish_message
  = Some (run_ctx (protocol_handshake_handle (sample_env true) sample_ctx
                     [fresh_peer] 88 None finish_message),
          run_peers (protocol_handshake_handle (sample_env true) sample_ctx
                       [fresh_peer] 88 None finish_message))
  /\ filter is_send_handshake
       (new_events sample_ctx
          (run_ctx (protocol_handshake_handle (sample_env true) sample_ctx
                      [fresh_peer] 88 None finish_message))) = [].
Proof.
  assert (H1 : protocol_handshake_handle (sample_env true) sample_ctx
                 [fresh_peer] 88 None finish_message
               = Some (run_ctx (protocol_handshake_handle (sample_env true)
                                  sample_ctx [fresh_peer] 88 None
                                  finish_message),
                       run_peers (protocol_handshake_handle (sample_env true)
                                    sample_ctx [fresh_peer] 88 None
                                    finish_message)))
    by (vm_compute; reflexivity).
  split; [exact H1|].
  apply (proj2 (at_most_one_handshake_reply (sample_env true) sample_ctx
                  [fresh_peer] 88 None finish_message _ _ H1));
    discriminate.
Defined.

Lemma toy_tag_verifies (tag_msg key : list Z) :
  crypto_auth_hmacsha256_verify (crypto toy_env)
    (crypto_auth_hmacsha256 (crypto toy_env) tag_msg key) tag_msg key = 0.
Proof.
  cbn [crypto toy_env toy_crypto crypto_auth_hmacsha256_verify
         crypto_auth_hmacsha256].
  destruct (list_eq_dec Z.eq_dec _ _) as [_|N]; [reflexivity|].
  exfalso. now apply N.
Qed.

Lemma honest_handshake_agrees_witness :
  (forall tag_msg key,
      crypto_auth_hmacsha256_verify (crypto toy_env)
        (crypto_auth_hmacsha256 (crypto toy_env) tag_msg key) tag_msg key = 0)
  /\ ecc_25519_is_identity (crypto toy_env)
       (handshake_point toy_env true initiator_ctx (toy_peer 1 11)
          (toy_handshake_key 7) (encode 13)) = false
  /\ ecc_25519_store (crypto toy_env)
       (handshake_point toy_env true initiator_ctx (toy_peer 1 11)
          (toy_handshake_key 7) (encode 13))
     = ecc_25519_store (crypto toy_env)
         (handshake_point toy_env false (responder_ctx 111) (toy_peer 1 5)
            (toy_handshake_key 13) (encode 7))
  /\ exists recs1 evs1,
      new_events (responder_ctx 111)
        (respond_handshake toy_env (responder_ctx 111) 21 (toy_peer 1 5)
           (toy_handshake_key 13) (encode 7) (toy_message 1 []))
      = evs1 ++ [EvSendHandshake 21 (HandshakeReply (toy_message 1 []) recs1)]
      /\ (In (RECORD_T,
              rec_data
                (records
                   (toy_message 2
                      (own_tag toy_env false (responder_ctx 111) (toy_peer 1 5)
                         (toy_handshake_key 13) (encode 7)))
                   RECORD_T)) recs1 ->
          exists ctx_i recs2 evs2 sigma_i,
            finish_handshake toy_env initiator_ctx [toy_peer_of (toy_peer 1 11)]
              22 (toy_peer 1 11) (toy_handshake_key 7) (encode 13)
              (toy_message 2
                 (own_tag toy_env false (responder_ctx 111) (toy_peer 1 5)
                    (toy_handshake_key 13) (encode 7)))
            = establish toy_env ctx_i [toy_peer_of (toy_peer 1 11)]
                (toy_peer 1 11) 22 true
                (hk_public_key (toy_handshake_key 7)) (encode 13)
                (local_pub initiator_ctx) (peer_public_key (toy_peer 1 11))
                sigma_i
            /\ new_events initiator_ctx ctx_i
               = evs2
                 ++ [EvSendHandshake 22
                       (HandshakeReply
                          (toy_message 2
                             (own_tag toy_env false (responder_ctx 111)
                                (toy_peer 1 5) (toy_handshake_key 13)
                                (encode 7)))
                          recs2)]
            /\ (In (RECORD_T,
                    rec_data
                      (records
                         (toy_message 3
                            (own_tag toy_env true initiator_ctx (toy_peer 1 11)
                               (toy_handshake_key 7) (encode 13)))
                         RECORD_T)) recs2 ->
                exists ctx_r sigma_r,
                  handle_finish_handshake toy_env (responder_ctx 112)
                    [toy_peer_of (toy_peer 1 5)] 21 (toy_peer 1 5)
                    (toy_handshake_key 13) (encode 7)
                    (toy_message 3
                       (own_tag toy_env true initiator_ctx (toy_peer 1 11)
                          (toy_handshake_key 7) (encode 13)))
                  = establish toy_env ctx_r [toy_peer_of (toy_peer 1 5)]
                      (toy_peer 1 5) 21 false
                      (encode 7) (hk_public_key (toy_handshake_key 13))
                      (peer_public_key (toy_peer 1 5))
                      (local_pub (responder_ctx 112)) sigma_r
                  /\ establish_hashinput (hk_public_key (toy_handshake_key 7))
                       (encode 13) (local_pub initiator_ctx)
                       (peer_public_key (toy_peer 1 11)) sigma_i
                     = establish_hashinput (encode 7)
                         (hk_public_key (toy_handshake_key 13))
                         (peer_public_key (toy_peer 1 5))
                         (local_pub (responder_ctx 112)) sigma_r)).
Proof.
  split; [exact toy_tag_verifies|].
  split; [reflexivity|]. split; [reflexivity|].
  exact (honest_handshake_agrees toy_env initiator_ctx (responder_ctx 111)
           (responder_ctx 112) (toy_peer 1 5) (toy_peer 1 11)
           (toy_handshake_key 7) (toy_handshake_key 13) (encode 7) (encode 13)
           21 22 (toy_message 1 []) _ _ _ _
           toy_tag_verifies eq_refl eq_refl eq_refl eq_refl eq_refl
           eq_refl eq_refl eq_refl).
Defined.

Section BufferFacts.
Context {M : Type}.
Variable E : environment M.

(** *** Buffers on the handshake path *)

Lemma steps_neutral (ctx ctx' : fastd_context) :
  only_handshake_steps ctx ctx' -> buffer_neutral (new_events ctx ctx').
Proof.
  intros (evs & T & F). rewrite (new_events_app _ _ _ T). clear T.
  induction evs as [|e evs IH]; [split; reflexivity|].
  cbn [forallb] in F. apply andb_prop in F as [Fe F].
  destruct (IH F) as [I1 I2].
  destruct e; try discriminate Fe; split; cbn; auto.
Qed.

(** [establish] gives up the one buffer it allocates. *)
Lemma establish_neutral (ctx : fastd_context)
    (peers : list (fastd_peer M)) (peer_conf : fastd_peer_config)
    (addr : fastd_peer_address) (initiator : bool) (A B X Y sigma : list Z)
    (ctx' : fastd_context) (peers' : list (fastd_peer M)) :
  establish E ctx peers peer_conf addr initiator A B X Y sigma
  = Some (ctx', peers') ->
  exists evs, trace ctx' = trace ctx ++ evs /\ buffer_neutral evs.
Proof.
  unfold establish.
  destruct (find_peer peers peer_conf) as [[[before peer] after]|];
    [|discriminate].
  match goal with
  | |- context [if ?c then (emit ?e1 ctx, ?p1) else (emit ?e2 ctx, ?p2)] =>
      destruct c
  end;
    cbv zeta; cbn [now emit emits conf];
    destruct (fastd_peer_claim_address E _ _ addr) as [claimed peer4];
    (destruct claimed; cbn [negb];
     [destruct initiator; cbn [negb];
      [|cbn [fastd_buffer_alloc];
        match goal with
        | |- context [protocol_send E ?c ?p ?b] =>
            destruct (protocol_send_spec E c p b) as (sev & Hst & [D1 D2] & _);
            destruct (protocol_send E c p b) as [ctx7 peer7]
        end;
        cbn [fst] in Hst]|]);
    intros H; injection H as <- <-;
    eexists;
    (split;
     [rewrite ?Hst; cbn [trace emit emits]; rewrite <- !app_assoc;
      cbn [app]; reflexivity
     |split;
      [intros held; cbn [ledger]; try reflexivity; apply D1
      |cbn [filter is_disposal is_alloc length]; try reflexivity;
       now rewrite D2]]).
Qed.

Lemma neutral_chain (c1 c2 c3 : fastd_context) (e2 : list event) :
  only_handshake_steps c1 c2 -> trace c3 = trace c2 ++ e2 ->
  buffer_neutral e2 -> buffer_neutral (new_events c1 c3).
Proof.
  intros S T N. pose proof (steps_neutral _ _ S) as N1.
  destruct S as (e1 & T1 & _).
  rewrite (new_events_trans _ _ _ _ _ T1 T), (new_events_app _ _ _ T).
  now apply buffer_neutral_app.
Qed.

(** X26: handling a handshake keeps the buffers in balance.  Whatever the
    message, every buffer allocated while it is handled (the empty packet
    [establish] sends as responder) is given up exactly once, and no other
    buffer is touched. *)
Theorem handshake_keeps_buffer_balance (ctx : fastd_context)
    (peers : list (fastd_peer M)) (addr : fastd_peer_address)
    (peer_conf : option fastd_peer_config) (handshake : fastd_handshake)
    (ctx' : fastd_context) (peers' : list (fastd_peer M)) :
  protocol_handshake_handle E ctx peers addr peer_conf handshake
  = Some (ctx', peers') ->
  buffer_neutral (new_events ctx ctx').
Proof.
  intros Hr.
  pose proof (protocol_handshake_handle_cases E ctx peers addr peer_conf
                handshake) as C.
  cbv zeta in C. rewrite Hr in C.
  set (m := match_sender_key E (maintenance E ctx) addr peer_conf
              (rec_data (records handshake RECORD_SENDER_KEY))) in *.
  set (sender_hk := rec_data (records handshake RECORD_SENDER_HANDSHAKE_KEY))
    in *.
  destruct C as [D|(_ & _ & _ & _ & pc & st & Hm & Hst & Heq)].
  - apply steps_dropped in D as (_ & S & _ & _). now apply steps_neutral.
  - destruct (before_dispatch E ctx addr peer_conf
                (rec_data (records handshake RECORD_SENDER_KEY))) as [S0 _].
    fold m in S0.
    assert (Stay : forall c, only_handshake_steps ctx c ->
                     Some (ctx', peers') = Some (c, peers) ->
                     buffer_neutral (new_events ctx ctx')).
    { intros c S Q. injection Q as -> ->. now apply steps_neutral. }
    destruct (hs_type handshake =? 1).
    { apply (Stay _ (steps_trans _ _ _ S0
        (proj1 (respond_handshake_steps E (fst m) addr pc (cur_handshake_key st)
                  sender_hk handshake))) Heq). }
    destruct (hs_type handshake =? 2).
    { destruct (select_handshake_key E (fst m) st handshake) as [hkey|];
        [|exact (Stay _ S0 Heq)].
      destruct (finish_handshake_outcome E (fst m) peers addr pc hkey sender_hk
                  handshake) as (ctx1 & S1 & O).
      destruct (tag_verified E true (fst m) pc hkey sender_hk handshake).
      - destruct O as [(sigma & O) _]. rewrite O in Heq. symmetry in Heq.
        apply establish_neutral in Heq as (evs & Te & Ne).
        exact (neutral_chain _ _ _ _ (steps_trans _ _ _ S0 S1) Te Ne).
      - destruct O as [O _]. rewrite O in Heq.
        exact (Stay _ (steps_trans _ _ _ S0 S1) Heq). }
    destruct (hs_type handshake =? 3); [|exact (Stay _ S0 Heq)].
    destruct (select_handshake_key E (fst m) st handshake) as [hkey|];
      [|exact (Stay _ S0 Heq)].
    destruct (handle_finish_handshake_outcome E (fst m) peers addr pc hkey
                sender_hk handshake) as (ctx1 & S1 & _ & O).
    destruct (tag_verified E false (fst m) pc hkey sender_hk handshake).
    + destruct O as (sigma & O). rewrite O in Heq. symmetry in Heq.
      apply establish_neutral in Heq as (evs & Te & Ne).
      exact (neutral_chain _ _ _ _ (steps_trans _ _ _ S0 S1) Te Ne).
    + rewrite O in Heq. exact (Stay _ (steps_trans _ _ _ S0 S1) Heq).
Qed.

End BufferFacts.

Lemma handshake_keeps_buffer_balance_witness :
  protocol_handshake_handle (sample_env true) sample_ctx [fresh_peer] 88 None
    finish_message
  = Some (run_ctx (protocol_handshake_handle (sample_env true) sample_ctx
                     [fresh_peer] 88 None finish_message),
          run_peers (protocol_handshake_handle (sample_env true) sample_ctx
                       [fresh_peer] 88 None finish_message))
  /\ buffer_neutral
       (new_events sample_ctx
          (run_ctx (protocol_handshake_handle (sample_env true) sample_ctx
                      [fresh_peer] 88 None finish_message)))
  /\ filter is_alloc
       (new_events sample_ctx
          (run_ctx (protocol_handshake_handle (sample_env true) sample_ctx
                      [fresh_peer] 88 None finish_message)))
     = [EvBufferAlloc (packet 0 [])].
Proof.
  assert (H1 : protocol_handshake_handle (sample_env true) sample_ctx
                 [fresh_peer] 88 None finish_message
               = Some (run_ctx (protocol_handshake_handle (sample_env true)
                                  sample_ctx [fresh_peer] 88 None
                                  finish_message),
                       run_peers (protocol_handshake_handle (sample_env true)
                                    sample_ctx [fresh_peer] 88 None
                                    finish_message)))
    by (vm_compute; reflexivity).
  split; [exact H1|]. split.
  - exact (handshake_keeps_buffer_balance (sample_env true) sample_ctx
             [fresh_peer] 88 None finish_message _ _ H1).
  - vm_compute. reflexivity.
Defined.

Section RotationFacts.
Context {M : Type}.
Variable E : environment M.

(** *** The session pair after [establish] *)

(** X27.  [establish] as initiator, when the peer is found and its address
    is claimed: the peer is marked established, its current slot holds the
    session made from the hash of [X|Y|A|B|sigma], and its previous slot
    holds the session that was current before if that one was still valid
    and the previous one was not; the session that was freed is the one
    that was overwritten.  The address claim is assumed to leave the
    protocol state of the peer alone. *)
Theorem establish_rotates_sessions (ctx : fastd_context)
    (peers : list (fastd_peer M)) (peer_conf : fastd_peer_config)
    (addr : fastd_peer_address) (A B X Y sigma : list Z)
    (ctx' : fastd_context) (peers' : list (fastd_peer M)) :
  (forall l p a,
      peer_protocol_state (snd (fastd_peer_claim_address E l p a))
      = peer_protocol_state p) ->
  establish E ctx peers peer_conf addr true A B X Y sigma
  = Some (ctx', peers') ->
  In (EvClaimAddress addr true) (new_events ctx ctx') ->
  exists before peer after peer',
    find_peer peers peer_conf = Some (before, peer, after)
    /\ peers' = before ++ peer' :: after
    /\ established peer' = true
    /\ let ps := init_peer_state peer in
       let rotate :=
         is_session_valid E ctx (session ps)
         && negb (is_session_valid E ctx (old_session ps)) in
       peer_protocol_state peer'
       = Some {| old_session :=
                   if rotate then session ps else old_session ps;
                 session :=
                   {| handshakes_cleaned := false; refreshing := false;
                      method_state :=
                        session_init (method E) (now ctx)
                          (crypto_hash_sha256 (crypto E)
                             (establish_hashinput A B X Y sigma)) true |} |}
       /\ In (EvSessionFree
                (if rotate then OldSession else CurrentSession)
                (is_set (method_state
                           (if rotate then old_session ps else session ps))))
             (new_events ctx ctx').
Proof.
  intros Hclaim. unfold establish.
  destruct (find_peer peers peer_conf) as [[[before peer] after]|];
    [|discriminate].
  cbv zeta.
  destruct (is_session_valid E ctx (session (init_peer_state peer))
            && negb (is_session_valid E ctx
                       (old_session (init_peer_state peer)))) eqn:R;
    cbn [now emit emits conf];
    match goal with
    | |- context [fastd_peer_claim_address E ?l ?p addr] =>
        pose proof (Hclaim l p addr) as Hp;
        destruct (fastd_peer_claim_address E l p addr) as [claimed peer4]
    end;
    cbn [snd] in Hp;
    (destruct claimed; cbn [negb];
     [|intros H; injection H as <- <-;
       erewrite new_events_app
         by (cbn [trace emit emits]; rewrite <- !app_assoc; reflexivity);
       cbn [In app];
       intros [Q|[Q|[Q|[Q|[Q|[Q|[]]]]]]]; discriminate Q]);
    intros H _; injection H as <- <-;
    exists before, peer, after; eexists;
    (split; [reflexivity|]); (split; [reflexivity|]);
    (split; [reflexivity|]);
    cbv zeta; rewrite R;
    (split;
     [cbn [set_established peer_protocol_state]; rewrite Hp; reflexivity
     |erewrite new_events_app
        by (cbn [trace emit emits]; rewrite <- !app_assoc; reflexivity);
      left; reflexivity]).
Qed.

End RotationFacts.

Lemma establish_rotates_sessions_witness :
  (forall l p a,
      peer_protocol_state (snd (fastd_peer_claim_address (sample_env true) l p a))
      = peer_protocol_state p)
  /\ exists before peer after peer',
      find_peer [established_peer] sample_peer_conf = Some (before, peer, after)
      /\ run_peers (establish (sample_env true) sample_ctx [established_peer]
                      sample_peer_conf 88 true (key_of 3) (key_of 4) (key_of 1)
                      (key_of 2) (key_of 7))
         = before ++ peer' :: after
      /\ option_map (fun ps => method_state (old_session ps))
           (peer_protocol_state peer')
         = Some (method_state (sample_session false true 6)).
Proof.
  assert (H : forall l p a,
             peer_protocol_state
               (snd (fastd_peer_claim_address (sample_env true) l p a))
             = peer_protocol_state p) by reflexivity.
  split; [exact H|].
  destruct (establish_rotates_sessions (sample_env true) sample_ctx
              [established_peer] sample_peer_conf 88 (key_of 3) (key_of 4)
              (key_of 1) (key_of 2) (key_of 7) _ _ H
              ltac:(vm_compute; reflexivity)
              ltac:(vm_compute; do 4 right; left; reflexivity))
    as (before & peer & after & peer' & F & P & _ & S & _).
  exists before, peer, after, peer'. split; [exact F|].
  split; [exact P|].
  rewrite S. vm_compute in F. injection F as <- <- <-.
  vm_compute. reflexivity.
Defined.

End ExchangeFacts.

(** ** The cipher registry *)

Module CipherFacts.
Import Cipher.

Lemma store_length (A : Type) (array : list A) (i : nat) (v : A) :
  length (store array i v) = length array.
Proof.
  revert i. induction array as [|x rest IH]; intros [|i]; cbn [store length];
    auto.
Qed.

Lemma store_same (A : Type) (array : list A) (i : nat) (v d : A) :
  (i < length array)%nat -> nth i (store array i v) d = v.
Proof.
  revert i. induction array as [|x rest IH]; intros [|i] H; cbn [length] in H;
    try lia; cbn [store nth]; [reflexivity|]. apply IH. lia.
Qed.

Lemma store_other (A : Type) (array : list A) (i j : nat) (v d : A) :
  j <> i -> nth j (store array i v) d = nth j array d.
Proof.
  revert i j. induction array as [|x rest IH]; intros [|i] [|j] H;
    cbn [store nth]; try reflexivity; try contradiction.
  apply IH. intros ->. now apply H.
Qed.

Lemma first_available_spec (entries : list fastd_cipher_impl_t)
    (chosen : fastd_cipher_t) :
  first_available entries = Some chosen ->
  In chosen (map impl entries) /\ cipher_available chosen = true.
Proof.
  induction entries as [|e rest IH]; [discriminate|]. cbn [first_available].
  destruct (cipher_available (impl e)) eqn:A.
  - intros H. injection H as <-. split; [now left|exact A].
  - intros H. destruct (IH H) as [I1 I2]. split; [now right|exact I2].
Qed.

Lemma find_impl_spec (entries : list fastd_cipher_impl_t)
    (impl0 : String.string) (chosen : fastd_cipher_t) :
  find_impl entries impl0 = Some chosen -> In chosen (map impl entries).
Proof.
  induction entries as [|e rest IH]; [discriminate|]. cbn [find_impl].
  destruct (String.eqb (impl_name e) impl0).
  - intros H. injection H as <-. now left.
  - intros H. right. now apply IH.
Qed.

(** [find_cipher] returns the first cipher of that name and its index. *)
Lemma find_cipher_spec (entries : list cipher_entry_t) (name0 : String.string)
    (k i : nat) (c : cipher_entry_t) :
  find_cipher entries name0 k = Some (i, c) ->
  (k <= i)%nat
  /\ nth_error entries (i - k) = Some c
  /\ name c = name0
  /\ forall j c', (j < i - k)%nat -> nth_error entries j = Some c' ->
                  name c' <> name0.
Proof.
  revert k. induction entries as [|x rest IH]; intros k; [discriminate|].
  cbn [find_cipher]. destruct (String.eqb (name x) name0) eqn:Q.
  - intros H. injection H as <- <-. apply String.eqb_eq in Q.
    rewrite Nat.sub_diag. repeat split; auto. intros j c' Hj. lia.
  - intros H. apply IH in H as (H1 & H2 & H3 & H4).
    apply String.eqb_neq in Q.
    replace (i - k)%nat with (S (i - S k)) by lia.
    repeat split; auto; [lia|].
    intros [|j] c' Hj; cbn [nth_error].
    + intros E. injection E as <-. exact Q.
    + apply H4. lia.
Qed.

Lemma find_info_first (entries : list cipher_entry_t) (k i : nat)
    (c : cipher_entry_t) :
  NoDup (map info entries) ->
  nth_error entries i = Some c ->
  find_info entries (info c) k = Some (k + i)%nat.
Proof.
  revert k i. induction entries as [|x rest IH]; intros k i N H.
  - destruct i; discriminate.
  - cbn [find_info]. destruct i as [|i]; cbn [nth_error] in H.
    + injection H as <-. rewrite Nat.eqb_refl, Nat.add_0_r. reflexivity.
    + cbn [map] in N. inversion N as [|? ? Nx N']; subst.
      destruct (Nat.eqb (info x) (info c)) eqn:Q.
      * exfalso. apply Nat.eqb_eq in Q. apply Nx. rewrite Q.
        apply in_map. eapply nth_error_In. exact H.
      * rewrite (IH (S k) i N' H). f_equal. lia.
Qed.

Section RegistryFacts.
Variable ciphers : list cipher_entry_t.

Lemma init_chosen_ok : chosen_ok ciphers (fastd_cipher_init ciphers).
Proof.
  unfold chosen_ok, fastd_cipher_init. split; [apply length_map|].
  intros i c chosen Hc Hn.
  assert (L : (i < length ciphers)%nat)
    by (apply nth_error_Some; congruence).
  rewrite (nth_indep _ None (first_available (impls c)))
    in Hn by (now rewrite length_map).
  rewrite (map_nth (fun c => first_available (impls c))) in Hn.
  rewrite (nth_error_nth _ _ _ Hc) in Hn.
  now apply first_available_spec.
Qed.

Lemma config_chosen_ok (cipher_conf : cipher_conf_t)
    (name0 impl0 : String.string) :
  chosen_ok ciphers cipher_conf ->
  chosen_ok ciphers (snd (fastd_cipher_config ciphers cipher_conf name0 impl0)).
Proof.
  intros [L K]. unfold fastd_cipher_config.
  destruct (find_cipher ciphers name0 0) as [[i c]|] eqn:F; [|now split].
  destruct (find_impl (impls c) impl0) as [chosen|] eqn:I; [|now split].
  destruct (cipher_available chosen) eqn:A; cbn [negb snd]; [|now split].
  apply find_cipher_spec in F as (_ & F & _). rewrite Nat.sub_0_r in F.
  split; [now rewrite store_length|].
  intros j c' chosen' Hc Hn.
  destruct (Nat.eq_dec j i) as [->|N].
  - rewrite store_same in Hn
      by (rewrite L; apply nth_error_Some; congruence).
    injection Hn as <-. rewrite F in Hc. injection Hc as <-.
    split; [eapply find_impl_spec; exact I|exact A].
  - rewrite store_other in Hn by exact N. now apply (K j).
Qed.

(** X20: whatever the configuration asks for, every implementation chosen
    after [fastd_cipher_init] and any series of [fastd_cipher_config] calls is
    an implementation of its own cipher and is available on the running
    platform. *)
Theorem chosen_implementations_available
    (calls : list (String.string * String.string)) :
  chosen_ok ciphers
    (fastd_cipher_configs ciphers (fastd_cipher_init ciphers) calls).
Proof.
  generalize (fastd_cipher_init ciphers) init_chosen_ok.
  induction calls as [|[name0 impl0] rest IH]; intros conf H; [exact H|].
  cbn [fastd_cipher_configs]. apply IH. now apply config_chosen_ok.
Qed.

(** X21: [fastd_cipher_config] changes the choice only when it succeeds.  On
    failure the table is as before; on success the first cipher of the given
    name has been given its first implementation of the given name, which is
    available, no other entry has changed, and the cipher is now found by
    [fastd_cipher_info_get_by_name]. *)
Theorem fastd_cipher_config_selects (cipher_conf : cipher_conf_t)
    (name0 impl0 : String.string) :
  length cipher_conf = length ciphers ->
  let r := fastd_cipher_config ciphers cipher_conf name0 impl0 in
  (fst r = false -> snd r = cipher_conf)
  /\ (fst r = true ->
      exists i c chosen,
        nth_error ciphers i = Some c
        /\ name c = name0
        /\ (forall j c', (j < i)%nat -> nth_error ciphers j = Some c' ->
                         name c' <> name0)
        /\ find_impl (impls c) impl0 = Some chosen
        /\ cipher_available chosen = true
        /\ nth i (snd r) None = Some chosen
        /\ (forall j, j <> i -> nth j (snd r) None = nth j cipher_conf None)
        /\ fastd_cipher_info_get_by_name ciphers (snd r) name0
           = Some (info c)).
Proof.
  intros L. cbv zeta.
  unfold fastd_cipher_config, fastd_cipher_info_get_by_name.
  destruct (find_cipher ciphers name0 0) as [[i c]|] eqn:F;
    [|split; [reflexivity|discriminate]].
  destruct (find_impl (impls c) impl0) as [chosen|] eqn:I;
    [|split; [reflexivity|discriminate]].
  destruct (cipher_available chosen) eqn:A; cbn [negb fst snd];
    [|split; [reflexivity|discriminate]].
  split; [discriminate|]. intros _.
  apply find_cipher_spec in F as (_ & F1 & F2 & F3).
  rewrite Nat.sub_0_r in F1, F3.
  assert (Li : (i < length cipher_conf)%nat)
    by (rewrite L; apply nth_error_Some; congruence).
  exists i, c, chosen. repeat split; auto.
  - now apply store_same.
  - intros j N. now apply store_other.
  - now rewrite store_same.
Qed.

(** X22: a cipher found by name can be used.  If the information structures
    of the ciphers are distinct and the table holds available implementations
    only, the information [fastd_cipher_info_get_by_name] returns leads
    [fastd_cipher_get] to an available implementation. *)
Theorem named_cipher_is_usable (cipher_conf : cipher_conf_t)
    (name0 : String.string) (info0 : nat) :
  NoDup (map info ciphers) ->
  chosen_ok ciphers cipher_conf ->
  fastd_cipher_info_get_by_name ciphers cipher_conf name0 = Some info0 ->
  exists chosen,
    fastd_cipher_get ciphers cipher_conf info0 = Some chosen
    /\ cipher_available chosen = true.
Proof.
  intros N [L K]. unfold fastd_cipher_info_get_by_name, fastd_cipher_get.
  destruct (find_cipher ciphers name0 0) as [[i c]|] eqn:F; [|discriminate].
  destruct (nth i cipher_conf None) as [chosen|] eqn:C; [|discriminate].
  intros H. injection H as <-.
  apply find_cipher_spec in F as (_ & F & _). rewrite Nat.sub_0_r in F.
  rewrite (find_info_first ciphers 0 i c N F). cbn [Nat.add].
  exists chosen. split; [exact C|]. now apply (K i c).
Qed.

End RegistryFacts.

Lemma fastd_cipher_config_selects_witness :
  length (fastd_cipher_init sample_ciphers) = length sample_ciphers
  /\ fst (fastd_cipher_config sample_ciphers (fastd_cipher_init sample_ciphers)
            salsa2012_name xmm_name) = false
  /\ snd (fastd_cipher_config sample_ciphers (fastd_cipher_init sample_ciphers)
            salsa2012_name xmm_name)
     = fastd_cipher_init sample_ciphers.
Proof.
  assert (L : length (fastd_cipher_init sample_ciphers) = length sample_ciphers)
    by reflexivity.
  assert (F : fst (fastd_cipher_config sample_ciphers
                     (fastd_cipher_init sample_ciphers)
                     salsa2012_name xmm_name) = false) by reflexivity.
  split; [exact L|]. split; [exact F|].
  exact (proj1 (fastd_cipher_config_selects sample_ciphers _ _ _ L) F).
Defined.

Lemma named_cipher_is_usable_witness :
  NoDup (map info sample_ciphers)
  /\ chosen_ok sample_ciphers (fastd_cipher_init sample_ciphers)
  /\ fastd_cipher_info_get_by_name sample_ciphers
       (fastd_cipher_init sample_ciphers)
       salsa2012_name
     = Some 20%nat
  /\ exists chosen,
      fastd_cipher_get sample_ciphers (fastd_cipher_init sample_ciphers) 20
      = Some chosen
      /\ cipher_available chosen = true.
Proof.
  assert (N : NoDup (map info sample_ciphers)).
  { cbn. repeat constructor; cbn; intuition discriminate. }
  assert (K : chosen_ok sample_ciphers (fastd_cipher_init sample_ciphers))
    by apply init_chosen_ok.
  assert (G : fastd_cipher_info_get_by_name sample_ciphers
                (fastd_cipher_init sample_ciphers)
                salsa2012_name
              = Some 20%nat) by reflexivity.
  split; [exact N|]. split; [exact K|]. split; [exact G|].
  exact (named_cipher_is_usable sample_ciphers _ _ _ N K G).
Defined.

Lemma find_cipher_first (entries : list cipher_entry_t) (name0 : String.string)
    (k i : nat) (c : cipher_entry_t) :
  nth_error entries i = Some c ->
  name c = name0 ->
  (forall j c', (j < i)%nat -> nth_error entries j = Some c' ->
                name c' <> name0) ->
  find_cipher entries name0 k = Some ((k + i)%nat, c).
Proof.
  revert k i. induction entries as [|x rest IH]; intros k i H N F.
  - destruct i; discriminate.
  - cbn [find_cipher]. destruct i as [|i]; cbn [nth_error] in H.
    + injection H as ->. rewrite (proj2 (String.eqb_eq _ _) N), Nat.add_0_r.
      reflexivity.
    + rewrite (proj2 (String.eqb_neq _ _) (F 0%nat x ltac:(lia) eq_refl)).
      rewrite (IH (S k) i H N); [f_equal; f_equal; lia|].
      intros j c' Hj Hc. apply (F (S j) c'); [lia|exact Hc].
Qed.

Lemma first_available_some (entries : list fastd_cipher_impl_t) :
  (exists chosen, first_available entries = Some chosen)
  <-> existsb (fun e => cipher_available (impl e)) entries = true.
Proof.
  induction entries as [|e rest IH]; cbn [first_available existsb].
  - split; [intros [? H]; discriminate|discriminate].
  - destruct (cipher_available (impl e)); cbn [orb]; [|exact IH].
    split; [reflexivity|]. intros _. eexists. reflexivity.
Qed.

Section OfferedCiphers.
Variable ciphers : list cipher_entry_t.

(** X25: after [fastd_cipher_init] a cipher is offered under its name exactly
    when the first cipher of that name has an implementation that is
    available on the running platform. *)
Theorem cipher_offered_iff_available (name0 : String.string) (info0 : nat) :
  fastd_cipher_info_get_by_name ciphers (fastd_cipher_init ciphers) name0
  = Some info0
  <-> exists i c,
      nth_error ciphers i = Some c
      /\ name c = name0
      /\ (forall j c', (j < i)%nat -> nth_error ciphers j = Some c' ->
                       name c' <> name0)
      /\ info c = info0
      /\ existsb (fun e => cipher_available (impl e)) (impls c) = true.
Proof.
  unfold fastd_cipher_info_get_by_name, fastd_cipher_init.
  assert (Nth : forall i c, nth_error ciphers i = Some c ->
                  nth i (map (fun c => first_available (impls c)) ciphers) None
                  = first_available (impls c)).
  { intros i c H.
    assert (L : (i < length ciphers)%nat)
      by (apply nth_error_Some; congruence).
    rewrite (nth_indep _ None (first_available (impls c)))
      by (now rewrite length_map).
    rewrite (map_nth (fun c => first_available (impls c))).
    now rewrite (nth_error_nth _ _ _ H). }
  split.
  - destruct (find_cipher ciphers name0 0) as [[i c]|] eqn:F; [|discriminate].
    apply find_cipher_spec in F as (_ & F1 & F2 & F3).
    rewrite Nat.sub_0_r in F1, F3. rewrite (Nth i c F1).
    destruct (first_available (impls c)) as [chosen|] eqn:A; [|discriminate].
    intros H. injection H as <-. exists i, c.
    repeat split; auto. apply first_available_some. now exists chosen.
  - intros (i & c & H1 & H2 & H3 & H4 & H5).
    rewrite (find_cipher_first ciphers name0 0 i c H1 H2 H3). cbn [Nat.add].
    rewrite (Nth i c H1).
    apply first_available_some in H5 as (chosen & ->). now rewrite H4.
Qed.

End OfferedCiphers.

End CipherFacts.
